(** * fw-GAMBAS: import, label resolution and per-session processing

    A shallow embedding of the orchestration code of the gear
    ([run.py], [utils/parser.py], [options/test_options.py]) together
    with the properties of its specification.

    Conventions of the embedding.
    - A Python [str] is a Rocq [string]; a character is a code point
      below 256 (Latin-1), which is what [ascii] holds.
    - A Python exception is a value of [exn]; a call that may raise
      returns a [result].
    - A Python [dict] whose iteration order matters is an association
      list in insertion order; the local file system is a finite map
      from paths to contents (or a finite set of paths where only
      existence is observed).
    - Collaborators that live outside the three source files (the
      platform client, the BIDS layout, registration, the network
      model, [BaseOptions], [utils.bids], and [parse_input_files],
      which [run.py] imports from [utils.parser] but which that module
      does not define) are fields of an environment record: what a call
      returns or raises is chosen by the environment, never by the
      embedding.
    - Whether a directory can be created and a file downloaded,
      opened, written or removed is chosen by the environment as well.
      The calls that create and fill an analysis on the platform and
      the calls of [logging] are taken to return; [print] has no effect
      that is modelled.
    - The values of the gear configuration are strings. *)

From Stdlib Require Import Ascii String.
From stdpp Require Import base option list strings gmap.

Local Open Scope string_scope.

(** ** Python values shared by the three modules *)

Module Py.

(** The exception classes that the modelled code raises or catches,
    all of them subclasses of [Exception]; what is not an [Exception]
    (an interrupt, an exit of the interpreter) is not modelled. *)
Inductive exn : Type :=
| TypeError (msg : string)
| UnboundLocalError (var : string)
| IndexError
| KeyError (key : string)
| ValueError (msg : string)
| FileNotFoundError (msg : string)
| OSError (msg : string)
| RuntimeError (msg : string)
| AttributeError (msg : string).

Inductive result (A : Type) : Type :=
| Ok (a : A)
| Raise (e : exn).

Arguments Ok {A} a.
Arguments Raise {A} e.

Definition bind {A B} (r : result A) (k : A -> result B) : result B :=
  match r with
  | Ok a => k a
  | Raise e => Raise e
  end.

Definition is_ok {A} (r : result A) : bool :=
  match r with Ok _ => true | Raise _ => false end.

(** *** [str] methods *)

(** [str.isspace] on one code point below 256: TAB..CR, FS..US, space,
    NEL (0x85) and NBSP (0xA0). [str.split()] cuts on exactly these. *)
Definition isspace (c : ascii) : bool :=
  let n := nat_of_ascii c in
  (((9 <=? n) && (n <=? 13)) || ((28 <=? n) && (n <=? 32))
   || (n =? 133) || (n =? 160))%nat.

(** [str.lower] on one code point below 256: A..Z and the Latin-1
    capitals 0xC0..0xDE (but not the multiplication sign 0xD7) move
    up by 32. *)
Definition lower_char (c : ascii) : ascii :=
  let n := nat_of_ascii c in
  if (((65 <=? n) && (n <=? 90))
      || ((192 <=? n) && (n <=? 222) && negb (n =? 215)))%nat
  then ascii_of_nat (n + 32) else c.

Fixpoint lower (s : string) : string :=
  match s with
  | EmptyString => EmptyString
  | String c s' => String (lower_char c) (lower s')
  end.

(** [s.startswith(p)] *)
Fixpoint startswith (p s : string) : bool :=
  match p, s with
  | EmptyString, _ => true
  | String a p', String b s' => Ascii.eqb a b && startswith p' s'
  | String _ _, EmptyString => false
  end.

(** [p in s] *)
Fixpoint contains (p s : string) : bool :=
  startswith p s ||
  match s with
  | EmptyString => false
  | String _ s' => contains p s'
  end.

Fixpoint drop (n : nat) (s : string) : string :=
  match n, s with
  | O, _ => s
  | S _, EmptyString => EmptyString
  | S n', String _ s' => drop n' s'
  end.

(** [s.endswith(suf)] *)
Definition endswith (s suf : string) : bool :=
  (String.length suf <=? String.length s)%nat
  && String.eqb (drop (String.length s - String.length suf) s) suf.

(** [s.replace(old, new)] for a non-empty [old]: scan from the left,
    replace each occurrence and resume after it. [skip] counts the
    characters of the current occurrence still to be passed over. *)
Fixpoint replace_from (old new : string) (skip : nat) (s : string) : string :=
  match s with
  | EmptyString => EmptyString
  | String c s' =>
      match skip with
      | S k => replace_from old new k s'
      | O =>
          if startswith old s
          then new +:+ replace_from old new (String.length old - 1) s'
          else String c (replace_from old new 0 s')
      end
  end.

(** With an empty [old], Python puts [new] before every character and
    at the end. *)
Fixpoint intersperse (new s : string) : string :=
  match s with
  | EmptyString => new
  | String c s' => new +:+ String c (intersperse new s')
  end.

Definition replace (old new s : string) : string :=
  match old with
  | EmptyString => intersperse new s
  | String _ _ => replace_from old new 0 s
  end.

(** [s.split()]: the maximal runs of non-space characters, in order.
    [cur] is the run being read. *)
Fixpoint split_go (cur : string) (s : string) : list string :=
  match s with
  | EmptyString => match cur with EmptyString => [] | _ => [cur] end
  | String c s' =>
      if isspace c
      then match cur with
           | EmptyString => split_go EmptyString s'
           | _ => cur :: split_go EmptyString s'
           end
      else split_go (cur +:+ String c EmptyString) s'
  end.

Definition split (s : string) : list string := split_go EmptyString s.

(** [l[0]] on a list *)
Definition item0 {A} (l : list A) : result A :=
  match l with
  | [] => Raise IndexError
  | x :: _ => Ok x
  end.

(** [x in l] for a list of strings *)
Definition str_in (x : string) (l : list string) : bool :=
  existsb (String.eqb x) l.

(** *** [os.path] (POSIX) *)

(** [os.path.join(a, b)] *)
Definition join (a b : string) : string :=
  if startswith "/" b then b
  else if String.eqb a "" || endswith a "/" then a +:+ b
  else a +:+ "/" +:+ b.

(** [os.path.basename(p)]: what follows the last slash. *)
Fixpoint basename_go (cur : string) (p : string) : string :=
  match p with
  | EmptyString => cur
  | String c p' =>
      if Ascii.eqb c "/" then basename_go EmptyString p'
      else basename_go (cur +:+ String c EmptyString) p'
  end.

Definition basename (p : string) : string := basename_go EmptyString p.

(** *** [dict] with [str] keys, in insertion order *)

Definition dict (V : Type) : Type := list (string * V).

(** [k in d] *)
Definition dict_in {V} (k : string) (d : dict V) : bool :=
  existsb (fun kv => String.eqb k kv.1) d.

(** [d[k] = v]: an existing key keeps its place, a new one goes last. *)
Fixpoint dict_set {V} (k : string) (v : V) (d : dict V) : dict V :=
  match d with
  | [] => [(k, v)]
  | (k', v') :: d' =>
      if String.eqb k k' then (k, v) :: d' else (k', v') :: dict_set k v d'
  end.

(** [list(d.keys())] *)
Definition keys {V} (d : dict V) : list string := map fst d.

(** *** Effects: a state [S] threaded through calls that may raise.
    A raise keeps the state reached when it happened. *)

Definition M (S A : Type) : Type := S -> result A * S.

Definition ret {S A} (a : A) : M S A := fun s => (Ok a, s).

Definition raise {S A} (e : exn) : M S A := fun s => (Raise e, s).

Definition lift {S A} (r : result A) : M S A := fun s => (r, s).

Definition bindM {S A B} (m : M S A) (k : A -> M S B) : M S B :=
  fun s =>
    match m s with
    | (Ok a, s') => k a s'
    | (Raise e, s') => (Raise e, s')
    end.

(** [try: m  except Exception as e: h e] *)
Definition try_except {S A} (m : M S A) (h : exn -> M S A) : M S A :=
  fun s =>
    match m s with
    | (Ok a, s') => (Ok a, s')
    | (Raise e, s') => h e s'
    end.

(** [try: m  finally: fin]: [fin] runs whether [m] returned or raised;
    what [m] raised is raised again after it, unless [fin] raises
    itself. *)
Definition try_finally {S A} (m : M S A) (fin : M S unit) : M S A :=
  fun s =>
    let '(r, s') := m s in
    match fin s' with
    | (Ok _, s'') => (r, s'')
    | (Raise e, s'') => (Raise e, s'')
    end.

(** [for x in l: body x], with no [break]. *)
Fixpoint for_each {S A} (body : A -> M S unit) (l : list A) : M S unit :=
  match l with
  | [] => ret tt
  | x :: l' => bindM (body x) (fun _ => for_each body l')
  end.

End Py.

Import Py.

Notation "'let*' x ':=' m 'in' k" := (bindM m (fun x => k))
  (at level 10, x name, m at level 100, k at level 200).
Notation "m ';;' k" := (bindM m (fun _ => k))
  (at level 100, k at level 200, right associativity).

(** ** [utils/parser.py]: labels and the hierarchical import *)

Module Parser.

(** [string.ascii_lowercase] *)
Definition alc : string := "abcdefghijklmnopqrstuvwxyz".

(** The model chosen by [parse_config] from the outcome of
    [check_gpu]. *)
Definition parse_config_model (is_gpu : bool) : string :=
  if is_gpu then "GAMBAS" else "ResCNN".

(** *** Container nodes of the platform, as the importer reads them *)

Record file : Type := { f_name : string; f_type : string }.

Record acquisition : Type := { acq_files : list file }.

Record session : Type :=
  { ses_label : string; ses_id : string; ses_acquisitions : list acquisition }.

Record subject : Type := { sub_label : string; sub_sessions : list session }.

(** *** Label rules *)

(** [ses.label.split()[0].replace("-", '').replace("_", "")] *)
Definition make_session_label (ses : session) : result string :=
  bind (item0 (split (ses_label ses)))
       (fun tok => Ok (replace "_" "" (replace "-" "" tok))).

(** [sub.label.replace("-", '').replace(" ", '').replace("_", "")] *)
Definition make_subject_label (sub : subject) : string :=
  replace "_" "" (replace " " "" (replace "-" "" (sub_label sub))).

(** [proj.replace("-", '_').replace(" ", '')] *)
Definition make_project_label (proj : string) : string :=
  replace " " "" (replace "-" "_" proj).

(** *** The local disk and the two operations that may fail on it *)

(** [paths]: what [os.path.exists] answers yes to. [fetched]: every
    call of a file's download operation, oldest first, as
    (file name, target path), whether it succeeded or raised. *)
Record disk : Type := { paths : gset string; fetched : list (string * string) }.

(** What the surroundings decide: whether [os.makedirs(d, exist_ok=True)]
    raises, and whether [file.download(fpath)] raises. *)
Record platform : Type :=
  { makedirs_error : string -> option exn;
    download_error : file -> string -> option exn }.

Definition exists_ (fpath : string) (d : disk) : bool :=
  bool_decide (fpath ∈ paths d).

Definition makedirs (pf : platform) (dir : string) : M disk unit :=
  fun d =>
    match makedirs_error pf dir with
    | Some e => (Raise e, d)
    | None => (Ok tt, {| paths := {[dir]} ∪ paths d; fetched := fetched d |})
    end.

(** [file.download(fpath)]: the call is recorded; on success the target
    path exists afterwards. *)
Definition download (pf : platform) (f : file) (fpath : string) : M disk unit :=
  fun d =>
    let called := (fetched d ++ [(f_name f, fpath)])%list in
    match download_error pf f fpath with
    | Some e => (Raise e, {| paths := paths d; fetched := called |})
    | None => (Ok tt, {| paths := {[fpath]} ∪ paths d; fetched := called |})
    end.

(** *** [download_file] *)

(** The value of [do_download] after the three nested tests. *)
Definition do_download (f : file) : bool :=
  let file_name_lower := lower (f_name f) in
  if str_in (f_type f) ["source code"; "nifti"] then
    if contains "T2" (f_name f)
       && (contains "axi" file_name_lower || contains "AXI" (f_name f)) then
      if negb (existsb (fun excluded => contains excluded file_name_lower)
                       ["mapping"; "align"; "brain"])
      then true else false
    else false
  else false.

Definition download_file (pf : platform) (f : file) (my_dir : string)
           (dry_run : bool) : M disk string :=
  (if do_download f then
     let download_dir := my_dir in
     makedirs pf download_dir;;
     try_except
       (if dry_run then ret tt
        else
          let fpath := join download_dir (f_name f) in
          fun d =>
            if negb (exists_ fpath d) then download pf f fpath d
            else ret tt d)
       (fun _ => ret tt)
   else ret tt);;
  ret (f_name f).

(** *** [download_session] *)

Definition download_session (pf : platform) (ses_container : session)
           (sub_dir : string) (dry_run : bool)
  : M disk (string * string * string) :=
  let* ses_label := lift (make_session_label ses_container) in
  let ses_dir := join sub_dir ses_label in
  let ses_id := ses_id ses_container in
  for_each
    (fun acq =>
       for_each (fun f => download_file pf f ses_dir dry_run;; ret tt)
                (acq_files acq))
    (ses_acquisitions ses_container);;
  ret (ses_label, ses_dir, ses_id).

(** *** [download_subject] *)

(** The loop [while ses_label in sessions_out: ses_label = ses_label0 +
    alc[i]; i += 1]. [rest] is [alc[i:]]: its head is [alc[i]],
    [i += 1] drops it, and [alc[i]] past the end raises IndexError. *)
Fixpoint while_taken {V} (sessions_out : dict V) (ses_label0 : string)
         (rest : string) (ses_label : string) : result string :=
  if dict_in ses_label sessions_out then
    match rest with
    | EmptyString => Raise IndexError
    | String c rest' =>
        while_taken sessions_out ses_label0 rest' (ses_label0 +:+ String c EmptyString)
    end
  else Ok ses_label.

(** One turn of [for ses in sub_container.sessions.iter()]. *)
Definition subject_step (pf : platform) (sub_dir : string) (dry_run : bool)
           (sessions_out : dict (string * string)) (ses : session)
  : M disk (dict (string * string)) :=
  let* r := download_session pf ses sub_dir dry_run in
  let '(ses_label0, ses_dir, ses_id) := r in
  let* ses_label := lift (while_taken sessions_out ses_label0 alc ses_label0) in
  ret (dict_set ses_label (ses_dir, ses_id) sessions_out).

Fixpoint subject_loop (pf : platform) (sub_dir : string) (dry_run : bool)
         (sessions_out : dict (string * string)) (l : list session)
  : M disk (dict (string * string)) :=
  match l with
  | [] => ret sessions_out
  | ses :: l' =>
      let* out := subject_step pf sub_dir dry_run sessions_out ses in
      subject_loop pf sub_dir dry_run out l'
  end.

Definition download_subject (pf : platform) (sub_container : subject)
           (proj_dir : string) (dry_run : bool)
  : M disk (string * dict (string * string)) :=
  let sub_label := make_subject_label sub_container in
  let sub_dir := join proj_dir sub_label in
  let* sessions_out :=
    subject_loop pf sub_dir dry_run [] (sub_sessions sub_container) in
  ret (sub_label, sessions_out).

End Parser.

(** ** [options/test_options.py]: output name and option object *)

Module Options.

(** *** [Path.glob] with a one-segment pattern *)

(** A pattern is a sequence of literals, [?] and [*]; bracket classes
    are not needed by any pattern of the source. Matching is
    case-sensitive (POSIX) and [*] also matches a leading dot, as
    [pathlib] does. *)
Inductive tok : Type := Star | Any | Lit (c : ascii).

Fixpoint compile (pat : string) : list tok :=
  match pat with
  | EmptyString => []
  | String c pat' =>
      (if Ascii.eqb c "*" then Star
       else if Ascii.eqb c "?" then Any else Lit c) :: compile pat'
  end.

(** [star m s]: some tail of [s] is accepted by [m]; this is how a [*]
    followed by the rest of the pattern matches. *)
Fixpoint star (m : string -> bool) (s : string) : bool :=
  m s ||
  match s with
  | String _ s' => star m s'
  | EmptyString => false
  end.

Fixpoint matches (p : list tok) (s : string) : bool :=
  match p with
  | [] => match s with EmptyString => true | String _ _ => false end
  | Lit c :: p' =>
      match s with
      | String a s' => Ascii.eqb a c && matches p' s'
      | EmptyString => false
      end
  | Any :: p' =>
      match s with
      | String _ s' => matches p' s'
      | EmptyString => false
      end
  | Star :: p' => star (matches p') s
  end.

(** [list(in_dir.glob(pat))], as entry names, in the order in which
    the directory lists them. [ls in_dir] is that listing (empty for a
    directory that does not exist). *)
Definition glob (ls : string -> list string) (in_dir pat : string) : list string :=
  filter (fun n => Is_true (matches (compile pat) n)) (ls in_dir).

(** *** [get_gambas_basename] *)

Definition get_gambas_basename (ls : string -> list string)
           (in_dir which_model : string) : result string :=
  let nii_files := glob ls in_dir "*.nii.gz" in
  match nii_files with
  | [] => Raise (FileNotFoundError "No NIfTI files found in the anat directory.")
  | original_file :: _ =>
      let base := original_file in
      let suffix :=
        if String.eqb which_model "GAMBAS"
        then "_gambas.nii.gz" else "_ResCNN.nii.gz" in
      if endswith base ".nii.gz"
      then Ok (replace ".nii.gz" suffix base)
      else Raise (ValueError "Unsupported file type")
  end.

(** *** Calls with keyword arguments *)

(** The values passed at the call site of [TestOptions]. *)
Inductive pyval : Type :=
| PStr (s : string)
| PDict (d : dict string).

(** [str(v)] as an f-string inserts it; the text of a dict is not
    needed and is left as a placeholder. *)
Definition fmt (v : pyval) : string :=
  match v with
  | PStr s => s
  | PDict _ => "{...}"
  end.

(** [v == s] for a string literal [s] *)
Definition is_str (v : pyval) (s : string) : bool :=
  match v with
  | PStr s' => String.eqb s' s
  | PDict _ => false
  end.

(** Python's binding of a call made with keywords only to a function
    whose parameters (after [self]) are [params], none with a default,
    and which takes no catch-all keyword dictionary: a keyword that names no parameter is a
    TypeError, and so is a parameter left without a value. *)
Definition bind_keywords (fn : string) (params : list string)
           (kwargs : dict pyval) : result (dict pyval) :=
  match find (fun kv => negb (str_in kv.1 params)) kwargs with
  | Some (k, _) =>
      Raise (TypeError (fn +:+ " got an unexpected keyword argument '" +:+ k +:+ "'"))
  | None =>
      match find (fun p => negb (dict_in p kwargs)) params with
      | Some p =>
          Raise (TypeError (fn +:+ " missing 1 required positional argument: '" +:+ p +:+ "'"))
      | None => Ok kwargs
      end
  end.

(** [d[k]] *)
Fixpoint getitem {V} (d : dict V) (k : string) : result V :=
  match d with
  | [] => Raise (KeyError k)
  | (k', v) :: d' => if String.eqb k k' then Ok v else getitem d' k
  end.

(** *** [class TestOptions] *)

(** The instance attributes set by [__init__]. *)
Record TestOptions : Type :=
  { which_model : pyval; config : pyval; sub : pyval; ses : pyval }.

(** [def __init__(self, which_model, config, sub, ses)] *)
Definition init_params : list string := ["which_model"; "config"; "sub"; "ses"].

(** A call of the class [TestOptions] with the keyword arguments
    [kwargs]: bind the keywords, then run the body of [__init__], which
    stores the four values. *)
Definition TestOptions_new (kwargs : dict pyval) : result TestOptions :=
  bind (bind_keywords "TestOptions.__init__()" init_params kwargs) (fun args =>
  bind (getitem args "which_model") (fun m =>
  bind (getitem args "config") (fun c =>
  bind (getitem args "sub") (fun su =>
  bind (getitem args "ses") (fun se =>
  Ok {| which_model := m; config := c; sub := su; ses := se |}))))).

(** *** [int(x)] for a string *)

Definition is_digit (c : ascii) : bool :=
  let n := nat_of_ascii c in ((48 <=? n) && (n <=? 57))%nat.

Definition digit_value (c : ascii) : Z := (Z.of_nat (nat_of_ascii c) - 48)%Z.

(** The white space that [int] skips at both ends of a string of code
    points below 256: TAB..CR, space, NEL (0x85) and NBSP (0xA0). *)
Definition int_space (c : ascii) : bool :=
  let n := nat_of_ascii c in
  (((9 <=? n) && (n <=? 13)) || (n =? 32) || (n =? 133) || (n =? 160))%nat.

Fixpoint lstrip (s : string) : string :=
  match s with
  | EmptyString => EmptyString
  | String c s' => if int_space c then lstrip s' else s
  end.

Fixpoint rstrip (s : string) : string :=
  match s with
  | EmptyString => EmptyString
  | String c s' =>
      match rstrip s' with
      | EmptyString => if int_space c then EmptyString else String c EmptyString
      | t => String c t
      end
  end.

(** Decimal digits, with single underscores allowed between two
    digits. [after_digit] tells whether the character before was a
    digit; [acc] is the value read so far. *)
Fixpoint digits (acc : Z) (after_digit : bool) (s : string) : option Z :=
  match s with
  | EmptyString => if after_digit then Some acc else None
  | String c s' =>
      if is_digit c then digits (acc * 10 + digit_value c)%Z true s'
      else if Ascii.eqb c "_" then
             if after_digit then digits acc false s' else None
      else None
  end.

(** [int(s)] in base 10: white space at both ends, one optional sign,
    then digits. (The limit that recent interpreters put on the number
    of digits is left out, and the message quotes the string as it is
    rather than its [repr].) *)
Definition int_of_str (s : string) : result Z :=
  let bad :=
    Raise (ValueError ("invalid literal for int() with base 10: '" +:+ s +:+ "'")) in
  match rstrip (lstrip s) with
  | EmptyString => bad
  | String c t' =>
      if Ascii.eqb c "-" then
        match digits 0 false t' with Some z => Ok (- z)%Z | None => bad end
      else if Ascii.eqb c "+" then
        match digits 0 false t' with Some z => Ok z | None => bad end
      else
        match digits 0 false (String c t') with Some z => Ok z | None => bad end
  end.

(** *** [initialize] *)

(** The components of a path between its slashes. *)
Fixpoint components (cur : string) (s : string) : list string :=
  match s with
  | EmptyString => [cur]
  | String c s' =>
      if Ascii.eqb c "/" then cur :: components EmptyString s'
      else components (cur +:+ String c EmptyString) s'
  end.

(** [str(Path(s))] on POSIX: empty components and components "." are
    dropped, and so is a slash at the end; the root is "/", or "//" for
    exactly two slashes at the start. *)
Definition Path (s : string) : string :=
  let parts :=
    List.filter (fun p => negb (String.eqb p EmptyString) && negb (String.eqb p "."))
                (components EmptyString s) in
  let root :=
    if startswith "//" s && negb (startswith "///" s) then "//"
    else if startswith "/" s then "/" else EmptyString in
  match parts with
  | [] => if String.eqb root EmptyString then "." else root
  | _ :: _ => root +:+ String.concat "/" parts
  end.

(** [self.config.get(key, default)]. The configuration is a dict in
    every call of the source; on a string the attribute lookup
    fails. *)
Definition config_get (c : pyval) (key default : string) : result string :=
  match c with
  | PDict d =>
      match getitem d key with
      | Ok v => Ok v
      | Raise _ => Ok default
      end
  | PStr _ => Raise (AttributeError "'str' object has no attribute 'get'")
  end.

(** [int(self.config.get(key, 32))]. The values of the configuration
    are strings here, so the conversion is that of a string; the
    default is the number itself. *)
Definition config_int (c : pyval) (key : string) : result Z :=
  match c with
  | PDict d =>
      match getitem d key with
      | Ok v => int_of_str v
      | Raise _ => Ok 32%Z
      end
  | PStr _ => Raise (AttributeError "'str' object has no attribute 'get'")
  end.

(** The defaults that [initialize] sets on the parser (those that come
    from [BaseOptions] alone are not listed). *)
Record defaults : Type :=
  { gpu_ids : string; name : string; netG : string;
    input_dir : string; output_dir : string;
    image : string; reference : string; result_sr : string;
    phase : string; which_epoch : string;
    stride_inplane : Z; stride_layer : Z; model : string }.

(** What [initialize] meets outside the instance: whether
    [BaseOptions.initialize], which is not part of the sources, raises
    ([base_error]; when it returns, the parser it gives back is taken
    to accept the options added here); whether
    [output_path.mkdir(parents=True, exist_ok=True)] raises; and the
    listing of directories, which gives entry names as a directory has
    them (not empty, without a slash). *)
Record surroundings : Type :=
  { base_error : option exn;
    mkdir_error : string -> option exn;
    ls : string -> list string }.

Definition check (e : option exn) : result unit :=
  match e with
  | Some e => Raise e
  | None => Ok tt
  end.

Definition initialize (env : surroundings) (self : TestOptions) : result defaults :=
  bind (check (base_error env)) (fun _ =>
  let gpu_index := if is_str (which_model self) "GAMBAS" then "0" else "-1" in
  let gpu_setting := if is_str (which_model self) "GAMBAS" then "gpu" else "cpu" in
  let netG := if is_str (which_model self) "GAMBAS" then "i2i_mamba" else "res_cnn" in
  let in_dir := Path ("/flywheel/v0/work/rawdata/sub-" +:+ fmt (sub self)
                      +:+ "/ses-" +:+ fmt (ses self) +:+ "/anat") in
  let output_path := Path ("/flywheel/v0/work/derivatives/sub-" +:+ fmt (sub self)
                           +:+ "/ses-" +:+ fmt (ses self) +:+ "/anat") in
  bind (check (mkdir_error env output_path)) (fun _ =>
  let m := fmt (which_model self) in
  bind (get_gambas_basename (ls env) in_dir m) (fun output_label =>
  let input_files := glob (ls env) in_dir "*.nii.gz" in
  match input_files with
  | [] => Raise (FileNotFoundError "No NIfTI image found in the input directory.")
  | first :: _ =>
      bind (config_get (config self) "phase" "test") (fun phase =>
      bind (config_get (config self) "which_epoch" "latest") (fun which_epoch =>
      bind (config_int (config self) "stride_inplane") (fun stride_inplane =>
      bind (config_int (config self) "stride_layer") (fun stride_layer =>
      Ok {| gpu_ids := gpu_index; name := gpu_setting; netG := netG;
            input_dir := in_dir; output_dir := output_path;
            image := join in_dir first;
            reference := "/flywheel/v0/app/TemplateKhula.nii";
            result_sr := join output_path output_label;
            phase := phase; which_epoch := which_epoch;
            stride_inplane := stride_inplane; stride_layer := stride_layer;
            model := "test" |}))))
  end))).

End Options.

(** ** [run.py]: the unit processor and the run supervisor *)

Module Run.

(** *** The [logging] module, as far as [run.py] uses it *)

Inductive level : Type := DEBUG | INFO | WARNING | ERROR.

Definition levelno (l : level) : nat :=
  match l with DEBUG => 10 | INFO => 20 | WARNING => 30 | ERROR => 40 end.

(** A log record as (level name, message); the time stamp that the
    formatter puts in front is left out. *)
Definition record : Type := level * string.

(** A handler attached to the root logger: its identity, its level
    and what its stream has received so far. *)
Record handler : Type :=
  { h_id : nat; h_level : level; h_stream : list record }.

(** *** The world [run.py] acts on *)

Inductive content : Type :=
| Data
| Log (lines : list record).

(** An analysis container of the platform: the session it hangs
    under, its label, its info mapping and the files uploaded to it. *)
Record analysis : Type :=
  { a_session : string; a_label : string;
    a_info : dict string; a_files : list string }.

Record world : Type :=
  { fs : gmap string content;
    root_level : level;
    handlers : list handler;
    analyses : list analysis }.

Definition set_fs (g : gmap string content) (x : world) : world :=
  {| fs := g; root_level := root_level x;
     handlers := handlers x; analyses := analyses x |}.

Definition set_handlers (hs : list handler) (x : world) : world :=
  {| fs := fs x; root_level := root_level x;
     handlers := hs; analyses := analyses x |}.

Definition set_analyses (l : list analysis) (x : world) : world :=
  {| fs := fs x; root_level := root_level x;
     handlers := handlers x; analyses := l |}.

(** [Handler.handle]: a handler keeps a record at or above its level. *)
Definition handle (r : record) (h : handler) : handler :=
  if (levelno (h_level h) <=? levelno r.1)%nat
  then {| h_id := h_id h; h_level := h_level h;
          h_stream := (h_stream h ++ [r])%list |}
  else h.

(** [logging.info], [logging.warning], [logging.error]: a record the
    root logger is enabled for goes to every attached handler. *)
Definition emit (r : record) (x : world) : world :=
  if (levelno (root_level x) <=? levelno r.1)%nat
  then set_handlers (map (handle r) (handlers x)) x
  else x.

(** [logger.addHandler(handler)] for a handler object just created:
    its identity differs from that of every attached handler. *)
Definition new_handler_id (x : world) : nat := fresh (map h_id (handlers x)).

Definition addHandler (h : handler) (x : world) : world :=
  set_handlers (handlers x ++ [h])%list x.

(** [logger.removeHandler(handler)] *)
Definition removeHandler (id : nat) (x : world) : world :=
  set_handlers (filter (fun h => h_id h ≠ id) (handlers x)) x.

(** [log_stream.getvalue()] *)
Definition getvalue (id : nat) (x : world) : list record :=
  match find (fun h => Nat.eqb (h_id h) id) (handlers x) with
  | Some h => h_stream h
  | None => []
  end.

(** *** Collaborators outside the three source files *)

Definition image_t : Type := string.
Definition model_t : Type := string.

(** The namespace returned by [parse()], of which [run.py] reads
    [image], [reference] and [result_sr] itself and hands the rest to
    [inference]. *)
Definition opt : Type := Options.defaults.

Record collab : Type :=
  { (** [gear_context.work_dir] *)
    work_dir : string;
    (** [datetime.now().strftime(...)] *)
    now : string;
    (** the records [utils.bids._logprint] sends to the root logger *)
    logprint : string -> list record;
    (** [parse_input_files(layout, sub, ses)]: the paths under the keys
        ['axi'], ['sag'] and ['cor'], or the exception raised *)
    parse_input_files : string -> string -> result (list string * list string * list string);
    (** [BaseOptions.parse] on an instance *)
    parse : Options.TestOptions -> result opt;
    (** [Registration(image, reference, sub, ses)]; [None] is the null
        sentinel *)
    Registration : string -> string -> string -> string -> result (option image_t);
    create_model : opt -> result model_t;
    setup : model_t -> opt -> result unit;
    (** [inference(model, input_image, opt.result_sr, ...)], the
        reading of the remaining arguments off [opt] included *)
    inference : model_t -> image_t -> opt -> result (option string);
    (** whether [open(path, 'w')] raises, and whether the write to the
        file just opened does *)
    open_error : string -> option exn;
    write_error : string -> option exn;
    (** whether [os.remove(path)] raises on a path that exists *)
    remove_error : string -> option exn }.

(** [os.remove(path)]: a path that does not exist is a
    FileNotFoundError; on one that exists the surroundings decide, and
    a failed removal leaves the file. *)
Definition remove (E : collab) (path : string) : M world unit :=
  fun x =>
    match fs x !! path with
    | Some _ =>
        match remove_error E path with
        | Some e => (Raise e, x)
        | None => (Ok tt, set_fs (delete path (fs x)) x)
        end
    | None => (Raise (FileNotFoundError path), x)
    end.

(** [with open(path, 'w') as f: f.write(lines)]: opening truncates the
    file; a write that raises leaves it empty. *)
Definition write_text (E : collab) (path : string) (lines : list record) : M world unit :=
  fun x =>
    match open_error E path with
    | Some e => (Raise e, x)
    | None =>
        match write_error E path with
        | Some e => (Raise e, set_fs (<[path := Log []]> (fs x)) x)
        | None => (Ok tt, set_fs (<[path := Log lines]> (fs x)) x)
        end
    end.

(** [str(e)] *)
Definition str_exn (e : exn) : string :=
  match e with
  | TypeError m | ValueError m | FileNotFoundError m | OSError m | RuntimeError m
  | AttributeError m => m
  | UnboundLocalError v =>
      "cannot access local variable '" +:+ v +:+ "' where it is not associated with a value"
  | IndexError => "string index out of range"
  | KeyError k => "'" +:+ k +:+ "'"
  end.

(** [if fname:] for what [inference] returned: [None] and the empty
    string are false. *)
Definition truthy (fname : option string) : bool :=
  match fname with
  | Some s => negb (String.eqb s "")
  | None => false
  end.

(** *** [fw_process_subject] *)

(** The local variables that the body may leave unbound, and the
    world. *)
Record frame : Type :=
  { w : world;
    raw_fnames : option (list string);
    deriv_fnames : option (list string);
    logs : list string }.

Definition in_world (f : world -> world) : M frame unit :=
  fun fr =>
    (Ok tt, {| w := f (w fr); raw_fnames := raw_fnames fr;
               deriv_fnames := deriv_fnames fr; logs := logs fr |}).

(** A computation on the world, run in a frame. *)
Definition lift_world {A} (m : M world A) : M frame A :=
  fun fr =>
    let '(r, x) := m (w fr) in
    (r, {| w := x; raw_fnames := raw_fnames fr;
           deriv_fnames := deriv_fnames fr; logs := logs fr |}).

Definition log_as (l : level) (msg : string) : M frame unit :=
  in_world (emit (l, msg)).

Definition gb_logprint (E : collab) (msg : string) : M frame unit :=
  in_world (fun x => fold_left (fun x r => emit r x) (logprint E msg) x).

Definition bind_raw (l : list string) : M frame unit :=
  fun fr =>
    (Ok tt, {| w := w fr; raw_fnames := Some l;
               deriv_fnames := deriv_fnames fr; logs := logs fr |}).

Definition bind_deriv (l : list string) : M frame unit :=
  fun fr =>
    (Ok tt, {| w := w fr; raw_fnames := raw_fnames fr;
               deriv_fnames := Some l; logs := logs fr |}).

(** [deriv_fnames.append(fname)] *)
Definition deriv_append (fname : string) : M frame unit :=
  fun fr =>
    match deriv_fnames fr with
    | Some l => bind_deriv (l ++ [fname])%list fr
    | None => (Raise (UnboundLocalError "deriv_fnames"), fr)
    end.

(** [logs.append(log_filename)] *)
Definition logs_append (p : string) : M frame unit :=
  fun fr =>
    (Ok tt, {| w := w fr; raw_fnames := raw_fnames fr;
               deriv_fnames := deriv_fnames fr; logs := (logs fr ++ [p])%list |}).

(** How one turn of the [for f in raw_fnames] loop leaves its [try]
    statement: by [continue], or by falling through with [fname]
    bound. *)
Inductive turn : Type :=
| Continue
| Through (fname : option string).

(** The statement [if fname: ... else: ...], which the loop body holds
    twice: at the end of the [try] block and again after the [try]
    statement. *)
Definition record_outcome (fname : option string) : M frame unit :=
  if truthy fname then
    deriv_append (default "" fname);;
    log_as INFO "Inference completed";;
    log_as INFO ("Output file: " +:+ default "" fname)
  else
    log_as ERROR "Inference failed";;
    log_as ERROR "No output file generated".

Section Processor.

(** [TestOptions(...).parse()]: the class called at the head of the
    loop body, applied to the keyword arguments of the call. *)
Variable make_options : dict Options.pyval -> result opt.
Variable E : collab.
Variables (sub ses which_model : string) (config : dict string).

(** The keyword arguments of the call [TestOptions(which_model=...,
    config=..., sub=..., ses=..., image=f)]. *)
Definition options_keywords (f : string) : dict Options.pyval :=
  [("which_model", Options.PStr which_model);
   ("config", Options.PDict config);
   ("sub", Options.PStr sub);
   ("ses", Options.PStr ses);
   ("image", Options.PStr f)].

Definition process_file (f : string) : M frame unit :=
  let* t :=
    try_except
      (gb_logprint E ("Input file: " +:+ f);;
       log_as INFO ("Setting up options for model " +:+ which_model);;
       let* o := lift (make_options (options_keywords f)) in
       log_as INFO ("Registering images for " +:+ sub +:+ "-" +:+ ses);;
       let* input_image :=
         lift (Registration E (Options.image o) (Options.reference o) sub ses) in
       match input_image with
       | None =>
           log_as WARNING ("Registration failed for subject " +:+ sub +:+ " session "
                           +:+ ses +:+ ". Skipping this iteration.");;
           ret Continue
       | Some img =>
           log_as INFO ("Creating model for " +:+ sub +:+ "-" +:+ ses);;
           let* model := lift (create_model E o) in
           lift (setup E model o);;
           log_as INFO ("Running inference for " +:+ sub +:+ "-" +:+ ses);;
           let* fname := lift (inference E model img o) in
           record_outcome fname;;
           ret (Through fname)
       end)
      (fun e =>
         log_as ERROR ("Error processing file " +:+ f +:+ " for subject " +:+ sub
                       +:+ " session " +:+ ses +:+ ": " +:+ str_exn e);;
         ret Continue) in
  match t with
  | Continue => ret tt
  | Through fname => record_outcome fname
  end.

(** The [try] block of the function with its [except Exception]. *)
Definition session_body : M frame unit :=
  try_except
    (log_as INFO ("Processing subject " +:+ sub +:+ " session " +:+ ses);;
     let* my_files := lift (parse_input_files E sub ses) in
     gb_logprint E ("Starting for " +:+ sub +:+ "-" +:+ ses);;
     let '(axi, sag, cor) := my_files in
     let all_t2 := (axi ++ sag ++ cor)%list in
     bind_deriv [];;
     bind_raw all_t2;;
     for_each process_file all_t2)
    (fun e =>
       log_as ERROR ("Error processing subject " +:+ sub +:+ " session " +:+ ses
                     +:+ ": " +:+ str_exn e)).

Definition log_filename : string :=
  join (work_dir E) ("sub-" +:+ sub +:+ "_ses-" +:+ ses +:+ "_log.txt").

(** The [finally] block: the log is written first; when that raises,
    the handler stays attached and [logs] is not extended. *)
Definition session_finally (id : nat) : M frame unit :=
  fun fr =>
    let log_contents := getvalue id (w fr) in
    (lift_world (write_text E log_filename log_contents);;
     in_world (removeHandler id);;
     logs_append log_filename) fr.

(** [return raw_fnames, deriv_fnames, logs]: reading a local that was
    never assigned raises UnboundLocalError. *)
Definition session_return : M frame (list string * list string * list string) :=
  fun fr =>
    match raw_fnames fr with
    | None => (Raise (UnboundLocalError "raw_fnames"), fr)
    | Some r =>
        match deriv_fnames fr with
        | None => (Raise (UnboundLocalError "deriv_fnames"), fr)
        | Some d => (Ok (r, d, logs fr), fr)
        end
    end.

(** The frame after the statements that precede the [try]: the
    handler is attached and [logs] is empty. *)
Definition session_frame (x : world) : nat * frame :=
  let id := new_handler_id x in
  (id,
   {| w := addHandler {| h_id := id; h_level := INFO; h_stream := [] |} x;
      raw_fnames := None; deriv_fnames := None; logs := [] |}).

Definition fw_process_subject_with
  : M world (list string * list string * list string) :=
  fun x =>
    let '(id, fr0) := session_frame x in
    let '(r, fr) :=
      (try_finally session_body (session_finally id);;
       session_return) fr0 in
    (r, w fr).

End Processor.

(** [TestOptions(which_model=..., config=..., sub=..., ses=...,
    image=f).parse()] with the class of [options/test_options.py]. *)
Definition TestOptions_parse (E : collab) (kwargs : dict Options.pyval) : result opt :=
  bind (Options.TestOptions_new kwargs) (parse E).

Definition fw_process_subject (E : collab) (sub ses which_model : string)
           (config : dict string)
  : M world (list string * list string * list string) :=
  fw_process_subject_with (TestOptions_parse E) E sub ses which_model config.

(** *** [main], from step 4 on *)

(** The three entries of the manifest that [main] reads. *)
Record manifest : Type :=
  { m_name : string; m_version : string; m_image : string }.

Definition gb_logprint_w (E : collab) (msg : string) : M world unit :=
  fun x => (Ok tt, fold_left (fun x r => emit r x) (logprint E msg) x).

(** [session_container.add_analysis(label=...)]: the new analysis is
    the last one of the platform. *)
Definition add_analysis (session label : string) : M world nat :=
  fun x =>
    (Ok (length (analyses x)),
     set_analyses (analyses x ++ [{| a_session := session; a_label := label;
                                     a_info := []; a_files := [] |}])%list x).

(** [analysis.update_info(info)] *)
Definition update_info (i : nat) (info : dict string) : M world unit :=
  fun x =>
    (Ok tt,
     set_analyses
       (alter (fun a => {| a_session := a_session a; a_label := a_label a;
                           a_info := fold_left (fun d kv => dict_set kv.1 kv.2 d) info (a_info a);
                           a_files := a_files a |}) i (analyses x)) x).

(** [analysis.upload_output(file)] *)
Definition upload_output (i : nat) (file : string) : M world unit :=
  fun x =>
    (Ok tt,
     set_analyses
       (alter (fun a => {| a_session := a_session a; a_label := a_label a;
                           a_info := a_info a;
                           a_files := (a_files a ++ [file])%list |}) i (analyses x)) x).

(** [not l] for a list *)
Definition is_empty {A} (l : list A) : bool :=
  match l with [] => true | _ :: _ => false end.

Section Supervisor.

(** [fw_process_subject(layout, sub, ses, which_model, config)] as
    called from the loop. *)
Variable process : string -> string -> M world (list string * list string * list string).
Variable E : collab.
Variables (config : dict string) (mf : manifest).

(** One turn of [for file_path in raw_fnames], the deletion of the raw
    files of a session without derivative. *)
Definition remove_raw (file_path : string) : M world unit :=
  try_except
    (remove E file_path;;
     gb_logprint_w E ("Deleted raw file: " +:+ file_path))
    (fun e =>
       gb_logprint_w E ("Error deleting " +:+ file_path +:+ ": " +:+ str_exn e)).

(** The body of the inner loop for one (sub, ses), where [session]
    is [subses[sub][ses]]. *)
Definition session_turn (sub ses session : string) : M world unit :=
  let* r := process sub ses in
  let '(raw_fnames, deriv_fnames, logs) := r in
  if is_empty raw_fnames then
    gb_logprint_w E ("[SKIPPING] No input files for " +:+ sub +:+ "/" +:+ ses +:+ ".")
  else if is_empty deriv_fnames then
    gb_logprint_w E ("[ERROR] Processing failed for " +:+ sub +:+ "/" +:+ ses
                     +:+ ": No derived output.");;
    for_each remove_raw raw_fnames
  else
    let out_files := (raw_fnames ++ deriv_fnames ++ logs)%list in
    let gversion := m_version mf in
    let gname := m_name mf in
    let gdate := now E in
    let image := m_image mf in
    let* analysis := add_analysis session (gname +:+ "/" +:+ gversion +:+ " " +:+ gdate) in
    update_info analysis
      ([("gear", gname); ("version", gversion); ("image", image); ("Date", gdate);
        ("status", if is_empty deriv_fnames then "failed" else "success");
        ("note", if is_empty deriv_fnames
                 then "No derived outputs, processing may have failed." else "")]
       ++ config)%list;;
    for_each
      (fun file =>
         gb_logprint_w E ("Uploading output file: " +:+ basename file);;
         upload_output analysis file)
      out_files.

(** The two nested loops over [subses]. *)
Definition main_with (subses : dict (dict string)) : M world unit :=
  for_each
    (fun s : string * dict string =>
       for_each (fun t : string * string => session_turn s.1 t.1 t.2) s.2)
    subses.

End Supervisor.

Definition main (E : collab) (which_model : string) (config : dict string)
           (mf : manifest) (subses : dict (dict string)) : M world unit :=
  main_with (fun sub ses => fw_process_subject E sub ses which_model config)
            E config mf subses.

End Run.

(** ** [utils/parser.py], continued: GPU detection, projects and the
    whole dataset *)

Module Dataset.

Import Parser.

(** [check_gpu]. [smi] is what [subprocess.run(["nvidia-smi"], ...)]
    did: it returned with a return code, or it raised. Only
    FileNotFoundError is caught. *)
Definition check_gpu (smi : result Z) : result bool :=
  match smi with
  | Ok returncode => Ok (Z.eqb returncode 0)
  | Raise (FileNotFoundError _) => Ok false
  | Raise e => Raise e
  end.

(** The model name that [parse_config] returns. *)
Definition parse_config_which_model (smi : result Z) : result string :=
  bind (check_gpu smi) (fun is_gpu => Ok (parse_config_model is_gpu)).

(** *** [download_project] *)

Record project : Type := { proj_label : string; proj_subjects : list subject }.

(** The loop [for sub in project.subjects.iter()], with the mapping
    built so far. *)
Fixpoint project_loop (pf : platform) (my_dir : string) (dry_run : bool)
         (subjects_out : dict (dict (string * string))) (l : list subject)
  : M disk (dict (dict (string * string))) :=
  match l with
  | [] => ret subjects_out
  | sub :: l' =>
      let* r := download_subject pf sub my_dir dry_run in
      let '(sub_lab, sessions_dict) := r in
      project_loop pf my_dir dry_run (dict_set sub_lab sessions_dict subjects_out) l'
  end.

Definition download_project (pf : platform) (p : project) (my_dir : string)
           (dry_run : bool) : M disk (string * dict (dict (string * string))) :=
  let proj_name := make_project_label (proj_label p) in
  let my_dir := join my_dir proj_name in
  let* subjects_out := project_loop pf my_dir dry_run [] (proj_subjects p) in
  ret (proj_name, subjects_out).

(** *** [download_dataset] *)

(** The two functions of [utils.bids] that [download_dataset] calls:
    whether each raises. *)
Record bids_tools : Type :=
  { setup_bids_directories_error : string -> option exn;
    import_dicom_folder_error : string -> string -> string -> option exn }.

(** The disk, and the calls of [import_dicom_folder] made so far, oldest
    first, as (dicom_dir, sub_name, ses_name). *)
Record site : Type :=
  { on_disk : disk; imported : list (string * string * string) }.

Definition with_disk {A} (m : M disk A) : M site A :=
  fun s =>
    let '(r, d) := m (on_disk s) in
    (r, {| on_disk := d; imported := imported s |}).

Definition setup_bids_directories (tools : bids_tools) (work_dir : string) : M site unit :=
  fun s =>
    match setup_bids_directories_error tools work_dir with
    | Some e => (Raise e, s)
    | None => (Ok tt, s)
    end.

Definition import_dicom_folder (tools : bids_tools) (dicom_dir sub_name ses_name : string)
  : M site unit :=
  fun s =>
    let called := (imported s ++ [(dicom_dir, sub_name, ses_name)])%list in
    (match import_dicom_folder_error tools dicom_dir sub_name ses_name with
     | Some e => Raise e
     | None => Ok tt
     end, {| on_disk := on_disk s; imported := called |}).

(** The container handed to the gear, with what the function reads of
    it: for a subject, also the label of its project; for a session,
    also the label of its project and its subject. *)
Inductive container : Type :=
| Project (p : project)
| Subject (project_label : string) (s : subject)
| Session (project_label : string) (parent : subject) (s : session)
| Other (container_type : string).

(** [for ses in sessions.keys(): import_dicom_folder(...);
    output[sub][ses] = sessions[ses]['id']], where [inner] is
    [output[sub]]. *)
Fixpoint sessions_loop (tools : bids_tools) (sub : string)
         (sessions : dict (string * string)) (ks : list string) (inner : dict string)
  : M site (dict string) :=
  match ks with
  | [] => ret inner
  | ses :: ks' =>
      let* v := lift (Options.getitem sessions ses) in
      import_dicom_folder tools v.1 sub ses;;
      sessions_loop tools sub sessions ks' (dict_set ses v.2 inner)
  end.

(** [for sub in subjects.keys(): output[sub] = {}; ...] *)
Fixpoint subjects_loop (tools : bids_tools) (subjects : dict (dict (string * string)))
         (ks : list string) (output : dict (dict string)) : M site (dict (dict string)) :=
  match ks with
  | [] => ret output
  | sub :: ks' =>
      let output := dict_set sub [] output in
      let* sessions := lift (Options.getitem subjects sub) in
      let* inner := sessions_loop tools sub sessions (keys sessions) [] in
      subjects_loop tools subjects ks' (dict_set sub inner output)
  end.

(** The function returns a mapping, or [None] when the container is
    neither a project, a subject nor a session. *)
Definition download_dataset (pf : platform) (tools : bids_tools) (c : container)
           (config : dict string) : M site (option (dict (dict string))) :=
  let* work_dir := lift (Options.getitem config "work_dir") in
  setup_bids_directories tools work_dir;;
  let* bids_config_file := lift (Options.getitem config "bids_config_file") in
  let source_data_dir := join work_dir "sourcedata" in
  with_disk (makedirs pf source_data_dir);;
  match c with
  | Project p =>
      let* r := with_disk (download_project pf p source_data_dir false) in
      let '(proj_label, subjects) := r in
      let* output := subjects_loop tools subjects (keys subjects) [] in
      ret (Some output)
  | Subject proj_label s =>
      let source_data_dir := join source_data_dir proj_label in
      let* r := with_disk (download_subject pf s source_data_dir false) in
      let '(sub_label, sessions) := r in
      let output := [(sub_label, [])] in
      let* inner := sessions_loop tools sub_label sessions (keys sessions) [] in
      ret (Some (dict_set sub_label inner output))
  | Session proj_label parent s =>
      let sub_label := make_subject_label parent in
      let source_data_dir := join (join source_data_dir proj_label) sub_label in
      let* r := with_disk (download_session pf s source_data_dir false) in
      let '(ses_label, ses_dir, ses_id) := r in
      import_dicom_folder tools ses_dir sub_label ses_label;;
      ret (Some [(sub_label, [(ses_label, ses_id)])])
  | Other _ => ret None
  end.

(** *** [parse_config] *)

(** The function reads four things from outside: the run of
    nvidia-smi ([smi]), the container that the two client calls give
    ([container], the parent of the destination analysis), and the two
    files config.json and manifest.json. Of config.json the function
    reads the entries [inputs] and [config], each an object. *)
Definition parse_config {C Mf : Type} (smi : result Z) (container : result C)
           (config_json : result (dict (dict string))) (manifest_json : result Mf)
  : result (C * dict string * Mf * string) :=
  bind (check_gpu smi) (fun is_gpu =>
  let model := parse_config_model is_gpu in
  let base_dir := "/flywheel/v0" in
  let input_dir := base_dir +:+ "/input/" in
  let work_dir := base_dir +:+ "/work/" in
  let output_dir := base_dir +:+ "/output/" in
  bind container (fun container =>
  bind config_json (fun config =>
  bind manifest_json (fun manifest =>
  bind (Options.getitem config "inputs") (fun inputs =>
  bind (Options.getitem config "config") (fun config =>
  let config := dict_set "input_dir" input_dir config in
  let config := dict_set "work_dir" work_dir config in
  let config := dict_set "output_dir" output_dir config in
  let config :=
    dict_set "bids_config_file" (base_dir +:+ "/utils/dcm2bids_config.json") config in
  Ok (container, config, manifest, model))))))).

End Dataset.

(** * Vocabulary of the properties, and the inputs they are tried on *)

(** ** Strings *)

(** [p] occurs in [s] as a contiguous run of characters. *)
Definition Substring (p s : string) : Prop := exists u v, s = u +:+ p +:+ v.

(** [s] ends with [suf]. *)
Definition Suffix (suf s : string) : Prop := exists u, s = u +:+ suf.

(** ** The import *)

(** A file that passes the inclusion filter, and one that the exclusion
    list rejects. *)
Definition t2_axial : Parser.file :=
  {| Parser.f_name := "sub-01_T2w_AXI.nii.gz"; Parser.f_type := "nifti" |}.

Definition t2_axial_brain : Parser.file :=
  {| Parser.f_name := "sub-01_T2w_axi_Brain.nii.gz"; Parser.f_type := "nifti" |}.

(** A platform on which no directory creation and no download fails. *)
Definition quiet_platform : Parser.platform :=
  {| Parser.makedirs_error := fun _ => None;
     Parser.download_error := fun _ _ => None |}.

Definition empty_disk : Parser.disk := {| Parser.paths := ∅; Parser.fetched := [] |}.

(** A disk that already holds the target path of [t2_axial] under
    /w/P01/Visit1. *)
Definition disk_with_target : Parser.disk :=
  {| Parser.paths := {[ "/w/P01/Visit1/sub-01_T2w_AXI.nii.gz" ]}; Parser.fetched := [] |}.

(** Every file of [l] that passes the filter has its target path under
    [dir] on the disk. *)
Definition settled (dir : string) (l : list Parser.file) (d : Parser.disk) : Prop :=
  forall f, f ∈ l -> Parser.do_download f = true ->
            join dir (Parser.f_name f) ∈ Parser.paths d.

(** The files of a session in the order in which [download_session]
    visits them. *)
Definition session_files (ses : Parser.session) : list Parser.file :=
  concat (map Parser.acq_files (Parser.ses_acquisitions ses)).

(** ** Session labels *)

(** The names that the loop of [download_subject] tries for a session
    whose sanitized label is [L]: [L] itself, then [L] followed by one
    letter, 'a' first. *)
Definition suffixed (L letters : string) : list string :=
  map (fun c => L +:+ String c "") (list_ascii_of_string letters).

Definition candidates (L : string) : list string := L :: suffixed L Parser.alc.

(** The first candidate that is free, or IndexError when none is. *)
Definition first_free (taken : list string) (cands : list string) : result string :=
  match find (fun x => negb (str_in x taken)) cands with
  | Some x => Ok x
  | None => Raise IndexError
  end.

(** Label resolution as the specification words it: the sanitized labels
    are taken in encounter order and each receives its first free
    candidate. [taken] lists the names given so far, oldest first. *)
Fixpoint resolve_from (taken : list string) (labels : list string)
  : result (list string) :=
  match labels with
  | [] => Ok taken
  | L :: rest =>
      match first_free taken (candidates L) with
      | Ok x => resolve_from (taken ++ [x]) rest
      | Raise e => Raise e
      end
  end.

(** The keys of the mapping that [download_subject] returns. *)
Definition session_labels (pf : Parser.platform) (sub : Parser.subject)
           (proj_dir : string) (dry_run : bool) (d : Parser.disk)
  : result (list string) :=
  match (Parser.download_subject pf sub proj_dir dry_run d).1 with
  | Ok (_, sessions_out) => Ok (keys sessions_out)
  | Raise e => Raise e
  end.

(** A session with the raw label [l] and one acquisition, and subjects
    with two sessions that do not collide, three that do, and
    twenty-eight that do. *)
Definition session_named (l : string) : Parser.session :=
  {| Parser.ses_label := l; Parser.ses_id := "id:" +:+ l;
     Parser.ses_acquisitions := [{| Parser.acq_files := [t2_axial] |}] |}.

Definition visit_subject : Parser.subject :=
  {| Parser.sub_label := "P-01";
     Parser.sub_sessions := [session_named "Visit 1"; session_named "Visit-1"] |}.

Definition twin_subject : Parser.subject :=
  {| Parser.sub_label := "P-01";
     Parser.sub_sessions :=
       [session_named "Visit-1"; session_named "Visit_1"; session_named "Visit1 again"] |}.


(** ** The output name *)

(** A pattern without wildcards. *)
Fixpoint plain (p : string) : bool :=
  match p with
  | EmptyString => true
  | String c p' => negb (Ascii.eqb c "*") && negb (Ascii.eqb c "?") && plain p'
  end.

(** ** The unit processor *)

(** [x'] is [x] after some records were logged: the files, the level of
    the root logger, the analyses and the identities of the attached
    handlers are the same. *)
Definition only_logged (x x' : Run.world) : Prop :=
  Run.fs x' = Run.fs x
  /\ Run.root_level x' = Run.root_level x
  /\ Run.analyses x' = Run.analyses x
  /\ map Run.h_id (Run.handlers x') = map Run.h_id (Run.handlers x).

(** [fr'] is [fr] after some turns of the loop over the candidates:
    records were logged and derivative paths were appended. *)
Definition extends (fr fr' : Run.frame) : Prop :=
  only_logged (Run.w fr) (Run.w fr')
  /\ Run.raw_fnames fr' = Run.raw_fnames fr
  /\ Run.logs fr' = Run.logs fr
  /\ exists added,
      Run.deriv_fnames fr' = (fun d => d ++ added)%list <$> Run.deriv_fnames fr.

(** A computation that only logs and appends derivative paths, whether
    it returns or raises. *)
Definition gentle {A} (m : M Run.frame A) : Prop :=
  forall fr, extends fr (m fr).2.

(** A gentle computation that returns whenever [deriv_fnames] is
    bound. *)
Definition calm {A} (m : M Run.frame A) : Prop :=
  forall fr, extends fr (m fr).2
             /\ (is_Some (Run.deriv_fnames fr) -> exists a, (m fr).1 = Ok a).

(** A candidate is passed over when the options cannot be set up for
    it, or when registration returns the null sentinel for it. *)
Definition skips (mk : dict Options.pyval -> result Run.opt) (E : Run.collab)
           (sub ses which_model : string) (config : dict string) (f : string) : Prop :=
  (exists e, mk (Run.options_keywords sub ses which_model config f) = Raise e)
  \/ (exists o, mk (Run.options_keywords sub ses which_model config f) = Ok o
                /\ Run.Registration E (Options.image o) (Options.reference o) sub ses
                   = Ok None).

(** The frame [fr] with its world replaced by [x]. *)
Definition with_world (x : Run.world) (fr : Run.frame) : Run.frame :=
  {| Run.w := x; Run.raw_fnames := Run.raw_fnames fr;
     Run.deriv_fnames := Run.deriv_fnames fr; Run.logs := Run.logs fr |}.

(** The exception that writing the log file [path] ends with, if
    any: that of opening it, or else that of the write. *)
Definition log_failure (E : Run.collab) (path : string) : option exn :=
  match Run.open_error E path with
  | Some e => Some e
  | None => Run.write_error E path
  end.

(** ** Scenario A and its variants *)

(** The paths of scenario A: the anatomical input directory of sub-01,
    ses-1, its one candidate, the derivative expected for it and the
    log file of the session. *)
Definition anat_dir : string := "/flywheel/v0/work/rawdata/sub-01/ses-1/anat".

Definition raw_A : string := anat_dir +:+ "/sub-01_ses-1_T2w_axi.nii.gz".

Definition derivative_A : string :=
  "/flywheel/v0/work/derivatives/sub-01/ses-1/anat/sub-01_ses-1_T2w_axi_gambas.nii.gz".

Definition log_A : string := "/flywheel/v0/work/sub-01_ses-1_log.txt".

(** The input directory holds the one candidate. *)
Definition ls_A (d : string) : list string :=
  if String.eqb d anat_dir then ["sub-01_ses-1_T2w_axi.nii.gz"] else [].

(** Nothing fails around [initialize]. *)
Definition surroundings_A : Options.surroundings :=
  {| Options.base_error := None;
     Options.mkdir_error := fun _ => None;
     Options.ls := ls_A |}.

(** Discovery finds the candidate as an axial image; registration and
    inference succeed, and inference writes to the result path of the
    options. *)
Definition env_A : Run.collab :=
  {| Run.work_dir := "/flywheel/v0/work/";
     Run.now := "20260003_10:00:00";
     Run.logprint := fun msg => [(Run.INFO, msg)];
     Run.parse_input_files := fun _ _ => Ok ([raw_A], [], []);
     Run.parse := Options.initialize surroundings_A;
     Run.Registration := fun _ _ _ _ => Ok (Some "registered");
     Run.create_model := fun _ => Ok "model";
     Run.setup := fun _ _ => Ok tt;
     Run.inference := fun _ _ o => Ok (Some (Options.result_sr o));
     Run.open_error := fun _ => None;
     Run.write_error := fun _ => None;
     Run.remove_error := fun _ => None |}.


(** As A, but candidate discovery raises. *)
Definition env_lost : Run.collab :=
  {| Run.work_dir := Run.work_dir env_A;
     Run.now := Run.now env_A;
     Run.logprint := Run.logprint env_A;
     Run.parse_input_files := fun _ _ => Raise (RuntimeError "layout query failed");
     Run.parse := Run.parse env_A;
     Run.Registration := Run.Registration env_A;
     Run.create_model := Run.create_model env_A;
     Run.setup := Run.setup env_A;
     Run.inference := Run.inference env_A;
     Run.open_error := Run.open_error env_A;
     Run.write_error := Run.write_error env_A;
     Run.remove_error := Run.remove_error env_A |}.

(** As A, but no file can be opened for writing; and as A, but no file
    can be removed. *)
Definition env_readonly : Run.collab :=
  {| Run.work_dir := Run.work_dir env_A;
     Run.now := Run.now env_A;
     Run.logprint := Run.logprint env_A;
     Run.parse_input_files := Run.parse_input_files env_A;
     Run.parse := Run.parse env_A;
     Run.Registration := Run.Registration env_A;
     Run.create_model := Run.create_model env_A;
     Run.setup := Run.setup env_A;
     Run.inference := Run.inference env_A;
     Run.open_error := fun _ => Some (OSError "Read-only file system");
     Run.write_error := Run.write_error env_A;
     Run.remove_error := Run.remove_error env_A |}.

Definition env_locked : Run.collab :=
  {| Run.work_dir := Run.work_dir env_A;
     Run.now := Run.now env_A;
     Run.logprint := Run.logprint env_A;
     Run.parse_input_files := Run.parse_input_files env_A;
     Run.parse := Run.parse env_A;
     Run.Registration := Run.Registration env_A;
     Run.create_model := Run.create_model env_A;
     Run.setup := Run.setup env_A;
     Run.inference := Run.inference env_A;
     Run.open_error := Run.open_error env_A;
     Run.write_error := Run.write_error env_A;
     Run.remove_error := fun _ => Some (OSError "Permission denied") |}.

(** The raw file is on disk and the gear's own handler is attached. *)
Definition world_A : Run.world :=
  {| Run.fs := {[ raw_A := Run.Data ]};
     Run.root_level := Run.INFO;
     Run.handlers := [{| Run.h_id := 0; Run.h_level := Run.DEBUG; Run.h_stream := [] |}];
     Run.analyses := [] |}.

(** The identity of the gear as its manifest gives it. *)
Definition manifest_A : Run.manifest :=
  {| Run.m_name := "gambas"; Run.m_version := "0.4.1"; Run.m_image := "gambas:0.4.1" |}.

(** A class like [TestOptions] whose [__init__] also has a parameter
    [image]. It is not the class of the source; it shows what the loop
    does once the options can be set up. *)
Definition options_with_image (E : Run.collab) (kwargs : dict Options.pyval)
  : result Run.opt :=
  bind (Options.bind_keywords "TestOptions.__init__()"
          (Options.init_params ++ ["image"])%list kwargs)
       (fun args =>
          bind (Options.TestOptions_new (filter (fun kv => kv.1 ≠ "image") args))
               (Run.parse E)).

(** ** Characters of labels *)

(** [c] is one of the characters of [s]. *)
Definition occurs (c : ascii) (s : string) : Prop := In c (list_ascii_of_string s).

(** [s] without the characters equal to [c]. *)
Fixpoint without (c : ascii) (s : string) : string :=
  match s with
  | EmptyString => EmptyString
  | String a s' => if Ascii.eqb c a then without c s' else String a (without c s')
  end.

(** [s] with every [c] turned into [d]. *)
Fixpoint turned (c d : ascii) (s : string) : string :=
  match s with
  | EmptyString => EmptyString
  | String a s' => String (if Ascii.eqb c a then d else a) (turned c d s')
  end.

(** Every character of [s] is white space. *)
Definition blank (s : string) : Prop := forall c, occurs c s -> isspace c = true.

(** The longest prefix of [s] without white space. *)
Fixpoint token (s : string) : string :=
  match s with
  | EmptyString => EmptyString
  | String c s' => if isspace c then EmptyString else String c (token s')
  end.

(** The first maximal run of characters of [s] that are not white
    space, or the empty string when there is none. *)
Fixpoint first_token (s : string) : string :=
  match s with
  | EmptyString => EmptyString
  | String c s' => if isspace c then first_token s' else String c (token s')
  end.

(** ** Names by count *)

(** The number of labels equal to [L] among [l]. *)
Definition occurrences (L : string) (l : list string) : nat :=
  length (filter (fun x => x = L) l).

(** The name by count: the label alone for the first session that has
    it, then the label followed by 'a', by 'b', and so on. *)
Definition nth_name (L : string) (k : nat) : string := nth k (candidates L) L.

(** The names by count of the labels [labels], met after the labels
    [seen]. *)
Fixpoint numbered (seen labels : list string) : list string :=
  match labels with
  | [] => []
  | L :: rest => nth_name L (occurrences L seen) :: numbered (seen ++ [L]) rest
  end.

(** No label is another label, or itself, followed by one lowercase
    letter. *)
Definition separate (labels : list string) : Prop :=
  forall L L' c, L ∈ labels -> L' ∈ labels -> occurs c Parser.alc ->
                 L' <> L +:+ String c "".

(** Three sessions of which the last two sanitize to one label, and
    three of which the first is named like a suffixed label. *)
Definition mixed_subject : Parser.subject :=
  {| Parser.sub_label := "P-01";
     Parser.sub_sessions :=
       [session_named "Baseline"; session_named "Visit-1"; session_named "Visit_1"] |}.

Definition interfering_subject : Parser.subject :=
  {| Parser.sub_label := "P-01";
     Parser.sub_sessions :=
       [session_named "Visit1a"; session_named "Visit-1"; session_named "Visit_1"] |}.

(** ** Downloads *)

(** The recorded download [np] is that of a file of [files] that passes
    the filter, to its target path under [dir]. *)
Definition fetch_of (dir : string) (files : list Parser.file) (np : string * string) : Prop :=
  exists f, f ∈ files /\ Parser.do_download f = true
            /\ np = (Parser.f_name f, join dir (Parser.f_name f)).

(** One turn of the loop over the files of a session. *)
Definition file_turn (pf : Parser.platform) (dir : string) (dry_run : bool)
           (f : Parser.file) : M Parser.disk unit :=
  bindM (Parser.download_file pf f dir dry_run) (fun _ => ret tt).

(** A session whose two acquisitions list the same file. *)
Definition two_acquisitions : Parser.session :=
  {| Parser.ses_label := "Visit 1"; Parser.ses_id := "s1";
     Parser.ses_acquisitions :=
       [{| Parser.acq_files := [t2_axial; t2_axial_brain] |};
        {| Parser.acq_files := [t2_axial] |}] |}.

(** ** The session mapping *)

(** [kv] is the entry of the session [s] in the mapping returned for a
    subject whose directory is [sub_dir]: the key is the sanitized
    label of [s], alone or followed by one lowercase letter; the folder
    is named by the sanitized label alone. *)
Definition entry_of (sub_dir : string) (s : Parser.session)
           (kv : string * (string * string)) : Prop :=
  exists L, Parser.make_session_label s = Ok L
            /\ (kv.1 = L \/ exists c, occurs c Parser.alc /\ kv.1 = L +:+ String c "")
            /\ kv.2 = (join sub_dir L, Parser.ses_id s).

(** ** Projects *)

(** Two subjects whose labels both sanitize to P01, with one session
    each. *)
Definition subject_named (l : string) (ses : string) : Parser.subject :=
  {| Parser.sub_label := l; Parser.sub_sessions := [session_named ses] |}.

Definition twin_project : Dataset.project :=
  {| Dataset.proj_label := "My-Study 1";
     Dataset.proj_subjects := [subject_named "P-01" "Baseline"; subject_named "P 01" "Followup"] |}.

(** ** The dataset *)

(** What [download_dataset] keeps of a session mapping: the identifier
    under each resolved label. *)
Definition session_ids (sessions : dict (string * string)) : dict string :=
  map (fun kv => (kv.1, kv.2.2)) sessions.

(** The calls of [import_dicom_folder] for the sessions of the subject
    [sub]: one per entry, with the folder of the entry. *)
Definition import_calls (sub : string) (sessions : dict (string * string))
  : list (string * string * string) :=
  map (fun kv => (kv.2.1, sub, kv.1)) sessions.

(** The site after the sourcedata directory was created under
    [work_dir]. *)
Definition prepared (pf : Parser.platform) (work_dir : string) (st : Dataset.site)
  : Parser.disk :=
  (Parser.makedirs pf (join work_dir "sourcedata") (Dataset.on_disk st)).2.

(** A configuration as [parse_config] leaves it, a site with nothing on
    it, and tools that do not fail. *)
Definition gear_config : dict string :=
  [("work_dir", "/flywheel/v0/work/");
   ("bids_config_file", "/flywheel/v0/utils/dcm2bids_config.json")].

Definition empty_site : Dataset.site :=
  {| Dataset.on_disk := empty_disk; Dataset.imported := [] |}.

Definition quiet_tools : Dataset.bids_tools :=
  {| Dataset.setup_bids_directories_error := fun _ => None;
     Dataset.import_dicom_folder_error := fun _ _ _ => None |}.

(** The same for the mapping of a whole project. *)
Definition subject_ids (subjects : dict (dict (string * string))) : dict (dict string) :=
  map (fun sv => (sv.1, session_ids sv.2)) subjects.

Definition project_import_calls (subjects : dict (dict (string * string)))
  : list (string * string * string) :=
  concat (map (fun sv => import_calls sv.1 sv.2) subjects).

(** ** Options *)

(** The keywords of a call are exactly the parameters of
    [TestOptions.__init__]. *)
Definition names_parameters (kwargs : dict Options.pyval) : Prop :=
  forall k, k ∈ keys kwargs <-> k ∈ Options.init_params.

(** The two directories that [initialize] builds for a subject and a
    session. *)
Definition rawdata_anat (sub ses : string) : string :=
  Options.Path ("/flywheel/v0/work/rawdata/sub-" +:+ sub +:+ "/ses-" +:+ ses +:+ "/anat").

Definition derivatives_anat (sub ses : string) : string :=
  Options.Path ("/flywheel/v0/work/derivatives/sub-" +:+ sub +:+ "/ses-" +:+ ses
                +:+ "/anat").

(** The settings that go with a device. *)
Definition on_gpu (d : Options.defaults) : Prop :=
  Options.gpu_ids d = "0" /\ Options.name d = "gpu" /\ Options.netG d = "i2i_mamba"
  /\ Suffix "_gambas.nii.gz" (Options.result_sr d).

Definition on_cpu (d : Options.defaults) : Prop :=
  Options.gpu_ids d = "-1" /\ Options.name d = "cpu" /\ Options.netG d = "res_cnn"
  /\ Suffix "_ResCNN.nii.gz" (Options.result_sr d).

(** ** Candidates that run through *)

(** The candidate [f] runs through the whole loop body: the options
    are set up, registration gives an image, the model is created and
    set up, and [inference] returns [out]. *)
Definition runs (mk : dict Options.pyval -> result Run.opt) (E : Run.collab)
           (sub ses which_model : string) (config : dict string)
           (f : string) (out : option string) : Prop :=
  exists o img model,
    mk (Run.options_keywords sub ses which_model config f) = Ok o
    /\ Run.Registration E (Options.image o) (Options.reference o) sub ses = Ok (Some img)
    /\ Run.create_model E o = Ok model
    /\ Run.setup E model o = Ok tt
    /\ Run.inference E model img o = Ok out.

(** What one candidate adds to [deriv_fnames] when [inference] returned
    [out] for it. *)
Definition listed (out : option string) : list string :=
  if Run.truthy out then [default "" out; default "" out] else [].

(** ** Published sessions *)

(** The value that the last entry of [l] with the key [k] gives it. *)
Fixpoint last_value (l : dict string) (k : string) : option string :=
  match l with
  | [] => None
  | (k', v) :: l' =>
      match last_value l' k with
      | Some v' => Some v'
      | None => if String.eqb k k' then Some v else None
      end
  end.

(** The analysis [a] is the record of a session: it hangs under
    [session], is labelled by the gear name, version and date, holds
    [files] in this order, and its info gives every key of the
    configuration the value of the configuration, and the keys status
    and note, where the configuration does not set them, the values
    for a success. *)
Definition records (E : Run.collab) (mf : Run.manifest) (config : dict string)
           (session : string) (files : list string) (a : Run.analysis) : Prop :=
  Run.a_session a = session
  /\ Run.a_label a = Run.m_name mf +:+ "/" +:+ Run.m_version mf +:+ " " +:+ Run.now E
  /\ Run.a_files a = files
  /\ (forall k v, last_value config k = Some v -> Options.getitem (Run.a_info a) k = Ok v)
  /\ (last_value config "gear" = None
      -> Options.getitem (Run.a_info a) "gear" = Ok (Run.m_name mf))
  /\ (last_value config "status" = None
      -> Options.getitem (Run.a_info a) "status" = Ok "success")
  /\ (last_value config "note" = None -> Options.getitem (Run.a_info a) "note" = Ok "").

(** A processor under which scenario A runs through: the options class
    accepts the image. *)
Definition process_A (sub ses : string)
  : M Run.world (list string * list string * list string) :=
  Run.fw_process_subject_with (options_with_image env_A) env_A sub ses "GAMBAS" [].

(** ** The whole run *)

(** The turns of the two nested loops of [main], in order: subject,
    session, session identifier. *)
Definition turns (subses : dict (dict string)) : list (string * string * string) :=
  concat (map (fun s : string * dict string =>
                 map (fun t : string * string => (s.1, t.1, t.2)) s.2) subses).

(** The candidates that discovery returns for a turn; none when it
    raises. *)
Definition candidates_of (E : Run.collab) (u : string * string * string) : list string :=
  match Run.parse_input_files E u.1.1 u.1.2 with
  | Ok (axi, sag, cor) => (axi ++ sag ++ cor)%list
  | Raise _ => []
  end.

(** All candidates of a run, and its log files. *)
Definition discovered (E : Run.collab) (subses : dict (dict string)) : list string :=
  concat (map (candidates_of E) (turns subses)).

Definition session_logs (E : Run.collab) (subses : dict (dict string)) : list string :=
  map (fun u : string * string * string => Run.log_filename E u.1.1 u.1.2) (turns subses).

(** Discovery raises for no session of the run. *)
Definition all_discovered (E : Run.collab) (subses : dict (dict string)) : Prop :=
  Forall (fun u : string * string * string =>
            is_ok (Run.parse_input_files E u.1.1 u.1.2) = true) (turns subses).

(** The log file of every session of the run can be written. *)
Definition all_logged (E : Run.collab) (subses : dict (dict string)) : Prop :=
  Forall (fun u : string * string * string =>
            log_failure E (Run.log_filename E u.1.1 u.1.2) = None) (turns subses).

(** ** The configuration *)

(** The four keys that [parse_config] sets itself. *)
Definition gear_paths : dict string :=
  [("input_dir", "/flywheel/v0/input/");
   ("work_dir", "/flywheel/v0/work/");
   ("output_dir", "/flywheel/v0/output/");
   ("bids_config_file", "/flywheel/v0/utils/dcm2bids_config.json")].

(** A config.json in which the user sets [work_dir] and [phase]. *)
Definition config_json_A : dict (dict string) :=
  [("inputs", []); ("config", [("work_dir", "/tmp/elsewhere"); ("phase", "test")])].


(** What the candidate [f] adds to [deriv_fnames]: the output of
    [inference], listed as [listed] says, when every step of the loop
    body returns for it; nothing when a step raises or registration
    gives no image. *)
Definition contribution (mk : dict Options.pyval -> result Run.opt) (E : Run.collab)
           (sub ses which_model : string) (config : dict string) (f : string)
  : list string :=
  match mk (Run.options_keywords sub ses which_model config f) with
  | Ok o =>
      match Run.Registration E (Options.image o) (Options.reference o) sub ses with
      | Ok (Some img) =>
          match Run.create_model E o with
          | Ok model =>
              match Run.setup E model o with
              | Ok _ =>
                  match Run.inference E model img o with
                  | Ok out => listed out
                  | Raise _ => []
                  end
              | Raise _ => []
              end
          | Raise _ => []
          end
      | _ => []
      end
  | Raise _ => []
  end.

(** As scenario A with a second candidate, and an options class that
    accepts the image but cannot be set up for the first candidate. *)
Definition raw_B : string := anat_dir +:+ "/sub-01_ses-1_T2w_sag.nii.gz".

Definition env_B : Run.collab :=
  {| Run.work_dir := Run.work_dir env_A;
     Run.now := Run.now env_A;
     Run.logprint := Run.logprint env_A;
     Run.parse_input_files := fun _ _ => Ok ([raw_A], [raw_B], []);
     Run.parse := Run.parse env_A;
     Run.Registration := Run.Registration env_A;
     Run.create_model := Run.create_model env_A;
     Run.setup := Run.setup env_A;
     Run.inference := Run.inference env_A;
     Run.open_error := Run.open_error env_A;
     Run.write_error := Run.write_error env_A;
     Run.remove_error := Run.remove_error env_A |}.

Definition options_B (kwargs : dict Options.pyval) : result Run.opt :=
  if match Options.getitem kwargs "image" with
     | Ok v => Options.is_str v raw_A
     | Raise _ => false
     end
  then Raise (ValueError "unreadable header")
  else options_with_image env_B kwargs.

(** * Properties *)

(** ** Strings *)

#[local] Arguments String.append !s1 s2 : simpl nomatch.

(** The [str] and [os.path] functions on a few inputs. *)
Example split_example : split "  Visit 1 " = ["Visit"; "1"].
Proof. reflexivity. Qed.
Example replace_example : replace ".nii.gz" "_gambas.nii.gz" "a.nii.gz.nii.gz" = "a_gambas.nii.gz_gambas.nii.gz".
Proof. reflexivity. Qed.
Example replace_all_example : replace "-" "" "a--b-" = "ab".
Proof. reflexivity. Qed.
Example lower_example : lower "T2 AXI Brain" = "t2 axi brain".
Proof. reflexivity. Qed.
Example join_example : join "/a/b" "c" = "/a/b/c" /\ join "/a/b/" "c" = "/a/b/c" /\ join "/a" "/c" = "/c".
Proof. repeat split; reflexivity. Qed.
Example basename_example : basename "/a/b/c.txt" = "c.txt".
Proof. reflexivity. Qed.
Example endswith_example : endswith "x.nii.gz" ".nii.gz" = true /\ endswith "gz" ".nii.gz" = false.
Proof. split; reflexivity. Qed.

Lemma append_nil_r (s : string) : s +:+ "" = s.
Proof. induction s as [|c s IH]; simpl; [reflexivity | now rewrite IH]. Qed.

Lemma append_assoc (a b c : string) : (a +:+ b) +:+ c = a +:+ (b +:+ c).
Proof. induction a as [|x a IH]; simpl; [reflexivity | now rewrite IH]. Qed.

Lemma length_append (a b : string) :
  String.length (a +:+ b) = String.length a + String.length b.
Proof. induction a as [|x a IH]; simpl; [reflexivity | now rewrite IH]. Qed.

Lemma append_inv_head (a b c : string) : a +:+ b = a +:+ c -> b = c.
Proof. induction a as [|x a IH]; simpl; intros H; [exact H | injection H; auto]. Qed.

Lemma startswith_spec (p s : string) :
  startswith p s = true <-> exists v, s = p +:+ v.
Proof.
  revert s. induction p as [|a p IH]; intros s; simpl.
  - split; [intros _; now exists s | reflexivity].
  - destruct s as [|b s].
    + split; [discriminate | intros [v Hv]; discriminate].
    + rewrite andb_true_iff, Ascii.eqb_eq, IH. split.
      * intros [-> [v ->]]. now exists v.
      * intros [v Hv]. injection Hv as -> ->. split; [reflexivity | now exists v].
Qed.

Lemma contains_spec (p s : string) : contains p s = true <-> Substring p s.
Proof.
  unfold Substring. induction s as [|c s IH].
  - simpl. rewrite orb_false_r, startswith_spec. split.
    + intros [v Hv]. now exists "", v.
    + intros [u [v Hv]]. destruct u; [now exists v | discriminate].
  - cbn [contains]. rewrite orb_true_iff, IH, startswith_spec. split.
    + intros [[v Hv] | [u [v Hv]]].
      * now exists "", v.
      * exists (String c u), v. simpl. now rewrite Hv.
    + intros [u [v Hv]]. destruct u as [|x u].
      * left. now exists v.
      * right. simpl in Hv. injection Hv as _ ->. now exists u, v.
Qed.

Lemma contains_false (p s : string) : contains p s = false <-> ~ Substring p s.
Proof.
  rewrite <- contains_spec. destruct (contains p s); split; intros H;
    try reflexivity; try discriminate.
  now destruct H.
Qed.

Lemma lower_append (a b : string) : lower (a +:+ b) = lower a +:+ lower b.
Proof. induction a as [|x a IH]; simpl; [reflexivity | now rewrite IH]. Qed.

(** An occurrence in the name survives lowering, as the lowered
    occurrence. *)
Lemma Substring_lower (p s : string) :
  Substring p s -> Substring (lower p) (lower s).
Proof.
  intros [u [v ->]]. exists (lower u), (lower v).
  now rewrite !lower_append.
Qed.

Lemma drop_append (u s : string) : drop (String.length u) (u +:+ s) = s.
Proof. induction u as [|c u IH]; simpl; [now destruct s | exact IH]. Qed.

Lemma drop_split (n : nat) (s : string) : exists u, s = u +:+ drop n s.
Proof.
  revert s. induction n as [|n IH]; intros s.
  - exists "". now destruct s.
  - destruct s as [|c s]; [now exists "" |].
    destruct (IH s) as [u Hu]. exists (String c u). simpl. now rewrite <- Hu.
Qed.

Lemma endswith_spec (s suf : string) : endswith s suf = true <-> Suffix suf s.
Proof.
  unfold endswith, Suffix. rewrite andb_true_iff, Nat.leb_le, String.eqb_eq. split.
  - intros [_ H]. destruct (drop_split (String.length s - String.length suf) s) as [u Hu].
    exists u. rewrite <- H. exact Hu.
  - intros [u ->]. rewrite length_append. split; [lia |].
    replace (String.length u + String.length suf - String.length suf)
      with (String.length u) by lia.
    apply drop_append.
Qed.

(** ** The inclusion filter and the download decision *)

Section Download.

Import Parser.

(** The test on the orientation marker: an upper-case occurrence in
    the name is already an occurrence in the lowered name. *)
Lemma axi_marker (n : string) :
  contains "axi" (lower n) || contains "AXI" n = contains "axi" (lower n).
Proof.
  destruct (contains "AXI" n) eqn:H; [| apply orb_false_r].
  apply contains_spec, Substring_lower in H.
  change (lower "AXI") with "axi" in H.
  apply contains_spec in H. now rewrite H.
Qed.

Lemma do_download_conj (f : file) :
  do_download f =
    str_in (f_type f) ["source code"; "nifti"]
    && (contains "T2" (f_name f) && contains "axi" (lower (f_name f)))
    && negb (existsb (fun excluded => contains excluded (lower (f_name f)))
                     ["mapping"; "align"; "brain"]).
Proof.
  unfold do_download. rewrite axi_marker.
  destruct (str_in _ _); [| reflexivity].
  destruct (contains "T2" _ && _); [| reflexivity].
  now destruct (existsb _ _).
Qed.

(** A file that fails the filter is passed over: nothing raises and
    the disk is as before. *)
Lemma download_file_skip (pf : platform) (f : file) (my_dir : string)
      (dry_run : bool) (d : disk) :
  do_download f = false ->
  download_file pf f my_dir dry_run d = (Ok (f_name f), d).
Proof. intros H. unfold download_file. now rewrite H. Qed.

(** What [download_file] does to a file that passes the filter. *)
Lemma download_file_pass (pf : platform) (f : file) (my_dir : string)
      (dry_run : bool) (d : disk) :
  do_download f = true ->
  download_file pf f my_dir dry_run d =
    match makedirs_error pf my_dir with
    | Some e => (Raise e, d)
    | None =>
        let d1 := {| paths := {[my_dir]} ∪ paths d; fetched := fetched d |} in
        let fpath := join my_dir (f_name f) in
        if dry_run || exists_ fpath d1 then (Ok (f_name f), d1)
        else
          let called := (fetched d ++ [(f_name f, fpath)])%list in
          match download_error pf f fpath with
          | Some _ => (Ok (f_name f), {| paths := paths d1; fetched := called |})
          | None => (Ok (f_name f), {| paths := {[fpath]} ∪ paths d1; fetched := called |})
          end
    end.
Proof.
  intros H. unfold download_file, bindM, makedirs, try_except, download, ret.
  rewrite H. destruct (makedirs_error pf my_dir); [reflexivity |].
  destruct dry_run; [reflexivity |]. simpl.
  destruct (exists_ _ _); [reflexivity |]. simpl.
  now destruct (download_error pf f _).
Qed.

End Download.

(** C5. [download_file] sets [do_download] exactly when the declared
    type is 'source code' or 'nifti', the name contains 'T2', the
    lowered name contains 'axi', and the lowered name contains none of
    'mapping', 'align', 'brain'. A file that fails this test is passed
    over without an error and without any effect on the disk. A file
    that passes it gets its directory created and, unless the run is a
    dry run or the target path exists already, its download operation
    called once, for the path of its name under the directory; the
    function returns the file name, whatever the download raised. *)
Theorem download_file_filter (f : Parser.file) :
  (Parser.do_download f = true <->
     (Parser.f_type f = "source code" \/ Parser.f_type f = "nifti")
     /\ (Substring "T2" (Parser.f_name f)
         /\ Substring "axi" (lower (Parser.f_name f)))
     /\ ~ Substring "mapping" (lower (Parser.f_name f))
     /\ ~ Substring "align" (lower (Parser.f_name f))
     /\ ~ Substring "brain" (lower (Parser.f_name f)))
  /\ (forall pf my_dir dry_run d,
         Parser.do_download f = false ->
         Parser.download_file pf f my_dir dry_run d = (Ok (Parser.f_name f), d))
  /\ (forall pf my_dir dry_run d,
         Parser.do_download f = true ->
         Parser.download_file pf f my_dir dry_run d =
           match Parser.makedirs_error pf my_dir with
           | Some e => (Raise e, d)
           | None =>
               let d1 := {| Parser.paths := {[my_dir]} ∪ Parser.paths d;
                            Parser.fetched := Parser.fetched d |} in
               let fpath := join my_dir (Parser.f_name f) in
               if dry_run || Parser.exists_ fpath d1 then (Ok (Parser.f_name f), d1)
               else
                 let called := (Parser.fetched d ++ [(Parser.f_name f, fpath)])%list in
                 match Parser.download_error pf f fpath with
                 | Some _ =>
                     (Ok (Parser.f_name f),
                      {| Parser.paths := Parser.paths d1; Parser.fetched := called |})
                 | None =>
                     (Ok (Parser.f_name f),
                      {| Parser.paths := {[fpath]} ∪ Parser.paths d1;
                         Parser.fetched := called |})
                 end
           end)
  /\ (forall pf my_dir d,
         Parser.makedirs_error pf my_dir = None ->
         join my_dir (Parser.f_name f) ∉ {[my_dir]} ∪ Parser.paths d ->
         (Parser.fetched (Parser.download_file pf f my_dir false d).2
          = (Parser.fetched d ++ [(Parser.f_name f, join my_dir (Parser.f_name f))])%list
          <-> Parser.do_download f = true)).
Proof.
  split; [| split; [intros; now apply download_file_skip |
                    split; [intros; now apply download_file_pass |]]].
  - rewrite do_download_conj. unfold str_in. simpl existsb.
    rewrite !andb_true_iff, negb_true_iff, !orb_false_iff, !orb_true_iff.
    rewrite !String.eqb_eq, !contains_spec, !contains_false.
    intuition congruence.
  - intros pf my_dir d Hmk Hnew.
    destruct (Parser.do_download f) eqn:Hf.
    + rewrite (download_file_pass pf f my_dir false d Hf), Hmk. cbv zeta.
      unfold Parser.exists_. cbn [Parser.paths].
      rewrite bool_decide_eq_false_2 by exact Hnew. cbn [orb].
      destruct (Parser.download_error pf f _); cbn [snd Parser.fetched]; tauto.
    + rewrite (download_file_skip pf f my_dir false d Hf). cbn [snd].
      split; [| discriminate]. intros H. exfalso.
      apply (f_equal (@length _)) in H. rewrite length_app in H. simpl in H. lia.
Qed.

Lemma download_file_filter_witness :
  Parser.do_download t2_axial = true
  /\ Parser.do_download t2_axial_brain = false
  /\ Parser.download_file quiet_platform t2_axial_brain "/w/P01/Visit1" false empty_disk
     = (Ok "sub-01_T2w_axi_Brain.nii.gz", empty_disk)
  /\ Parser.download_file quiet_platform t2_axial "/w/P01/Visit1" false empty_disk
     = (Ok "sub-01_T2w_AXI.nii.gz",
        {| Parser.paths := {[ "/w/P01/Visit1/sub-01_T2w_AXI.nii.gz" ]}
                           ∪ ({[ "/w/P01/Visit1" ]} ∪ ∅);
           Parser.fetched :=
             [("sub-01_T2w_AXI.nii.gz", "/w/P01/Visit1/sub-01_T2w_AXI.nii.gz")] |}).
Proof.
  split; [reflexivity |]. split; [reflexivity |].
  destruct (download_file_filter t2_axial_brain) as (_ & Hskip & _).
  destruct (download_file_filter t2_axial) as (_ & _ & Hpass & _).
  split.
  - apply Hskip. reflexivity.
  - rewrite (Hpass quiet_platform "/w/P01/Visit1" false empty_disk eq_refl).
    reflexivity.
Defined.

(** C6. For a file that passes the filter: when its target path exists
    already, the download operation is not called; the operation is
    called at most once, and only when the target path does not exist
    (and the run is not a dry run); and once a call has fetched the
    file, calling [download_file] again fetches nothing. *)
Theorem download_file_skips_existing (pf : Parser.platform) (f : Parser.file)
        (my_dir : string) (dry_run : bool) (d : Parser.disk) :
  Parser.do_download f = true ->
  let fpath := join my_dir (Parser.f_name f) in
  let d1 := (Parser.download_file pf f my_dir dry_run d).2 in
  let d2 := (Parser.download_file pf f my_dir false d).2 in
  (fpath ∈ Parser.paths d -> Parser.fetched d1 = Parser.fetched d)
  /\ (Parser.fetched d1 = Parser.fetched d
      \/ (Parser.fetched d1 = (Parser.fetched d ++ [(Parser.f_name f, fpath)])%list
          /\ (fpath ∉ Parser.paths d) /\ dry_run = false))
  /\ (Parser.makedirs_error pf my_dir = None ->
      Parser.download_error pf f fpath = None ->
      fpath ∈ Parser.paths d2
      /\ Parser.fetched (Parser.download_file pf f my_dir false d2).2 = Parser.fetched d2).
Proof.
  intros H fpath d1 d2. subst d1 d2.
  rewrite !(download_file_pass pf f my_dir _ _ H). fold fpath.
  destruct (Parser.makedirs_error pf my_dir) as [e|] eqn:Hmk; simpl.
  - split; [auto | split; [now left | discriminate]].
  - unfold Parser.exists_. simpl. split; [| split].
    + intros Hin. rewrite bool_decide_true by set_solver.
      now rewrite orb_true_r.
    + destruct dry_run; simpl; [now left |].
      destruct (decide (fpath ∈ {[my_dir]} ∪ Parser.paths d)) as [Hin|Hin].
      * rewrite bool_decide_true by exact Hin. now left.
      * rewrite bool_decide_false by exact Hin. right.
        destruct (Parser.download_error pf f fpath); simpl;
          (split; [reflexivity | split; [set_solver | reflexivity]]).
    + intros _ Hdl. rewrite Hdl.
      destruct (decide (fpath ∈ {[my_dir]} ∪ Parser.paths d)) as [Hin|Hin].
      * rewrite bool_decide_true by exact Hin. simpl.
        rewrite bool_decide_true by set_solver.
        split; [exact Hin | reflexivity].
      * rewrite bool_decide_false by exact Hin. simpl.
        rewrite bool_decide_true by set_solver.
        split; [set_solver | reflexivity].
Qed.

Lemma download_file_skips_existing_witness :
  Parser.do_download t2_axial = true
  /\ Parser.fetched
       (Parser.download_file quiet_platform t2_axial "/w/P01/Visit1" false disk_with_target).2
     = [].
Proof.
  split; [reflexivity |].
  destruct (download_file_skips_existing quiet_platform t2_axial "/w/P01/Visit1" false
              disk_with_target eq_refl) as [H _].
  apply H. vm_compute. reflexivity.
Defined.

(** ** Running the import of a session again *)

Lemma for_each_app {S A} (body : A -> M S unit) (l1 l2 : list A) (s : S) :
  for_each body (l1 ++ l2)%list s = bindM (for_each body l1) (fun _ => for_each body l2) s.
Proof.
  revert s. induction l1 as [|x l1 IH]; intros s; simpl; [reflexivity |].
  unfold bindM in *. destruct (body x s) as [[[]|e] s1]; [| reflexivity].
  apply IH.
Qed.

Lemma for_each_concat {S A B} (body : B -> M S unit) (files : A -> list B)
      (l : list A) (s : S) :
  for_each (fun a => for_each body (files a)) l s
  = for_each body (concat (map files l)) s.
Proof.
  revert s. induction l as [|a l IH]; intros s; simpl; [reflexivity |].
  rewrite for_each_app. unfold bindM.
  destruct (for_each body (files a) s) as [[[]|e] s1]; [apply IH | reflexivity].
Qed.

Section Rerun.

Variable pf : Parser.platform.
Hypothesis makedirs_ok : forall dir, Parser.makedirs_error pf dir = None.
Hypothesis download_ok : forall f fpath, Parser.download_error pf f fpath = None.
Variable dir : string.

Abbreviation body :=
  (fun f : Parser.file => bindM (Parser.download_file pf f dir false) (fun _ => ret tt)).

(** One call on a disk: it returns, the paths only grow, the file is
    settled afterwards, and nothing is fetched when it was settled
    before. *)
Lemma download_file_once (f : Parser.file) (d : Parser.disk) :
  exists d',
    body f d = (Ok tt, d')
    /\ Parser.paths d ⊆ Parser.paths d'
    /\ (Parser.do_download f = true -> join dir (Parser.f_name f) ∈ Parser.paths d')
    /\ ((Parser.do_download f = true -> join dir (Parser.f_name f) ∈ Parser.paths d) ->
        Parser.fetched d' = Parser.fetched d).
Proof using makedirs_ok download_ok.
  unfold bindM, ret.
  destruct (Parser.do_download f) eqn:H.
  - rewrite (download_file_pass _ _ _ _ _ H), makedirs_ok. cbv zeta.
    rewrite download_ok. simpl.
    unfold Parser.exists_. simpl.
    destruct (bool_decide_reflect
                (join dir (Parser.f_name f) ∈ {[dir]} ∪ Parser.paths d)) as [Hin|Hin].
    + eexists. split; [reflexivity |].
      simpl. split; [set_solver |]. split; [intros _; exact Hin | reflexivity].
    + eexists. split; [reflexivity |].
      simpl. split; [set_solver |]. split; [intros _; set_solver |].
      intros K. exfalso. apply Hin. specialize (K eq_refl). set_solver.
  - rewrite (download_file_skip _ _ _ _ _ H). exists d.
    split; [reflexivity |]. split; [reflexivity |]. split; [discriminate | reflexivity].
Qed.

Lemma files_first_pass (l : list Parser.file) :
  forall d, exists d',
    for_each body l d = (Ok tt, d')
    /\ Parser.paths d ⊆ Parser.paths d'
    /\ settled dir l d'.
Proof using makedirs_ok download_ok.
  induction l as [|f l IH]; intros d; simpl.
  - exists d. split; [reflexivity |]. split; [reflexivity |].
    intros f Hf. now apply elem_of_nil in Hf.
  - unfold bindM at 1. destruct (download_file_once f d) as [d1 (-> & M1 & S1 & _)].
    destruct (IH d1) as [d2 (-> & M2 & S2)].
    exists d2. split; [reflexivity |]. split; [set_solver |].
    intros g Hg Hd. apply elem_of_cons in Hg as [-> | Hg].
    + apply M2. now apply S1.
    + now apply S2.
Qed.

Lemma files_second_pass (l : list Parser.file) :
  forall d, settled dir l d ->
  exists d',
    for_each body l d = (Ok tt, d')
    /\ Parser.paths d ⊆ Parser.paths d'
    /\ Parser.fetched d' = Parser.fetched d.
Proof using makedirs_ok download_ok.
  induction l as [|f l IH]; intros d Hs; simpl.
  - exists d. repeat split; reflexivity.
  - unfold bindM at 1. destruct (download_file_once f d) as [d1 (-> & M1 & _ & F1)].
    destruct (IH d1) as [d2 (-> & M2 & F2)].
    + intros g Hg Hd. apply M1. apply Hs; [now right | exact Hd].
    + exists d2. split; [reflexivity |]. split; [set_solver |].
      rewrite F2. apply F1. intros Hd. apply Hs; [left | exact Hd].
Qed.

End Rerun.

Lemma download_session_flat (pf : Parser.platform) (ses : Parser.session)
      (sub_dir : string) (dry_run : bool) (d : Parser.disk) :
  Parser.download_session pf ses sub_dir dry_run d
  = match Parser.make_session_label ses with
    | Raise e => (Raise e, d)
    | Ok L =>
        let '(r, d') :=
          for_each (fun f => bindM (Parser.download_file pf f (join sub_dir L) dry_run)
                                   (fun _ => ret tt))
                   (session_files ses) d in
        (match r with
         | Ok _ => Ok (L, join sub_dir L, Parser.ses_id ses)
         | Raise e => Raise e
         end, d')
    end.
Proof.
  unfold Parser.download_session, bindM at 1, lift.
  destruct (Parser.make_session_label ses) as [L|e]; [| reflexivity].
  unfold bindM at 1. rewrite for_each_concat. fold (session_files ses).
  now destruct (for_each _ (session_files ses) d) as [[[]|e] d'].
Qed.

(** Importing a session a second time into the directory that the first
    import filled calls no download operation, provided the directory
    could be created and the downloads of the first import succeeded. *)
Lemma download_session_rerun_fetches_nothing (pf : Parser.platform)
      (ses : Parser.session) (sub_dir : string) (d : Parser.disk) :
  (forall dir, Parser.makedirs_error pf dir = None) ->
  (forall f fpath, Parser.download_error pf f fpath = None) ->
  let d1 := (Parser.download_session pf ses sub_dir false d).2 in
  Parser.fetched (Parser.download_session pf ses sub_dir false d1).2 = Parser.fetched d1.
Proof.
  intros Hmk Hdl. cbv zeta. rewrite !download_session_flat.
  destruct (Parser.make_session_label ses) as [L|e]; [| reflexivity].
  destruct (files_first_pass pf Hmk Hdl (join sub_dir L) (session_files ses) d)
    as [d1 (E1 & _ & S1)].
  rewrite E1. simpl.
  destruct (files_second_pass pf Hmk Hdl (join sub_dir L) _ d1 S1) as [d2 (E2 & _ & F2)].
  rewrite E2. exact F2.
Qed.

(** ** Session labels and their deduplication *)

Lemma dict_in_keys {V} (k : string) (d : dict V) : dict_in k d = str_in k (keys d).
Proof.
  unfold dict_in, str_in, keys. induction d as [|[k' v] d IH]; simpl;
    [reflexivity | now rewrite IH].
Qed.

Lemma keys_dict_set_new {V} (k : string) (v : V) (d : dict V) :
  dict_in k d = false -> keys (dict_set k v d) = (keys d ++ [k])%list.
Proof.
  unfold dict_in, keys. induction d as [|[k' v'] d IH]; simpl; [reflexivity |].
  intros H. apply orb_false_iff in H as [H1 H2]. rewrite H1. simpl.
  now rewrite IH.
Qed.

Lemma str_in_elem (x : string) (l : list string) : str_in x l = true <-> x ∈ l.
Proof.
  unfold str_in. rewrite existsb_exists, list_elem_of_In. split.
  - intros [y [Hy E]]. apply String.eqb_eq in E. now subst.
  - intros H. exists x. split; [exact H | apply String.eqb_refl].
Qed.

Lemma first_free_not_taken (taken cands : list string) (x : string) :
  first_free taken cands = Ok x -> str_in x taken = false.
Proof.
  unfold first_free. destruct (find _ cands) as [y|] eqn:H; [| discriminate].
  intros [= <-]. apply find_some in H as [_ H]. now apply negb_true_iff.
Qed.

(** The [while] loop returns the first free name among the current one
    and the base label followed by each remaining letter, in order. *)
Lemma while_taken_first_free {V} (out : dict V) (L rest label : string) :
  Parser.while_taken out L rest label
  = first_free (keys out) (label :: suffixed L rest).
Proof.
  revert label. induction rest as [|c rest IH]; intros label;
    unfold first_free; simpl; rewrite <- dict_in_keys;
    destruct (dict_in label out) eqn:H; simpl; try reflexivity.
  rewrite IH. reflexivity.
Qed.

Section Import_ok.

Variable pf : Parser.platform.
Hypothesis makedirs_ok : forall dir, Parser.makedirs_error pf dir = None.

Lemma download_file_ok (f : Parser.file) (my_dir : string) (dry_run : bool)
      (d : Parser.disk) :
  exists d', Parser.download_file pf f my_dir dry_run d = (Ok (Parser.f_name f), d').
Proof using makedirs_ok.
  destruct (Parser.do_download f) eqn:H.
  - rewrite (download_file_pass _ _ _ _ _ H), makedirs_ok. simpl.
    destruct (dry_run || _); [eauto |].
    destruct (Parser.download_error pf f _); eauto.
  - rewrite (download_file_skip _ _ _ _ _ H). eauto.
Qed.

Lemma for_each_ok {S A} (body : A -> M S unit) (l : list A) :
  (forall x s, exists s', body x s = (Ok tt, s')) ->
  forall s, exists s', for_each body l s = (Ok tt, s').
Proof using Type.
  intros Hb. induction l as [|x l IH]; intros s; simpl.
  - now exists s.
  - unfold bindM. destruct (Hb x s) as [s1 ->]. apply IH.
Qed.

Lemma download_session_ok (ses : Parser.session) (sub_dir : string)
      (dry_run : bool) (d : Parser.disk) (L : string) :
  Parser.make_session_label ses = Ok L ->
  exists d', Parser.download_session pf ses sub_dir dry_run d
             = (Ok (L, join sub_dir L, Parser.ses_id ses), d').
Proof using makedirs_ok.
  intros HL. unfold Parser.download_session, bindM at 1, lift. rewrite HL.
  unfold bindM at 1.
  match goal with |- context [for_each ?b ?l d] =>
    destruct (for_each_ok b l) with (s := d) as [d' ->] end.
  - intros acq s. apply for_each_ok. intros f s0. unfold bindM.
    destruct (download_file_ok f (join sub_dir L) dry_run s0) as [s1 ->].
    now exists s1.
  - now exists d'.
Qed.

(** One turn of the loop over the sessions: the session receives its
    first free candidate. *)
Lemma subject_step_first_free (sub_dir : string) (dry_run : bool)
      (out : dict (string * string)) (ses : Parser.session) (d : Parser.disk)
      (L : string) :
  Parser.make_session_label ses = Ok L ->
  exists d',
    Parser.subject_step pf sub_dir dry_run out ses d
    = (match first_free (keys out) (candidates L) with
       | Ok x => Ok (dict_set x (join sub_dir L, Parser.ses_id ses) out)
       | Raise e => Raise e
       end, d').
Proof using makedirs_ok.
  intros HL. unfold Parser.subject_step, bindM at 1.
  destruct (download_session_ok ses sub_dir dry_run d L HL) as [d' ->].
  exists d'. unfold bindM, lift, ret.
  rewrite while_taken_first_free. fold (candidates L).
  now destruct (first_free _ _).
Qed.

(** The loop of [download_subject] computes what [resolve_from]
    describes. *)
Lemma subject_loop_keys (sub_dir : string) (dry_run : bool)
      (l : list Parser.session) (labels : list string) :
  Forall2 (fun s L => Parser.make_session_label s = Ok L) l labels ->
  forall (out : dict (string * string)) (d : Parser.disk),
  exists d',
    match resolve_from (keys out) labels with
    | Ok ks => exists out',
        Parser.subject_loop pf sub_dir dry_run out l d = (Ok out', d')
        /\ keys out' = ks
    | Raise e => Parser.subject_loop pf sub_dir dry_run out l d = (Raise e, d')
    end.
Proof using makedirs_ok.
  induction 1 as [|s L l labels HL _ IH]; intros out d; simpl.
  - exists d. now exists out.
  - unfold bindM.
    destruct (subject_step_first_free sub_dir dry_run out s d L HL) as [d1 ->].
    destruct (first_free (keys out) (candidates L)) as [x|e] eqn:Hx.
    + specialize (IH (dict_set x (join sub_dir L, Parser.ses_id s) out) d1).
      rewrite keys_dict_set_new in IH; [exact IH |].
      rewrite dict_in_keys. now apply first_free_not_taken in Hx.
    + now exists d1.
Qed.

Lemma session_labels_resolve (sub : Parser.subject) (proj_dir : string)
      (dry_run : bool) (d : Parser.disk) (labels : list string) :
  Forall2 (fun s L => Parser.make_session_label s = Ok L)
          (Parser.sub_sessions sub) labels ->
  session_labels pf sub proj_dir dry_run d = resolve_from [] labels.
Proof using makedirs_ok.
  intros H. unfold session_labels, Parser.download_subject, bindM.
  destruct (subject_loop_keys (join proj_dir (Parser.make_subject_label sub))
              dry_run _ _ H [] d) as [d' Hd].
  change (keys []) with (@nil string) in Hd.
  destruct (resolve_from [] labels) as [ks|e].
  - destruct Hd as [out' [-> <-]]. reflexivity.
  - now rewrite Hd.
Qed.

End Import_ok.

Lemma candidates_length (L : string) : length (candidates L) = 27.
Proof. reflexivity. Qed.

Lemma append_char_inj (L : string) (a b : ascii) :
  L +:+ String a "" = L +:+ String b "" -> a = b.
Proof. intros H. apply append_inv_head in H. now injection H. Qed.

Lemma candidates_NoDup (L : string) : NoDup (candidates L).
Proof.
  unfold candidates. constructor.
  - intros H. apply list_elem_of_In, in_map_iff in H as [c [H _]].
    apply (f_equal String.length) in H. rewrite length_append in H.
    simpl in H. lia.
  - unfold suffixed.
    change (NoDup ((fun c => L +:+ String c "") <$> list_ascii_of_string Parser.alc)).
    apply NoDup_fmap_2.
    + intros a b. apply append_char_inj.
    + apply (bool_decide_unpack _). vm_compute. reflexivity.
Qed.

(** When the names taken among the candidates are exactly the first [m]
    of them, the first free candidate is the one at index [m]. *)
Lemma find_fresh (taken c : list string) :
  NoDup c ->
  forall m,
    (forall x, x ∈ c -> (str_in x taken = true <-> x ∈ take m c)) ->
    find (fun x => negb (str_in x taken)) c = c !! m.
Proof.
  induction 1 as [|x c Hx Hc IH]; intros m Hm; [now destruct m |].
  simpl. destruct m as [|m].
  - destruct (str_in x taken) eqn:E; [| reflexivity].
    apply (Hm x) in E; [| left]. simpl in E. now apply elem_of_nil in E.
  - assert (E : str_in x taken = true) by (apply Hm; simpl; left).
    rewrite E. simpl. apply IH. intros y Hy.
    rewrite (Hm y) by now right.
    simpl. rewrite elem_of_cons. split; [| now right].
    intros [-> | H]; [contradiction | exact H].
Qed.

Lemma first_free_take (c : list string) (m : nat) :
  NoDup c ->
  first_free (take m c) c
  = match c !! m with Some x => Ok x | None => Raise IndexError end.
Proof.
  intros Hc. unfold first_free. rewrite (find_fresh _ _ Hc m); [reflexivity |].
  intros x _. apply str_in_elem.
Qed.

(** Sessions that all sanitize to [L]: they receive the candidates of
    [L] in order while there are some left, and the next one fails. *)
Lemma resolve_same (L : string) (n : nat) :
  forall m, m <= 27 ->
    resolve_from (take m (candidates L)) (replicate n L)
    = if decide (m + n <= 27) then Ok (take (m + n) (candidates L))
      else Raise IndexError.
Proof.
  induction n as [|n IH]; intros m Hm; simpl.
  - rewrite Nat.add_0_r. now rewrite decide_True by lia.
  - rewrite first_free_take by apply candidates_NoDup.
    destruct (candidates L !! m) as [x|] eqn:Hx.
    + assert (m < 27)
        by (rewrite <- (candidates_length L); eapply lookup_lt_Some; eauto).
      rewrite <- (take_S_r _ _ _ Hx), IH by lia.
      replace (S m + n) with (m + S n) by lia. reflexivity.
    + apply lookup_ge_None in Hx. rewrite candidates_length in Hx.
      now rewrite decide_False by lia.
Qed.

Lemma same_label_Forall2 (L : string) (l : list Parser.session) :
  Forall (fun s => Parser.make_session_label s = Ok L) l ->
  Forall2 (fun s L' => Parser.make_session_label s = Ok L') l (replicate (length l) L).
Proof. induction 1; simpl; constructor; assumption. Qed.


(** ** Names by count *)

Lemma numbered_app (a : list string) :
  forall seen b, numbered seen (a ++ b) = (numbered seen a ++ numbered (seen ++ a) b)%list.
Proof.
  induction a as [|L a IH]; intros seen b; simpl.
  - now rewrite app_nil_r.
  - rewrite IH, <- app_assoc. reflexivity.
Qed.

Lemma occurrences_app (L : string) (a b : list string) :
  occurrences L (a ++ b) = occurrences L a + occurrences L b.
Proof. unfold occurrences. now rewrite filter_app, length_app. Qed.

Lemma occurrences_one (L L0 : string) :
  occurrences L [L0] = if decide (L0 = L) then 1 else 0.
Proof.
  unfold occurrences. rewrite filter_cons, filter_nil.
  now destruct (decide (L0 = L)).
Qed.

Lemma elem_of_numbered (l : list string) (x : string) :
  x ∈ numbered [] l <-> exists L j, j < occurrences L l /\ x = nth_name L j.
Proof.
  induction l as [|L0 l IH] using rev_ind.
  - simpl. split; [intros H; now apply elem_of_nil in H |].
    intros (L & j & Hj & _). unfold occurrences in Hj. simpl in Hj. lia.
  - rewrite numbered_app. cbn [numbered app].
    rewrite elem_of_app, list_elem_of_singleton, IH. split.
    + intros [(L & j & Hj & ->) | ->].
      * exists L, j. split; [rewrite occurrences_app; lia | reflexivity].
      * exists L0, (occurrences L0 l). split; [| reflexivity].
        rewrite occurrences_app, occurrences_one, decide_True by reflexivity. lia.
    + intros (L & j & Hj & ->). rewrite occurrences_app, occurrences_one in Hj.
      destruct (decide (L0 = L)) as [-> | Hne].
      * destruct (decide (j = occurrences L l)) as [-> | Hj'];
          [now right | left; exists L, j; split; [lia | reflexivity]].
      * left. exists L, j. split; [lia | reflexivity].
Qed.

Lemma nth_name_lookup (L : string) (j : nat) :
  j < 27 -> candidates L !! j = Some (nth_name L j).
Proof.
  intros Hj. unfold nth_name. rewrite nth_lookup.
  destruct (candidates L !! j) eqn:E; [reflexivity |].
  apply lookup_ge_None in E. rewrite candidates_length in E. lia.
Qed.

Lemma append_snoc_inj (L L' : string) (c c' : ascii) :
  L +:+ String c "" = L' +:+ String c' "" -> L = L'.
Proof.
  revert L'. induction L as [|a L IH]; intros [|a' L'] H; simpl in H.
  - reflexivity.
  - injection H as _ H. destruct L'; discriminate.
  - injection H as _ H. destruct L; discriminate.
  - injection H as -> H. f_equal. now apply IH.
Qed.

Lemma elem_of_candidates (L x : string) :
  x ∈ candidates L <-> x = L \/ exists c, occurs c Parser.alc /\ x = L +:+ String c "".
Proof.
  unfold candidates, suffixed, occurs. rewrite elem_of_cons, list_elem_of_In, in_map_iff.
  split; (intros [H | (c & H1 & H2)]; [now left | right; exists c; auto]).
Qed.

(** The candidates of two different labels of a separate family are
    different names. *)
Lemma candidates_disjoint (labels : list string) (L L' x : string) :
  separate labels -> L ∈ labels -> L' ∈ labels -> L <> L' ->
  x ∈ candidates L -> x ∈ candidates L' -> False.
Proof.
  intros Hsep HL HL' Hne H H'.
  apply elem_of_candidates in H as [-> | (c & Hc & ->)];
    apply elem_of_candidates in H' as [H' | (c' & Hc' & H')].
  - contradiction.
  - exact (Hsep L' L c' HL' HL Hc' H').
  - symmetry in H'. exact (Hsep L L' c HL HL' Hc H').
  - apply append_snoc_inj in H'. contradiction.
Qed.

(** In a separate family in which no label occurs more than 27 times,
    the first free candidate of a label is its name by count. *)
Lemma first_free_numbered (labels seen : list string) (L : string) :
  separate labels ->
  (forall x, x ∈ seen -> x ∈ labels) -> L ∈ labels ->
  (forall L', occurrences L' seen <= 27) ->
  occurrences L seen < 27 ->
  first_free (numbered [] seen) (candidates L) = Ok (nth_name L (occurrences L seen)).
Proof.
  intros Hsep Hseen HL Hbound Hm. unfold first_free.
  rewrite (find_fresh _ _ (candidates_NoDup L) (occurrences L seen)).
  - now rewrite nth_name_lookup.
  - intros x Hx. rewrite str_in_elem, elem_of_numbered. split.
    + intros (L' & j & Hj & ->).
      assert (HL' : L' ∈ seen).
      { unfold occurrences in Hj. destruct (filter _ seen) as [|y ys] eqn:E;
          [simpl in Hj; lia |].
        assert (Hy : y ∈ filter (fun x => x = L') seen) by (rewrite E; left).
        apply list_elem_of_filter in Hy as [-> Hy]. exact Hy. }
      assert (Hj27 : j < 27) by (specialize (Hbound L'); lia).
      destruct (decide (L = L')) as [<- | Hne].
      * apply (list_elem_of_lookup_2 _ j). rewrite lookup_take_lt by exact Hj.
        now apply nth_name_lookup.
      * exfalso. apply (candidates_disjoint labels L L' (nth_name L' j)); auto.
        apply (list_elem_of_lookup_2 _ j). now apply nth_name_lookup.
    + intros Hin. apply list_elem_of_lookup_1 in Hin as [j Hj].
      assert (Hlt : j < occurrences L seen).
      { apply lookup_lt_Some in Hj. rewrite length_take in Hj. lia. }
      rewrite lookup_take_lt in Hj by exact Hlt.
      exists L, j. split; [exact Hlt |].
      rewrite nth_name_lookup in Hj by lia. now injection Hj.
Qed.

(** Without interference between labels, resolution is counting. *)
Lemma resolve_numbered (labels rest : list string) :
  separate labels ->
  (forall L, occurrences L labels <= 27) ->
  forall seen, labels = (seen ++ rest)%list ->
    resolve_from (numbered [] seen) rest
    = Ok (numbered [] seen ++ numbered seen rest)%list.
Proof.
  intros Hsep Hbound. induction rest as [|L rest IH]; intros seen Hl.
  - simpl. now rewrite app_nil_r.
  - cbn [resolve_from numbered].
    assert (Hocc : forall L', occurrences L' seen + occurrences L' (L :: rest)
                              = occurrences L' labels)
      by (intros L'; now rewrite Hl, occurrences_app).
    assert (HLone : 1 <= occurrences L (L :: rest)).
    { change (L :: rest) with ([L] ++ rest)%list.
      rewrite occurrences_app, occurrences_one, decide_True by reflexivity. lia. }
    rewrite (first_free_numbered labels seen L Hsep).
    + specialize (IH (seen ++ [L])%list).
      rewrite numbered_app in IH. cbn [numbered app] in IH.
      rewrite IH by (rewrite Hl, <- app_assoc; reflexivity).
      now rewrite <- app_assoc.
    + intros x Hx. rewrite Hl. apply elem_of_app. now left.
    + rewrite Hl. apply elem_of_app. right. left.
    + intros L'. specialize (Hocc L'). specialize (Hbound L'). lia.
    + specialize (Hocc L). specialize (Hbound L). lia.
Qed.

(** C4, as stated, fails: the session rule keeps only the first
    whitespace-delimited token, so "Visit 1" resolves to "Visit" and
    does not collide with "Visit-1". *)
Lemma visit_labels_do_not_collide :
  session_labels quiet_platform visit_subject "/w" false empty_disk
    = Ok ["Visit"; "Visit1"]
  /\ session_labels quiet_platform visit_subject "/w" false empty_disk
    <> Ok ["Visit1"; "Visit1a"].
Proof. split; [vm_compute; reflexivity | vm_compute; discriminate]. Qed.

(** C4, amended. Sessions labelled "Visit 1" and "Visit-1" resolve to
    "Visit" and "Visit1"; sessions labelled "Visit-1" and "Visit_1",
    which do sanitize identically, resolve to "Visit1" and "Visit1a".
    In general, for any sessions of a subject, each session receives,
    in encounter order, the first name that no earlier session of the
    subject received among its sanitized label [L], then [L] with 'a',
    then [L] with 'b', and so on. When no sanitized label of the
    subject is a sanitized label of the subject followed by one
    lowercase letter, and none occurs more than 27 times, this is
    counting: the first session with a label keeps it, the second gets
    'a', the third 'b'; other labels in between do not matter. *)
Theorem session_label_suffixes (pf : Parser.platform) (sub : Parser.subject)
        (proj_dir : string) (dry_run : bool) (d : Parser.disk) :
  (forall dir, Parser.makedirs_error pf dir = None) ->
  (map Parser.ses_label (Parser.sub_sessions sub) = ["Visit 1"; "Visit-1"] ->
   session_labels pf sub proj_dir dry_run d = Ok ["Visit"; "Visit1"])
  /\ (map Parser.ses_label (Parser.sub_sessions sub) = ["Visit-1"; "Visit_1"] ->
      session_labels pf sub proj_dir dry_run d = Ok ["Visit1"; "Visit1a"])
  /\ (forall L,
         Forall (fun s => Parser.make_session_label s = Ok L) (Parser.sub_sessions sub) ->
         length (Parser.sub_sessions sub) <= 27 ->
         session_labels pf sub proj_dir dry_run d
         = Ok (take (length (Parser.sub_sessions sub)) (candidates L)))
  /\ (forall L, take 3 (candidates L) = [L; L +:+ "a"; L +:+ "b"])
  /\ (forall labels,
         Forall2 (fun s L => Parser.make_session_label s = Ok L)
                 (Parser.sub_sessions sub) labels ->
         session_labels pf sub proj_dir dry_run d = resolve_from [] labels)
  /\ (forall labels,
         Forall2 (fun s L => Parser.make_session_label s = Ok L)
                 (Parser.sub_sessions sub) labels ->
         separate labels ->
         (forall L, occurrences L labels <= 27) ->
         session_labels pf sub proj_dir dry_run d = Ok (numbered [] labels))
  /\ (forall L, nth_name L 0 = L
                /\ nth_name L 1 = L +:+ "a"
                /\ nth_name L 2 = L +:+ "b"
                /\ nth_name L 26 = L +:+ "z").
Proof.
  intros Hmk. split; [| split; [| split; [| split; [| split; [| split]]]]].
  - intros H. destruct (Parser.sub_sessions sub) as [|s1 [|s2 [|]]] eqn:E;
      try discriminate. injection H as H1 H2.
    rewrite (session_labels_resolve pf Hmk sub _ _ _ ["Visit"; "Visit1"]);
      [reflexivity |].
    rewrite E. repeat constructor; unfold Parser.make_session_label;
      [rewrite H1 | rewrite H2]; reflexivity.
  - intros H. destruct (Parser.sub_sessions sub) as [|s1 [|s2 [|]]] eqn:E;
      try discriminate. injection H as H1 H2.
    rewrite (session_labels_resolve pf Hmk sub _ _ _ ["Visit1"; "Visit1"]);
      [reflexivity |].
    rewrite E. repeat constructor; unfold Parser.make_session_label;
      [rewrite H1 | rewrite H2]; reflexivity.
  - intros L HL Hn.
    rewrite (session_labels_resolve pf Hmk sub _ _ _ _ (same_label_Forall2 L _ HL)).
    change (@nil string) with (take 0 (candidates L)).
    rewrite resolve_same by lia. simpl. now rewrite decide_True by lia.
  - reflexivity.
  - intros labels H. apply (session_labels_resolve pf Hmk sub _ _ _ labels H).
  - intros labels H Hsep Hbound.
    rewrite (session_labels_resolve pf Hmk sub _ _ _ labels H).
    apply (resolve_numbered labels labels Hsep Hbound []). reflexivity.
  - intros L. repeat split.
Qed.

Lemma session_label_suffixes_witness :
  session_labels quiet_platform twin_subject "/w" false empty_disk
  = Ok ["Visit1"; "Visit1a"; "Visit1b"]
  /\ session_labels quiet_platform mixed_subject "/w" false empty_disk
     = Ok ["Baseline"; "Visit1"; "Visit1a"]
  /\ session_labels quiet_platform interfering_subject "/w" false empty_disk
     = Ok ["Visit1a"; "Visit1"; "Visit1b"].
Proof.
  destruct (session_label_suffixes quiet_platform twin_subject "/w" false empty_disk
              (fun _ => eq_refl)) as (_ & _ & H & _).
  destruct (session_label_suffixes quiet_platform mixed_subject "/w" false empty_disk
              (fun _ => eq_refl)) as (_ & _ & _ & _ & _ & Hcount & _).
  destruct (session_label_suffixes quiet_platform interfering_subject "/w" false
              empty_disk (fun _ => eq_refl)) as (_ & _ & _ & _ & Hgen & _).
  split; [| split].
  - apply (H "Visit1").
    + repeat constructor.
    + simpl. lia.
  - apply (Hcount ["Baseline"; "Visit1"; "Visit1"]).
    + repeat constructor.
    + intros L L' c HL HL' _ E.
      apply (f_equal String.length) in E. rewrite length_append in E.
      repeat (apply elem_of_cons in HL as [-> | HL]);
        try (now apply elem_of_nil in HL);
        repeat (apply elem_of_cons in HL' as [-> | HL']);
        try (now apply elem_of_nil in HL'); simpl in E; lia.
    + intros L. unfold occurrences.
      etransitivity; [apply length_filter | simpl; lia].
  - rewrite (Hgen ["Visit1a"; "Visit1"; "Visit1"]); [reflexivity |].
    repeat constructor.
Defined.



(** ** The output name *)

Lemma matches_plain (p : string) :
  plain p = true -> forall t, Options.matches (Options.compile p) t = String.eqb t p.
Proof.
  induction p as [|c p IH]; intros Hp t; simpl.
  - now destruct t.
  - simpl in Hp. apply andb_true_iff in Hp as [Hc Hp].
    apply andb_true_iff in Hc as [H1 H2].
    apply negb_true_iff in H1, H2. rewrite H1, H2.
    destruct t as [|a t]; [reflexivity |]. simpl. now rewrite IH.
Qed.

Lemma star_spec (m : string -> bool) (s : string) :
  Options.star m s = true <-> exists u t, s = u +:+ t /\ m t = true.
Proof.
  induction s as [|c s IH]; simpl.
  - rewrite orb_false_r. split.
    + intros H. now exists "", "".
    + intros [u [t [E H]]]. destruct u; [| discriminate].
      simpl in E. now subst.
  - rewrite orb_true_iff, IH. split.
    + intros [H | [u [t [E H]]]].
      * now exists "", (String c s).
      * exists (String c u), t. simpl. now rewrite E.
    + intros [u [t [E H]]]. destruct u as [|x u]; simpl in E.
      * left. now subst.
      * right. injection E as _ E. now exists u, t.
Qed.

(** What [glob("*.nii.gz")] keeps is what ends with ".nii.gz". *)
Lemma matches_nii_gz (n : string) :
  Options.matches (Options.compile "*.nii.gz") n = endswith n ".nii.gz".
Proof.
  apply eq_true_iff_eq. rewrite endswith_spec.
  change (Options.compile "*.nii.gz") with (Options.Star :: Options.compile ".nii.gz").
  cbn [Options.matches]. rewrite star_spec. unfold Suffix. split.
  - intros [u [t [E H]]]. rewrite matches_plain in H by reflexivity.
    apply String.eqb_eq in H. subst. now exists u.
  - intros [u E]. exists u, ".nii.gz". split; [exact E |].
    now rewrite matches_plain.
Qed.

Lemma glob_nii_gz (ls : string -> list string) (in_dir n : string) :
  n ∈ Options.glob ls in_dir "*.nii.gz" -> endswith n ".nii.gz" = true.
Proof.
  unfold Options.glob. intros H. apply list_elem_of_filter in H as [H _].
  apply Is_true_true in H. now rewrite matches_nii_gz in H.
Qed.

Lemma startswith_long (p v t : string) :
  String.length p <= String.length v ->
  startswith p (v +:+ t) = startswith p v.
Proof.
  revert v. induction p as [|a p IH]; intros v H; [reflexivity |].
  destruct v as [|b v]; simpl in *; [lia |].
  rewrite IH by lia. reflexivity.
Qed.

Lemma startswith_length (p s : string) :
  startswith p s = true -> String.length p <= String.length s.
Proof.
  intros H. apply startswith_spec in H as [v ->]. rewrite length_append. lia.
Qed.

(** ".nii.gz" does not overlap itself: no occurrence starts inside a
    stem shorter than the extension and runs into the extension that
    follows it. *)
Lemma nii_gz_no_overlap (v : string) :
  0 < String.length v < 7 -> startswith ".nii.gz" (v +:+ ".nii.gz") = false.
Proof.
  intros H.
  do 7 (destruct v as [|? v];
        [simpl in H; try lia; cbn -[Ascii.eqb];
         repeat match goal with
                | |- context [Ascii.eqb ?x ?a] =>
                    is_var a; generalize (Ascii.eqb x a); intro
                end;
         repeat match goal with b : bool |- _ => destruct b end; reflexivity |]).
  simpl in H. lia.
Qed.

Lemma startswith_nii_gz_stem (v : string) :
  v <> "" -> startswith ".nii.gz" (v +:+ ".nii.gz") = startswith ".nii.gz" v.
Proof.
  intros Hv. destruct (le_lt_dec 7 (String.length v)) as [H|H].
  - now apply startswith_long.
  - rewrite nii_gz_no_overlap.
    + destruct (startswith ".nii.gz" v) eqn:E; [| reflexivity].
      apply startswith_length in E. simpl in E. lia.
    + destruct v; [contradiction | simpl in *; lia].
Qed.

(** Replacing the extension in a name that ends with it: the stem is
    rewritten on its own and the new suffix comes last. *)
Lemma replace_from_nii_gz (new u : string) :
  forall k, k <= String.length u ->
    replace_from ".nii.gz" new k (u +:+ ".nii.gz")
    = replace_from ".nii.gz" new k u +:+ new.
Proof.
  induction u as [|c u IH]; intros k Hk.
  - simpl in Hk. replace k with 0 by lia. simpl. now rewrite append_nil_r.
  - destruct k as [|k].
    + change (String c u +:+ ".nii.gz") with (String c (u +:+ ".nii.gz")).
      cbn [replace_from].
      change (String c (u +:+ ".nii.gz")) with (String c u +:+ ".nii.gz").
      rewrite startswith_nii_gz_stem by discriminate.
      destruct (startswith ".nii.gz" (String c u)) eqn:E.
      * apply startswith_length in E. simpl in E.
        rewrite IH by (simpl; lia). now rewrite append_assoc.
      * rewrite IH by lia. reflexivity.
    + simpl in Hk. simpl. apply IH. lia.
Qed.

Lemma replace_nii_gz (new stem : string) :
  replace ".nii.gz" new (stem +:+ ".nii.gz") = replace ".nii.gz" new stem +:+ new.
Proof. unfold replace. apply replace_from_nii_gz. lia. Qed.

(** C10. [get_gambas_basename] never raises ValueError: every name
    returned by the glob ends with ".nii.gz", so the function either
    raises FileNotFoundError (the glob is empty) or returns the first
    name with its extension replaced by the suffix of the model. *)
Theorem get_gambas_basename_never_unsupported
        (ls : string -> list string) (in_dir which_model : string) :
  let suffix :=
    if String.eqb which_model "GAMBAS" then "_gambas.nii.gz" else "_ResCNN.nii.gz" in
  (forall msg, Options.get_gambas_basename ls in_dir which_model <> Raise (ValueError msg))
  /\ ((Options.glob ls in_dir "*.nii.gz" = []
       /\ Options.get_gambas_basename ls in_dir which_model
          = Raise (FileNotFoundError "No NIfTI files found in the anat directory."))
      \/ (exists stem rest,
             Options.glob ls in_dir "*.nii.gz" = (stem +:+ ".nii.gz") :: rest
             /\ Options.get_gambas_basename ls in_dir which_model
                = Ok (replace ".nii.gz" suffix stem +:+ suffix))).
Proof.
  intros suffix. unfold Options.get_gambas_basename. fold suffix.
  destruct (Options.glob ls in_dir "*.nii.gz") as [|base rest] eqn:E.
  - split; [discriminate | now left].
  - assert (H : endswith base ".nii.gz" = true).
    { apply (glob_nii_gz ls in_dir). rewrite E. left. }
    rewrite H. split; [discriminate |]. right.
    apply endswith_spec in H as [stem ->].
    exists stem, rest. now rewrite replace_nii_gz.
Qed.

(** ** The unit processor: what every path preserves *)

Lemma only_logged_refl (x : Run.world) : only_logged x x.
Proof. repeat split. Qed.

Lemma only_logged_trans (x y z : Run.world) :
  only_logged x y -> only_logged y z -> only_logged x z.
Proof.
  intros (H1 & H2 & H3 & H4) (K1 & K2 & K3 & K4).
  repeat split; congruence.
Qed.

Lemma handle_id (r : Run.record) (h : Run.handler) :
  Run.h_id (Run.handle r h) = Run.h_id h.
Proof. unfold Run.handle. now destruct (_ <=? _)%nat. Qed.

Lemma only_logged_emit (r : Run.record) (x : Run.world) :
  only_logged x (Run.emit r x).
Proof.
  unfold Run.emit. destruct (_ <=? _)%nat; [| apply only_logged_refl].
  repeat split. simpl. rewrite map_map. apply map_ext. intros h. apply handle_id.
Qed.

Lemma only_logged_emits (rs : list Run.record) (x : Run.world) :
  only_logged x (fold_left (fun x r => Run.emit r x) rs x).
Proof.
  revert x. induction rs as [|r rs IH]; intros x; simpl.
  - apply only_logged_refl.
  - eapply only_logged_trans; [apply only_logged_emit | apply IH].
Qed.

Lemma extends_intro (fr fr' : Run.frame) (added : list string) :
  only_logged (Run.w fr) (Run.w fr') ->
  Run.raw_fnames fr' = Run.raw_fnames fr ->
  Run.logs fr' = Run.logs fr ->
  Run.deriv_fnames fr' = (fun d => d ++ added)%list <$> Run.deriv_fnames fr ->
  extends fr fr'.
Proof. unfold extends. eauto 6. Qed.

Lemma fmap_app_nil (o : option (list string)) : (fun d => d ++ [])%list <$> o = o.
Proof. destruct o; simpl; [now rewrite app_nil_r | reflexivity]. Qed.

Lemma extends_refl (fr : Run.frame) : extends fr fr.
Proof.
  apply extends_intro with (added := []);
    [apply only_logged_refl | reflexivity | reflexivity | now rewrite fmap_app_nil].
Qed.

Lemma extends_trans (a b c : Run.frame) : extends a b -> extends b c -> extends a c.
Proof.
  intros (H1 & H2 & H3 & [l1 H4]) (K1 & K2 & K3 & [l2 K4]).
  apply extends_intro with (added := (l1 ++ l2)%list);
    [eapply only_logged_trans; eauto | congruence | congruence |].
  rewrite K4, H4.
  destruct (Run.deriv_fnames a); simpl; [now rewrite app_assoc | reflexivity].
Qed.

Lemma extends_bound (a b : Run.frame) :
  extends a b -> is_Some (Run.deriv_fnames a) -> is_Some (Run.deriv_fnames b).
Proof.
  intros (_ & _ & _ & [l H]) [d Hd]. rewrite H, Hd. simpl. eauto.
Qed.

Lemma calm_gentle {A} (m : M Run.frame A) : calm m -> gentle m.
Proof. intros H fr. apply H. Qed.

Lemma gentle_ret {A} (a : A) : gentle (ret (S := Run.frame) a).
Proof. intros fr. apply extends_refl. Qed.

Lemma calm_ret {A} (a : A) : calm (ret (S := Run.frame) a).
Proof. intros fr. split; [apply extends_refl | intros _; now exists a]. Qed.

Lemma gentle_lift {A} (r : result A) : gentle (lift (S := Run.frame) r).
Proof. intros fr. apply extends_refl. Qed.

Lemma calm_in_world (f : Run.world -> Run.world) :
  (forall x, only_logged x (f x)) -> calm (Run.in_world f).
Proof.
  intros Hf fr. split; [| intros _; now exists tt].
  apply extends_intro with (added := []); simpl;
    [apply Hf | reflexivity | reflexivity | now rewrite fmap_app_nil].
Qed.

Lemma calm_log_as (l : Run.level) (msg : string) : calm (Run.log_as l msg).
Proof. apply calm_in_world. intros x. apply only_logged_emit. Qed.

Lemma calm_logprint (E : Run.collab) (msg : string) : calm (Run.gb_logprint E msg).
Proof. apply calm_in_world. intros x. apply only_logged_emits. Qed.

Lemma calm_deriv_append (fname : string) : calm (Run.deriv_append fname).
Proof.
  intros fr. unfold Run.deriv_append.
  destruct (Run.deriv_fnames fr) as [d|] eqn:E; simpl.
  - split; [| intros _; now exists tt].
    apply extends_intro with (added := [fname]); simpl;
      [apply only_logged_refl | reflexivity | reflexivity | now rewrite E].
  - split; [apply extends_refl | intros [? ?]; discriminate].
Qed.

Lemma gentle_bind {A B} (m : M Run.frame A) (k : A -> M Run.frame B) :
  gentle m -> (forall a, gentle (k a)) -> gentle (bindM m k).
Proof.
  intros Hm Hk fr. unfold bindM. specialize (Hm fr).
  destruct (m fr) as [[a|e] fr1]; simpl in *; [| exact Hm].
  eapply extends_trans; [exact Hm | apply Hk].
Qed.

Lemma calm_bind {A B} (m : M Run.frame A) (k : A -> M Run.frame B) :
  calm m -> (forall a, calm (k a)) -> calm (bindM m k).
Proof.
  intros Hm Hk fr. unfold bindM. destruct (Hm fr) as [H1 H2].
  destruct (m fr) as [[a|e] fr1]; simpl in *.
  - destruct (Hk a fr1) as [K1 K2]. split.
    + eapply extends_trans; eauto.
    + intros Hb. apply K2. eapply extends_bound; eauto.
  - split; [exact H1 |]. intros Hb. destruct (H2 Hb) as [a Ha]. discriminate.
Qed.

(** A [try] whose handler is calm is calm, whatever its block raises. *)
Lemma calm_try {A} (m : M Run.frame A) (h : exn -> M Run.frame A) :
  gentle m -> (forall e, calm (h e)) -> calm (try_except m h).
Proof.
  intros Hm Hh fr. unfold try_except. specialize (Hm fr).
  destruct (m fr) as [[a|e] fr1]; simpl in *.
  - split; [exact Hm | intros _; now exists a].
  - destruct (Hh e fr1) as [K1 K2]. split.
    + eapply extends_trans; eauto.
    + intros Hb. apply K2. eapply extends_bound; eauto.
Qed.

Lemma calm_record_outcome (fname : option string) : calm (Run.record_outcome fname).
Proof.
  unfold Run.record_outcome. destruct (Run.truthy fname);
    repeat (apply calm_bind; [| intros ?]);
    auto using calm_deriv_append, calm_log_as.
Qed.

Ltac gentle_steps :=
  repeat first
    [ apply gentle_ret
    | apply gentle_lift
    | apply calm_gentle, calm_log_as
    | apply calm_gentle, calm_logprint
    | apply calm_gentle, calm_record_outcome
    | apply gentle_bind; [| intros ?]
    | match goal with
      | |- gentle (match ?x with _ => _ end) => destruct x
      end ].

(** One turn of the loop over the candidates never raises, and leaves
    behind only log records and appended derivative paths. *)
Lemma process_file_calm (mk : dict Options.pyval -> result Run.opt) (E : Run.collab)
      (sub ses which_model : string) (config : dict string) (f : string) :
  calm (Run.process_file mk E sub ses which_model config f).
Proof.
  unfold Run.process_file. apply calm_bind.
  - apply calm_try.
    + gentle_steps.
    + intros e. apply calm_bind; [apply calm_log_as | intros; apply calm_ret].
  - intros [|fname]; [apply calm_ret | apply calm_record_outcome].
Qed.

Lemma calm_for_each {A} (body : A -> M Run.frame unit) (l : list A) :
  (forall x, calm (body x)) -> calm (for_each body l).
Proof.
  intros Hb. induction l as [|x l IH]; simpl.
  - apply calm_ret.
  - apply calm_bind; [apply Hb | intros _; exact IH].
Qed.

(** ** The unit processor: the [try] statement and what follows it *)

(** The [try] statement with its handler always completes. When
    candidate discovery raised, [raw_fnames] and [deriv_fnames] are
    still unbound after it; otherwise both are bound and [raw_fnames]
    holds the candidates, axial first. *)
Lemma session_body_spec (mk : dict Options.pyval -> result Run.opt) (E : Run.collab)
      (sub ses which_model : string) (config : dict string) (x1 : Run.world) :
  exists x2,
    only_logged x1 x2
    /\ match Run.parse_input_files E sub ses with
       | Raise _ =>
           Run.session_body mk E sub ses which_model config
             {| Run.w := x1; Run.raw_fnames := None; Run.deriv_fnames := None; Run.logs := [] |}
           = (Ok tt, {| Run.w := x2; Run.raw_fnames := None;
                        Run.deriv_fnames := None; Run.logs := [] |})
       | Ok (axi, sag, cor) =>
           exists deriv,
             Run.session_body mk E sub ses which_model config
               {| Run.w := x1; Run.raw_fnames := None; Run.deriv_fnames := None; Run.logs := [] |}
             = (Ok tt, {| Run.w := x2; Run.raw_fnames := Some (axi ++ sag ++ cor)%list;
                          Run.deriv_fnames := Some deriv; Run.logs := [] |})
       end.
Proof.
  unfold Run.session_body, try_except.
  unfold bindM at 1. unfold Run.log_as at 1, Run.in_world at 1.
  unfold bindM at 1, lift.
  destruct (Run.parse_input_files E sub ses) as [[[axi sag] cor]|e].
  - unfold bindM at 1. unfold Run.gb_logprint at 1, Run.in_world at 1.
    unfold bindM at 1, Run.bind_deriv at 1. unfold bindM at 1, Run.bind_raw at 1.
    cbn [Run.w Run.raw_fnames Run.deriv_fnames Run.logs].
    match goal with |- context [for_each ?b ?l ?fr] =>
      destruct (calm_for_each b l
                  (process_file_calm mk E sub ses which_model config) fr) as [Hx Hok];
      destruct Hok as [[] Hok]; [simpl; eauto |];
      destruct (for_each b l fr) as [r fr2] end.
    simpl in Hok. subst r. destruct Hx as (H1 & H2 & H3 & [added H4]).
    destruct fr2 as [x2 raw2 deriv2 logs2]. simpl in *. subst.
    exists x2. split; [| now exists ([] ++ added)%list].
    eapply only_logged_trans; [| exact H1].
    eapply only_logged_trans; [apply only_logged_emit | apply only_logged_emits].
  - unfold Run.log_as, Run.in_world. simpl.
    eexists. split; [| reflexivity].
    eapply only_logged_trans; apply only_logged_emit.
Qed.
Lemma filter_ids (id : nat) (hs : list Run.handler) :
  map Run.h_id (filter (fun h => Run.h_id h ≠ id) hs)
  = filter (fun i => i ≠ id) (map Run.h_id hs).
Proof.
  induction hs as [|h hs IH]; [reflexivity |].
  simpl. rewrite !filter_cons. destruct (decide (Run.h_id h ≠ id)); simpl; now rewrite IH.
Qed.

Lemma filter_absent (id : nat) (ids : list nat) :
  id ∉ ids -> filter (fun i => i ≠ id) ids = ids.
Proof.
  induction ids as [|i ids IH]; intros H; [reflexivity |].
  apply not_elem_of_cons in H as [H1 H2].
  rewrite filter_cons, decide_True by congruence. now rewrite IH.
Qed.

Lemma removeHandler_ids (id : nat) (hs : list Run.handler) (ids : list nat) :
  map Run.h_id hs = (ids ++ [id])%list -> id ∉ ids ->
  map Run.h_id (filter (fun h => Run.h_id h ≠ id) hs) = ids.
Proof.
  intros H Hid. rewrite filter_ids, H, filter_app, filter_absent by exact Hid.
  rewrite filter_cons, decide_False by (intros K; now apply K).
  apply app_nil_r.
Qed.

Lemma new_handler_id_fresh (x : Run.world) :
  Run.new_handler_id x ∉ map Run.h_id (Run.handlers x).
Proof. apply infinite_is_fresh. Qed.

(** What every call leaves behind. When the log can be written: the
    log file, the handlers of before, and the result that the outcome
    of discovery decides. When it cannot: the exception of the write,
    with the handler of the call still attached. *)
Lemma fw_process_subject_with_paths
      (mk : dict Options.pyval -> result Run.opt) (E : Run.collab)
      (sub ses which_model : string) (config : dict string) (x : Run.world) :
  exists lines,
    let r := Run.fw_process_subject_with mk E sub ses which_model config x in
    Run.root_level r.2 = Run.root_level x
    /\ Run.analyses r.2 = Run.analyses x
    /\ match log_failure E (Run.log_filename E sub ses) with
       | None =>
           Run.fs r.2 = <[Run.log_filename E sub ses := Run.Log lines]> (Run.fs x)
           /\ map Run.h_id (Run.handlers r.2) = map Run.h_id (Run.handlers x)
           /\ match Run.parse_input_files E sub ses with
              | Raise _ => r.1 = Raise (UnboundLocalError "raw_fnames")
              | Ok (axi, sag, cor) =>
                  exists deriv,
                    r.1 = Ok ((axi ++ sag ++ cor)%list, deriv,
                              [Run.log_filename E sub ses])
              end
       | Some e =>
           r.1 = Raise e
           /\ map Run.h_id (Run.handlers r.2)
              = (map Run.h_id (Run.handlers x) ++ [Run.new_handler_id x])%list
           /\ Run.fs r.2
              = match Run.open_error E (Run.log_filename E sub ses) with
                | Some _ => Run.fs x
                | None => <[Run.log_filename E sub ses := Run.Log []]> (Run.fs x)
                end
       end.
Proof.
  unfold Run.fw_process_subject_with, Run.session_frame.
  set (id := Run.new_handler_id x).
  set (x1 := Run.addHandler _ x).
  destruct (session_body_spec mk E sub ses which_model config x1)
    as [x2 [(H1 & H2 & H3 & H4) Hbody]].
  exists (Run.getvalue id x2).
  assert (Hids : map Run.h_id (filter (fun h => Run.h_id h ≠ id) (Run.handlers x2))
                 = map Run.h_id (Run.handlers x)).
  { apply removeHandler_ids; [| apply new_handler_id_fresh].
    rewrite H4. subst x1. simpl. now rewrite map_app. }
  assert (Hkept : map Run.h_id (Run.handlers x2)
                  = (map Run.h_id (Run.handlers x) ++ [id])%list).
  { rewrite H4. subst x1. simpl. now rewrite map_app. }
  unfold bindM, try_finally, Run.session_finally, Run.lift_world, Run.write_text,
    log_failure.
  destruct (Run.parse_input_files E sub ses) as [[[axi sag] cor]|e].
  - destruct Hbody as [deriv ->]. cbn [Run.w bindM].
    destruct (Run.open_error E (Run.log_filename E sub ses)) as [e1|];
      [simpl; auto |].
    destruct (Run.write_error E (Run.log_filename E sub ses)) as [e2|]; simpl.
    + repeat split; try assumption. now rewrite H1.
    + repeat split; try assumption; [now rewrite H1 | now exists deriv].
  - rewrite Hbody. cbn [Run.w bindM].
    destruct (Run.open_error E (Run.log_filename E sub ses)) as [e1|];
      [simpl; auto |].
    destruct (Run.write_error E (Run.log_filename E sub ses)) as [e2|]; simpl.
    + repeat split; try assumption. now rewrite H1.
    + repeat split; try assumption. now rewrite H1.
Qed.

(** ** The unit processor: candidates that are passed over *)

Ltac logged :=
  repeat first
    [ apply only_logged_refl
    | eapply only_logged_trans; [| apply only_logged_emit]
    | eapply only_logged_trans; [| apply only_logged_emits] ].

Lemma process_file_skips (mk : dict Options.pyval -> result Run.opt) (E : Run.collab)
      (sub ses which_model : string) (config : dict string) (f : string)
      (fr : Run.frame) :
  skips mk E sub ses which_model config f ->
  exists x', only_logged (Run.w fr) x'
             /\ Run.process_file mk E sub ses which_model config f fr
                = (Ok tt, with_world x' fr).
Proof.
  intros [[e H] | [o [H1 H2]]];
    unfold Run.process_file, try_except, bindM, Run.gb_logprint, Run.log_as,
      Run.in_world, lift, ret, with_world; simpl.
  - rewrite H. simpl. eexists. split; [| reflexivity]. logged.
  - rewrite H1. simpl. rewrite H2. simpl. eexists. split; [| reflexivity]. logged.
Qed.

Lemma for_each_skips (mk : dict Options.pyval -> result Run.opt) (E : Run.collab)
      (sub ses which_model : string) (config : dict string) (l : list string) :
  (forall f, f ∈ l -> skips mk E sub ses which_model config f) ->
  forall fr,
  exists x', only_logged (Run.w fr) x'
             /\ for_each (Run.process_file mk E sub ses which_model config) l fr
                = (Ok tt, with_world x' fr).
Proof.
  induction l as [|f l IH]; intros Hl fr.
  - exists (Run.w fr). split; [apply only_logged_refl | now destruct fr].
  - simpl. unfold bindM.
    destruct (process_file_skips mk E sub ses which_model config f fr) as [x1 [L1 ->]];
      [apply Hl; left |].
    destruct (IH (fun g Hg => Hl g (list_elem_of_further _ _ _ Hg)) (with_world x1 fr))
      as [x2 [L2 ->]].
    exists x2. split; [eapply only_logged_trans; eauto | reflexivity].
Qed.

Lemma session_body_discovered (mk : dict Options.pyval -> result Run.opt) (E : Run.collab)
      (sub ses which_model : string) (config : dict string) (x1 : Run.world)
      (axi sag cor : list string) :
  Run.parse_input_files E sub ses = Ok (axi, sag, cor) ->
  exists x1',
    only_logged x1 x1'
    /\ Run.session_body mk E sub ses which_model config
         {| Run.w := x1; Run.raw_fnames := None; Run.deriv_fnames := None; Run.logs := [] |}
       = try_except
           (for_each (Run.process_file mk E sub ses which_model config)
                     (axi ++ sag ++ cor)%list)
           (fun e => Run.log_as Run.ERROR
                       ("Error processing subject " +:+ sub +:+ " session " +:+ ses
                        +:+ ": " +:+ Run.str_exn e))
           {| Run.w := x1'; Run.raw_fnames := Some (axi ++ sag ++ cor)%list;
              Run.deriv_fnames := Some []; Run.logs := [] |}.
Proof.
  intros H. eexists. split; [| unfold Run.session_body, try_except, bindM, lift;
                                 simpl; rewrite H; reflexivity].
  logged.
Qed.

Lemma fw_process_subject_with_result
      (mk : dict Options.pyval -> result Run.opt) (E : Run.collab)
      (sub ses which_model : string) (config : dict string) (x x2 : Run.world)
      (raw deriv : list string) :
  Run.session_body mk E sub ses which_model config
    (Run.session_frame x).2
  = (Ok tt, {| Run.w := x2; Run.raw_fnames := Some raw;
               Run.deriv_fnames := Some deriv; Run.logs := [] |}) ->
  (Run.fw_process_subject_with mk E sub ses which_model config x).1
  = match log_failure E (Run.log_filename E sub ses) with
    | None => Ok (raw, deriv, [Run.log_filename E sub ses])
    | Some e => Raise e
    end.
Proof.
  intros H. unfold Run.fw_process_subject_with.
  destruct (Run.session_frame x) as [id fr0]. simpl in H.
  unfold bindM, try_finally, Run.session_finally, Run.lift_world, Run.write_text,
    log_failure.
  rewrite H. cbn [Run.w bindM].
  destruct (Run.open_error E (Run.log_filename E sub ses)) as [e1|]; [reflexivity |].
  destruct (Run.write_error E (Run.log_filename E sub ses)) as [e2|]; reflexivity.
Qed.

(** When every candidate is passed over, the function returns the
    candidates, no derivative and the log file, unless the log cannot
    be written. *)
Lemma fw_process_subject_with_skips
      (mk : dict Options.pyval -> result Run.opt) (E : Run.collab)
      (sub ses which_model : string) (config : dict string) (x : Run.world)
      (axi sag cor : list string) :
  Run.parse_input_files E sub ses = Ok (axi, sag, cor) ->
  (forall f, f ∈ (axi ++ sag ++ cor)%list -> skips mk E sub ses which_model config f) ->
  (Run.fw_process_subject_with mk E sub ses which_model config x).1
  = match log_failure E (Run.log_filename E sub ses) with
    | None => Ok ((axi ++ sag ++ cor)%list, [], [Run.log_filename E sub ses])
    | Some e => Raise e
    end.
Proof.
  intros Hp Hs.
  destruct (session_body_discovered mk E sub ses which_model config
              (Run.w (Run.session_frame x).2) axi sag cor Hp) as [x1' [_ Hb]].
  unfold try_except in Hb.
  match type of Hb with context [for_each ?b ?l ?fr] =>
    destruct (for_each_skips mk E sub ses which_model config l Hs fr) as [x2 [_ Hf]] end.
  rewrite Hf in Hb.
  eapply fw_process_subject_with_result. unfold Run.session_frame. simpl.
  exact Hb.
Qed.

(** The class of [options/test_options.py] does not accept the keyword
    [image] that [run.py] passes: the call raises TypeError before any
    attribute is set. *)
Lemma TestOptions_rejects_image (E : Run.collab) (sub ses which_model : string)
      (config : dict string) (f : string) :
  Run.TestOptions_parse E (Run.options_keywords sub ses which_model config f)
  = Raise (TypeError "TestOptions.__init__() got an unexpected keyword argument 'image'").
Proof. reflexivity. Qed.

(** With that class, no candidate ever yields a derivative. *)
Lemma fw_process_subject_no_derivative (E : Run.collab) (sub ses which_model : string)
      (config : dict string) (x : Run.world) (axi sag cor : list string) :
  Run.parse_input_files E sub ses = Ok (axi, sag, cor) ->
  (Run.fw_process_subject E sub ses which_model config x).1
  = match log_failure E (Run.log_filename E sub ses) with
    | None => Ok ((axi ++ sag ++ cor)%list, [], [Run.log_filename E sub ses])
    | Some e => Raise e
    end.
Proof.
  intros Hp. unfold Run.fw_process_subject.
  apply (fw_process_subject_with_skips _ E sub ses which_model config x axi sag cor Hp).
  intros f _. left. eexists. apply TestOptions_rejects_image.
Qed.

(** ** Scenario A and its variants *)

Example get_gambas_basename_A :
  Parser.parse_config_model true = "GAMBAS"
  /\ Options.get_gambas_basename ls_A anat_dir "GAMBAS"
     = Ok "sub-01_ses-1_T2w_axi_gambas.nii.gz"
  /\ Options.get_gambas_basename ls_A anat_dir (Parser.parse_config_model false)
     = Ok "sub-01_ses-1_T2w_axi_ResCNN.nii.gz".
Proof. repeat split; vm_compute; reflexivity. Qed.

(** Once the options can be set up, the statement [if fname: ...] runs
    twice in a turn and the derivative is listed twice. *)
Example derivative_listed_twice :
  (Run.fw_process_subject_with (options_with_image env_A) env_A "01" "1" "GAMBAS" []
     world_A).1
  = Ok ([raw_A], [derivative_A; derivative_A], [log_A]).
Proof. vm_compute. reflexivity. Qed.

(** C2. When candidate discovery raises, the handler of the function
    swallows the exception and the [finally] block runs, but the
    [return] statement then reads [raw_fnames], which was never
    assigned: UnboundLocalError leaves the unit processor, and [main],
    which has no handler around the call, ends with it. (When the log
    file cannot be written either, the exception of the write leaves
    them instead: an exception escapes in every case.) *)
Theorem discovery_failure_escapes (E : Run.collab) (sub ses which_model : string)
        (config : dict string) (mf : Run.manifest) (x : Run.world) (e : exn)
        (session : string) (rest : dict string) (more : dict (dict string)) :
  Run.parse_input_files E sub ses = Raise e ->
  let escaping :=
    match log_failure E (Run.log_filename E sub ses) with
    | None => UnboundLocalError "raw_fnames"
    | Some e' => e'
    end in
  (Run.fw_process_subject E sub ses which_model config x).1 = Raise escaping
  /\ (Run.main E which_model config mf ((sub, (ses, session) :: rest) :: more) x).1
    = Raise escaping.
Proof.
  intros He escaping.
  assert (H : (Run.fw_process_subject E sub ses which_model config x).1
              = Raise escaping).
  { destruct (fw_process_subject_with_paths (Run.TestOptions_parse E) E sub ses
                which_model config x) as [lines (_ & _ & H)].
    cbv zeta in H. subst escaping. unfold Run.fw_process_subject.
    destruct (log_failure E (Run.log_filename E sub ses)) as [e'|].
    - now destruct H as [H _].
    - destruct H as (_ & _ & H). now rewrite He in H. }
  split; [exact H |].
  unfold Run.main, Run.main_with. simpl. unfold bindM at 1. simpl.
  unfold bindM at 1. unfold Run.session_turn at 1. unfold bindM at 1.
  destruct (Run.fw_process_subject E sub ses which_model config x) as [r x'].
  simpl in H. now subst r.
Qed.

Lemma discovery_failure_escapes_witness :
  (Run.main env_lost "GAMBAS" [] manifest_A [("01", [("1", "session-1")])] world_A).1
  = Raise (UnboundLocalError "raw_fnames").
Proof.
  apply (discovery_failure_escapes env_lost "01" "1" "GAMBAS" [] manifest_A world_A
           (RuntimeError "layout query failed") "session-1" [] []).
  reflexivity.
Defined.

(** C9, on the path of a session-level exception: the log is written to
    the file named after subject and session and the temporary handler
    is detached, but no log list is returned, since the function ends
    by raising UnboundLocalError. (When the log file cannot be written,
    the exception of the write leaves the function, the handler stays
    attached to the root logger, and no log list is returned
    either.) *)
Theorem log_written_but_not_returned (E : Run.collab) (sub ses which_model : string)
        (config : dict string) (x : Run.world) (e : exn) :
  Run.parse_input_files E sub ses = Raise e ->
  let r := Run.fw_process_subject E sub ses which_model config x in
  Run.log_filename E sub ses
    = join (Run.work_dir E) ("sub-" +:+ sub +:+ "_ses-" +:+ ses +:+ "_log.txt")
  /\ match log_failure E (Run.log_filename E sub ses) with
     | None =>
         (exists lines, Run.fs r.2 !! Run.log_filename E sub ses = Some (Run.Log lines))
         /\ map Run.h_id (Run.handlers r.2) = map Run.h_id (Run.handlers x)
         /\ r.1 = Raise (UnboundLocalError "raw_fnames")
     | Some e' =>
         map Run.h_id (Run.handlers r.2)
         = (map Run.h_id (Run.handlers x) ++ [Run.new_handler_id x])%list
         /\ r.1 = Raise e'
     end.
Proof.
  intros He r. split; [reflexivity |].
  destruct (fw_process_subject_with_paths (Run.TestOptions_parse E) E sub ses
              which_model config x) as [lines (_ & _ & H)].
  cbv zeta in H. fold (Run.fw_process_subject E sub ses which_model config x) in H.
  fold r in H.
  destruct (log_failure E (Run.log_filename E sub ses)) as [e'|].
  - destruct H as (H1 & H2 & _). split; assumption.
  - destruct H as (H1 & H2 & H3). rewrite He in H3.
    split; [| split; assumption].
    exists lines. rewrite H1. apply lookup_insert_eq.
Qed.

Lemma log_written_but_not_returned_witness :
  let r := Run.fw_process_subject env_lost "01" "1" "GAMBAS" [] world_A in
  Run.fs r.2 !! log_A
    = Some (Run.Log [(Run.INFO, "Processing subject 01 session 1");
                     (Run.ERROR, "Error processing subject 01 session 1: layout query failed")])
  /\ map Run.h_id (Run.handlers r.2) = [0]
  /\ r.1 = Raise (UnboundLocalError "raw_fnames").
Proof.
  destruct (log_written_but_not_returned env_lost "01" "1" "GAMBAS" [] world_A
              (RuntimeError "layout query failed") eq_refl) as (_ & _ & H2 & H3).
  split; [vm_compute; reflexivity | split; [exact H2 | exact H3]].
Defined.

(** C3, scenario A: a GPU is there, so the model is GAMBAS and the
    output name would be sub-01_ses-1_T2w_axi_gambas.nii.gz; but the
    call of [TestOptions] with the keyword [image] raises TypeError,
    the candidate is given up, and the function returns the raw path,
    no derivative and the log file. *)
Theorem scenario_A_yields_no_derivative :
  Parser.parse_config_model true = "GAMBAS"
  /\ Run.TestOptions_parse env_A (Run.options_keywords "01" "1" "GAMBAS" [] raw_A)
     = Raise (TypeError "TestOptions.__init__() got an unexpected keyword argument 'image'")
  /\ (Run.fw_process_subject env_A "01" "1" (Parser.parse_config_model true) [] world_A).1
     = Ok ([raw_A], [], [log_A])
  /\ basename log_A = "sub-01_ses-1_log.txt".
Proof. repeat split; vm_compute; reflexivity. Qed.

(** ** The run supervisor *)

Lemma gb_logprint_w_logged (E : Run.collab) (msg : string) (x : Run.world) :
  exists x', Run.gb_logprint_w E msg x = (Ok tt, x') /\ only_logged x x'.
Proof. eexists. split; [reflexivity | apply only_logged_emits]. Qed.

(** One deletion: it never raises; the path is gone afterwards unless
    its removal failed, the other paths are as before, and neither an
    analysis nor a handler is touched. *)
Lemma remove_raw_spec (E : Run.collab) (p : string) (x : Run.world) :
  exists x',
    Run.remove_raw E p x = (Ok tt, x')
    /\ Run.analyses x' = Run.analyses x
    /\ map Run.h_id (Run.handlers x') = map Run.h_id (Run.handlers x)
    /\ Run.fs x' = match Run.remove_error E p with
                   | None => delete p (Run.fs x)
                   | Some _ => Run.fs x
                   end.
Proof.
  unfold Run.remove_raw, try_except, bindM, Run.remove.
  destruct (Run.fs x !! p) as [c|] eqn:Hp.
  - destruct (Run.remove_error E p) as [e|].
    + match goal with |- context [Run.gb_logprint_w E ?m x] =>
        destruct (gb_logprint_w_logged E m x) as [x' [-> (H1 & _ & H3 & H4)]] end.
      exists x'. auto.
    + destruct (gb_logprint_w_logged E ("Deleted raw file: " +:+ p)
                  (Run.set_fs (delete p (Run.fs x)) x))
        as [x' [-> (H1 & _ & H3 & H4)]].
      exists x'. auto.
  - match goal with |- context [Run.gb_logprint_w E ?m x] =>
      destruct (gb_logprint_w_logged E m x) as [x' [-> (H1 & _ & H3 & H4)]] end.
    exists x'. split; [reflexivity |]. split; [exact H3 |]. split; [exact H4 |].
    rewrite H1. destruct (Run.remove_error E p); [reflexivity |].
    symmetry. now apply delete_id.
Qed.

Lemma remove_raw_loop (E : Run.collab) (raw : list string) :
  forall x,
  exists x',
    for_each (Run.remove_raw E) raw x = (Ok tt, x')
    /\ Run.analyses x' = Run.analyses x
    /\ map Run.h_id (Run.handlers x') = map Run.h_id (Run.handlers x)
    /\ (forall p, p ∈ raw ->
                  Run.fs x' !! p = match Run.remove_error E p with
                                   | None => None
                                   | Some _ => Run.fs x !! p
                                   end)
    /\ (forall p, p ∉ raw -> Run.fs x' !! p = Run.fs x !! p).
Proof.
  induction raw as [|q raw IH]; intros x; simpl.
  - exists x. split; [reflexivity |]. split; [reflexivity |]. split; [reflexivity |].
    split; [intros p Hp; now apply elem_of_nil in Hp | reflexivity].
  - unfold bindM. destruct (remove_raw_spec E q x) as [x1 (-> & A1 & I1 & F1)].
    destruct (IH x1) as [x2 (-> & A2 & I2 & G1 & G2)].
    exists x2. split; [reflexivity |]. split; [congruence |]. split; [congruence |].
    assert (Hq : forall p, Run.fs x1 !! p
                           = if decide (p = q)
                             then match Run.remove_error E q with
                                  | None => None
                                  | Some _ => Run.fs x !! q
                                  end
                             else Run.fs x !! p).
    { intros p. rewrite F1. destruct (decide (p = q)) as [-> | Hne].
      - destruct (Run.remove_error E q); [reflexivity | apply lookup_delete_eq].
      - destruct (Run.remove_error E q); [reflexivity | now apply lookup_delete_ne]. }
    split.
    + intros p Hp. destruct (decide (p ∈ raw)) as [Hin|Hin].
      * rewrite (G1 p Hin). destruct (Run.remove_error E p) eqn:Ep; [| reflexivity].
        rewrite Hq. destruct (decide (p = q)) as [-> | Hne]; [| reflexivity].
        now rewrite Ep.
      * apply elem_of_cons in Hp as [-> | Hp]; [| contradiction].
        rewrite (G2 q Hin), Hq. now rewrite decide_True by reflexivity.
    + intros p Hp. apply not_elem_of_cons in Hp as [Hne Hp].
      rewrite (G2 p Hp), Hq. now rewrite decide_False by exact Hne.
Qed.

(** C1. For a session with candidates and no derivative, [main] deletes
    every raw file of the session and goes on to the next session: the
    [continue] comes before the creation of the analysis, so no analysis
    is created and nothing is uploaded. (A raw file whose removal
    raises stays where it is: the exception is caught and logged.) *)
Theorem failed_session_is_not_recorded
        (process : string -> string -> M Run.world (list string * list string * list string))
        (E : Run.collab) (config : dict string) (mf : Run.manifest)
        (sub ses session : string) (x : Run.world)
        (raw_fnames logs : list string) :
  (process sub ses x).1 = Ok (raw_fnames, [], logs) ->
  raw_fnames <> [] ->
  let r := Run.session_turn process E config mf sub ses session x in
  r.1 = Ok tt
  /\ Run.analyses r.2 = Run.analyses (process sub ses x).2
  /\ (forall p, p ∈ raw_fnames ->
                Run.fs r.2 !! p = match Run.remove_error E p with
                                  | None => None
                                  | Some _ => Run.fs (process sub ses x).2 !! p
                                  end)
  /\ (forall p, p ∉ raw_fnames -> Run.fs r.2 !! p = Run.fs (process sub ses x).2 !! p).
Proof.
  intros Hr Hraw r. subst r. unfold Run.session_turn, bindM.
  destruct (process sub ses x) as [res x1]. cbn [fst snd] in *. subst res.
  destruct raw_fnames as [|p0 raw]; [contradiction |].
  unfold Run.gb_logprint_w. cbn -[for_each String.append].
  match goal with |- context [for_each (Run.remove_raw E) ?l ?y] =>
    destruct (remove_raw_loop E l y) as [x3 (Hx & A3 & _ & G1 & G2)];
    pose proof (only_logged_emits
                  (Run.logprint E ("[ERROR] Processing failed for " +:+ sub +:+ "/" +:+ ses
                                   +:+ ": No derived output.")) x1) as (F & _ & A & _)
  end.
  rewrite !Hx. cbn [fst snd].
  split; [reflexivity |]. split; [congruence |]. split.
  - intros p Hp. rewrite (G1 p Hp). now rewrite F.
  - intros p Hp. rewrite G2 by exact Hp. now rewrite F.
Qed.

Lemma failed_session_is_not_recorded_witness :
  let r := Run.session_turn
             (fun sub ses => Run.fw_process_subject env_A sub ses "GAMBAS" [])
             env_A [] manifest_A "01" "1" "session-1" world_A in
  r.1 = Ok tt /\ Run.analyses r.2 = [] /\ Run.fs r.2 !! raw_A = None.
Proof.
  destruct (failed_session_is_not_recorded
              (fun sub ses => Run.fw_process_subject env_A sub ses "GAMBAS" [])
              env_A [] manifest_A "01" "1" "session-1" world_A [raw_A] [log_A])
    as (H1 & H2 & H3 & _).
  - vm_compute. reflexivity.
  - discriminate.
  - split; [exact H1 |]. split.
    + rewrite H2. vm_compute. reflexivity.
    + apply (H3 raw_A). left.
Defined.

(** When the log file cannot be opened, the exception of [open] leaves
    the unit processor, the handler of the call stays attached beside
    the one of the gear, and no file is touched. *)
Example log_write_failure_escapes :
  let r := Run.fw_process_subject env_readonly "01" "1" "GAMBAS" [] world_A in
  r.1 = Raise (OSError "Read-only file system")
  /\ map Run.h_id (Run.handlers r.2) = [0; 1]
  /\ Run.fs r.2 = Run.fs world_A.
Proof. repeat split; vm_compute; reflexivity. Qed.

(** When the raw file cannot be removed, the run ends normally all the
    same and the file is still there. *)
Example failed_removal_leaves_file :
  let r := Run.main env_locked "GAMBAS" [] manifest_A [("01", [("1", "session-1")])]
             world_A in
  r.1 = Ok tt
  /\ Run.analyses r.2 = []
  /\ Run.fs r.2 !! raw_A = Some Run.Data.
Proof. repeat split; vm_compute; reflexivity. Qed.

(** The whole run of scenario A: the raw file is deleted, the log file
    stays in the work directory, and the platform receives nothing. *)
Example main_A_publishes_nothing :
  let r := Run.main env_A "GAMBAS" [] manifest_A [("01", [("1", "session-1")])] world_A in
  r.1 = Ok tt
  /\ Run.analyses r.2 = []
  /\ Run.fs r.2 !! raw_A = None
  /\ is_Some (Run.fs r.2 !! log_A).
Proof. repeat split; vm_compute; eauto. Qed.

(** ** The label rules *)

Lemma replace_char_without (c : ascii) (s : string) :
  replace (String c "") "" s = without c s.
Proof.
  unfold replace. induction s as [|a s IH]; [reflexivity |].
  cbn [replace_from startswith String.length Nat.sub without].
  rewrite andb_true_r. destruct (Ascii.eqb c a); simpl; now rewrite IH.
Qed.

Lemma replace_char_turned (c d : ascii) (s : string) :
  replace (String c "") (String d "") s = turned c d s.
Proof.
  unfold replace. induction s as [|a s IH]; [reflexivity |].
  cbn [replace_from startswith String.length Nat.sub turned].
  rewrite andb_true_r. destruct (Ascii.eqb c a); simpl; now rewrite IH.
Qed.

Lemma occurs_cons (c a : ascii) (s : string) :
  occurs c (String a s) <-> a = c \/ occurs c s.
Proof. reflexivity. Qed.

Lemma occurs_without (a c : ascii) (s : string) :
  occurs a (without c s) <-> occurs a s /\ a <> c.
Proof.
  induction s as [|b s IH]; simpl.
  - unfold occurs. simpl. tauto.
  - destruct (Ascii.eqb_spec c b) as [->|Hne].
    + rewrite IH, occurs_cons. intuition congruence.
    + rewrite !occurs_cons, IH. intuition congruence.
Qed.

Lemma without_absent (c : ascii) (s : string) :
  ~ occurs c s -> without c s = s.
Proof.
  induction s as [|b s IH]; intros H; [reflexivity |]. simpl.
  rewrite occurs_cons in H. destruct (Ascii.eqb_spec c b) as [->|Hne].
  - exfalso. apply H. now left.
  - rewrite IH; [reflexivity | tauto].
Qed.

Lemma occurs_turned (a c d : ascii) (s : string) :
  occurs a (turned c d s) <-> (occurs a s /\ a <> c) \/ (a = d /\ occurs c s).
Proof.
  induction s as [|b s IH]; simpl.
  - unfold occurs. simpl. tauto.
  - rewrite !occurs_cons, IH. destruct (Ascii.eqb_spec c b) as [->|Hne].
    + destruct (Ascii.eqb_spec a b); intuition congruence.
    + intuition congruence.
Qed.

Lemma turned_absent (c d : ascii) (s : string) :
  ~ occurs c s -> turned c d s = s.
Proof.
  induction s as [|b s IH]; intros H; [reflexivity |]. simpl.
  rewrite occurs_cons in H. destruct (Ascii.eqb_spec c b) as [->|Hne].
  - exfalso. apply H. now left.
  - rewrite IH; [reflexivity | tauto].
Qed.

(** The subject rule removes dashes, spaces and underscores and nothing
    else: the result is the label with these characters dropped, every
    other character kept in its place and as often as it stands there;
    and a label that is already clean is left as it is. *)
Theorem make_subject_label_clean (sub : Parser.subject) :
  let r := Parser.make_subject_label sub in
  r = without "_" (without " " (without "-" (Parser.sub_label sub)))
  /\ (forall c, occurs c r <->
                occurs c (Parser.sub_label sub)
                /\ c <> "-"%char /\ c <> " "%char /\ c <> "_"%char)
  /\ Parser.make_subject_label
       {| Parser.sub_label := r; Parser.sub_sessions := Parser.sub_sessions sub |} = r.
Proof.
  unfold Parser.make_subject_label. cbn [Parser.sub_label].
  rewrite !replace_char_without.
  assert (H : forall s c, occurs c (without "_" (without " " (without "-" s))) <->
                          occurs c s /\ c <> "-"%char /\ c <> " "%char /\ c <> "_"%char).
  { intros s c. rewrite !occurs_without. tauto. }
  split; [reflexivity |]. split; [apply H |].
  set (r := without "_" (without " " (without "-" (Parser.sub_label sub)))).
  rewrite (without_absent "-" r) by (intros K; apply H in K; tauto).
  rewrite (without_absent " " r) by (intros K; apply H in K; tauto).
  apply without_absent. intros K; apply H in K; tauto.
Qed.

(** The project rule turns dashes into underscores and removes spaces,
    and leaves a label that is already clean as it is. *)
Theorem make_project_label_clean (proj : string) :
  let r := Parser.make_project_label proj in
  r = without " " (turned "-" "_" proj)
  /\ (forall c, occurs c r -> c <> "-"%char /\ c <> " "%char)
  /\ Parser.make_project_label r = r.
Proof.
  unfold Parser.make_project_label.
  change (replace "-" "_") with (replace (String "-" "") (String "_" "")).
  change (replace " " "") with (replace (String " " "") "").
  rewrite !replace_char_without, !replace_char_turned.
  assert (H : forall c, occurs c (without " " (turned "-" "_" proj)) ->
                        c <> "-"%char /\ c <> " "%char).
  { intros c K. apply occurs_without in K as [K Hsp]. split; [| exact Hsp].
    apply occurs_turned in K as [[_ K] | [-> _]]; [exact K | discriminate]. }
  split; [reflexivity |]. split; [exact H |].
  rewrite turned_absent by (intros K; apply H in K; tauto).
  apply without_absent. intros K; apply H in K; tauto.
Qed.

Lemma occurs_token (c : ascii) (s : string) :
  occurs c (token s) -> isspace c = false /\ occurs c s.
Proof.
  induction s as [|a s IH]; simpl; [intros [] |].
  destruct (isspace a) eqn:E; [intros [] |].
  rewrite !occurs_cons. intros [<- | H]; [split; [exact E | now left] |].
  destruct (IH H). split; [assumption | now right].
Qed.

Lemma occurs_first_token (c : ascii) (s : string) :
  occurs c (first_token s) -> isspace c = false /\ occurs c s.
Proof.
  induction s as [|a s IH]; simpl; [intros [] |].
  destruct (isspace a) eqn:E.
  - intros H. destruct (IH H). split; [assumption | now right].
  - rewrite !occurs_cons. intros [<- | H]; [split; [exact E | now left] |].
    destruct (occurs_token _ _ H). split; [assumption | now right].
Qed.

Lemma first_token_blank (s : string) : first_token s = "" <-> blank s.
Proof.
  unfold blank. induction s as [|a s IH]; simpl.
  - split; [intros _ c [] | reflexivity].
  - destruct (isspace a) eqn:E.
    + rewrite IH. split.
      * intros H c [<- | Hc]; [exact E | now apply H].
      * intros H c Hc. apply H. now right.
    + split; [discriminate |]. intros H.
      rewrite (H a) in E by now left. discriminate.
Qed.

Lemma split_go_run (cur s : string) :
  cur <> "" -> item0 (split_go cur s) = Ok (cur +:+ token s).
Proof.
  revert cur. induction s as [|c s IH]; intros cur Hc; simpl.
  - rewrite append_nil_r. now destruct cur.
  - destruct (isspace c).
    + rewrite append_nil_r. now destruct cur.
    + rewrite IH by now destruct cur.
      rewrite append_assoc. reflexivity.
Qed.

(** [label.split()[0]] is the first run of characters that are not
    white space; without such a run the indexing raises. *)
Lemma item0_split (s : string) :
  item0 (split s)
  = match first_token s with
    | EmptyString => Raise IndexError
    | String _ _ => Ok (first_token s)
    end.
Proof.
  unfold split. induction s as [|c s IH]; [reflexivity |]. simpl.
  destruct (isspace c); [exact IH |].
  now rewrite split_go_run.
Qed.

Lemma token_clean (s : string) :
  (forall c, occurs c s -> isspace c = false) -> token s = s.
Proof.
  induction s as [|a s IH]; intros H; [reflexivity |]. simpl.
  rewrite (H a) by now left. rewrite IH; [reflexivity |].
  intros c Hc. apply H. now right.
Qed.

Lemma first_token_clean (s : string) :
  (forall c, occurs c s -> isspace c = false) -> first_token s = s.
Proof.
  destruct s as [|a s]; intros H; [reflexivity |]. simpl.
  rewrite (H a) by now left. rewrite token_clean; [reflexivity |].
  intros c Hc. apply H. now right.
Qed.

Lemma Ok_inj {A} (a b : A) : Ok a = Ok b -> a = b.
Proof. now intros [= ->]. Qed.

Lemma make_session_label_token (ses : Parser.session) :
  Parser.make_session_label ses
  = match first_token (Parser.ses_label ses) with
    | EmptyString => Raise IndexError
    | String _ _ => Ok (without "_" (without "-" (first_token (Parser.ses_label ses))))
    end.
Proof.
  unfold Parser.make_session_label. rewrite item0_split.
  destruct (first_token (Parser.ses_label ses)); [reflexivity |].
  unfold bind. now rewrite !replace_char_without.
Qed.

(** The session rule. It raises IndexError exactly when the raw label is
    empty or all white space, and raises nothing else. Otherwise it
    returns the first white-space-delimited token without its dashes
    and underscores: a string without white space, dash or underscore,
    which may be empty, and which the rule maps to itself when it is
    not. *)
Theorem make_session_label_cases (ses : Parser.session) :
  (Parser.make_session_label ses = Raise IndexError <-> blank (Parser.ses_label ses))
  /\ (forall e, Parser.make_session_label ses = Raise e -> e = IndexError)
  /\ (forall r, Parser.make_session_label ses = Ok r ->
        r = without "_" (without "-" (first_token (Parser.ses_label ses)))
        /\ (forall c, occurs c r ->
              isspace c = false /\ c <> "-"%char /\ c <> "_"%char
              /\ occurs c (Parser.ses_label ses))
        /\ (r <> "" ->
            Parser.make_session_label
              {| Parser.ses_label := r; Parser.ses_id := Parser.ses_id ses;
                 Parser.ses_acquisitions := Parser.ses_acquisitions ses |} = Ok r)).
Proof.
  rewrite make_session_label_token.
  destruct (first_token (Parser.ses_label ses)) as [|a t] eqn:E.
  - split; [| split].
    + split; [intros _; now apply first_token_blank | reflexivity].
    + intros e H. congruence.
    + discriminate.
  - assert (Hb : ~ blank (Parser.ses_label ses)).
    { intros K. apply first_token_blank in K. congruence. }
    split; [| split]; [split; [discriminate | intros K; contradiction] | discriminate |].
    intros r Hr. apply Ok_inj in Hr.
    assert (H : forall c, occurs c r ->
                  isspace c = false /\ c <> "-"%char /\ c <> "_"%char
                  /\ occurs c (Parser.ses_label ses)).
    { intros c K. subst r. rewrite !occurs_without in K.
      destruct K as [[K H1] H2]. rewrite <- E in K.
      apply occurs_first_token in K. tauto. }
    split; [now symmetry |]. split; [exact H |].
    intros Hne. rewrite make_session_label_token. cbn [Parser.ses_label].
    rewrite first_token_clean by (intros c K; now apply H in K).
    destruct r as [|b r'] eqn:Er; [contradiction |]. rewrite <- Er in *.
    f_equal.
    rewrite (without_absent "-" r) by (intros K; apply H in K; tauto).
    apply without_absent. intros K; apply H in K; tauto.
Qed.

(** A label of dashes and underscores only resolves to the empty
    string, and the session directory is then the subject directory
    itself. *)
Example make_session_label_empty :
  Parser.make_session_label (session_named "-_- x") = Ok ""
  /\ join "/w/P01" "" = "/w/P01/".
Proof. split; reflexivity. Qed.

(** ** What one import does to the disk *)

(** A dry run fetches nothing, yet still creates the directory of a
    file that passes the filter. *)
Theorem download_file_dry_run (pf : Parser.platform) (f : Parser.file)
        (my_dir : string) (d : Parser.disk) :
  let r := Parser.download_file pf f my_dir true d in
  Parser.fetched r.2 = Parser.fetched d
  /\ (Parser.do_download f = true -> Parser.makedirs_error pf my_dir = None ->
      r.1 = Ok (Parser.f_name f) /\ Parser.paths r.2 = {[my_dir]} ∪ Parser.paths d)
  /\ (Parser.do_download f = false -> r = (Ok (Parser.f_name f), d)).
Proof.
  cbv zeta. destruct (Parser.do_download f) eqn:H.
  - rewrite (download_file_pass _ _ _ _ _ H).
    destruct (Parser.makedirs_error pf my_dir); simpl.
    + split; [reflexivity |]. split; [discriminate | discriminate].
    + split; [reflexivity |]. split; [now intros _ _ | discriminate].
  - rewrite (download_file_skip _ _ _ _ _ H).
    split; [reflexivity |]. split; [discriminate | reflexivity].
Qed.

(** One call of [download_file]: no path disappears, and the download
    operation is called at most once, for a file that passes the filter,
    with the target under [my_dir], which was not on the disk before
    and is there afterwards when the download succeeds. *)
Lemma download_file_effect (pf : Parser.platform) (f : Parser.file)
      (my_dir : string) (dry_run : bool) (d : Parser.disk) :
  let d' := (Parser.download_file pf f my_dir dry_run d).2 in
  let target := join my_dir (Parser.f_name f) in
  Parser.paths d ⊆ Parser.paths d'
  /\ (Parser.fetched d' = Parser.fetched d
      \/ (Parser.fetched d' = (Parser.fetched d ++ [(Parser.f_name f, target)])%list
          /\ Parser.do_download f = true /\ dry_run = false
          /\ (target ∉ Parser.paths d)
          /\ (Parser.download_error pf f target = None -> target ∈ Parser.paths d'))).
Proof.
  cbv zeta. destruct (Parser.do_download f) eqn:H.
  - rewrite (download_file_pass _ _ _ _ _ H).
    destruct (Parser.makedirs_error pf my_dir); simpl; [split; [reflexivity | now left] |].
    unfold Parser.exists_. simpl.
    destruct dry_run; simpl; [split; [apply union_subseteq_r | now left] |].
    destruct (bool_decide_reflect
                (join my_dir (Parser.f_name f) ∈ {[my_dir]} ∪ Parser.paths d)) as [Hin|Hin].
    + split; [apply union_subseteq_r | now left].
    + assert (Hd : join my_dir (Parser.f_name f) ∉ Parser.paths d).
      { intros K. apply Hin. apply elem_of_union. now right. }
      destruct (Parser.download_error pf f _); simpl.
      * split; [apply union_subseteq_r |]. right. repeat split; try assumption.
        discriminate.
      * split; [etrans; [apply union_subseteq_r | apply union_subseteq_r] |].
        right. repeat split; try assumption.
        intros _. apply elem_of_union. left. now apply elem_of_singleton.
  - rewrite (download_file_skip _ _ _ _ _ H). split; [reflexivity | now left].
Qed.

Lemma fetch_of_mono (dir : string) (f : Parser.file) (l : list Parser.file)
      (np : string * string) :
  fetch_of dir l np -> fetch_of dir (f :: l) np.
Proof. intros (g & Hg & H). exists g. split; [now right | exact H]. Qed.

Lemma files_pass_step (pf : Parser.platform) (dir : string) (dry_run : bool)
      (f : Parser.file) (l : list Parser.file) (d : Parser.disk) :
  (for_each (file_turn pf dir dry_run) (f :: l) d).2
  = match (Parser.download_file pf f dir dry_run d).1 with
    | Ok _ => (for_each (file_turn pf dir dry_run) l
                        (Parser.download_file pf f dir dry_run d).2).2
    | Raise _ => (Parser.download_file pf f dir dry_run d).2
    end.
Proof.
  cbn [for_each]. unfold bindM at 1. unfold file_turn at 1. unfold bindM, ret.
  now destruct (Parser.download_file pf f dir dry_run d) as [[n|e] d1].
Qed.

(** The loop over the files of a session, on any platform: what it
    fetches and what it leaves on the disk. *)
Lemma files_pass_effect (pf : Parser.platform) (dir : string) (dry_run : bool)
      (l : list Parser.file) :
  forall d,
    let d' := (for_each (file_turn pf dir dry_run) l d).2 in
    Parser.paths d ⊆ Parser.paths d'
    /\ exists new,
        Parser.fetched d' = (Parser.fetched d ++ new)%list
        /\ Forall (fetch_of dir l) new
        /\ (new <> [] -> dry_run = false)
        /\ ((forall f p, Parser.download_error pf f p = None) ->
            NoDup (map snd new)
            /\ forall p, p ∈ map snd new -> (p ∉ Parser.paths d) /\ p ∈ Parser.paths d').
Proof.
  induction l as [|f l IH]; intros d; cbv zeta.
  - simpl. split; [reflexivity |]. exists []. rewrite app_nil_r.
    split; [reflexivity |]. split; [constructor |]. split; [congruence |].
    intros _. split; [constructor |]. intros p Hp. now apply elem_of_nil in Hp.
  - rewrite files_pass_step.
    pose proof (download_file_effect pf f dir dry_run d) as [M1 F1]. cbv zeta in M1, F1.
    destruct (Parser.download_file pf f dir dry_run d) as [[n|e] d1]; cbn [fst snd] in *.
    + specialize (IH d1). cbv zeta in IH.
      destruct IH as (M2 & new2 & E2 & P2 & D2 & N2).
      split; [etrans; eauto |].
      destruct F1 as [F1 | (F1 & Hd & Hdry & Hnew & Hthere)].
      * exists new2. rewrite E2, F1. split; [reflexivity |].
        split; [eapply Forall_impl; [exact P2 | apply fetch_of_mono] |].
        split; [exact D2 |]. intros Hok. destruct (N2 Hok) as [N K].
        split; [exact N |]. intros p Hp. destruct (K p Hp). split; [| assumption].
        intros Hq. apply H. now apply M1.
      * exists ((Parser.f_name f, join dir (Parser.f_name f)) :: new2).
        rewrite E2, F1, <- app_assoc. split; [reflexivity |].
        split.
        { constructor; [exists f; repeat split; [left | exact Hd] |].
          eapply Forall_impl; [exact P2 | apply fetch_of_mono]. }
        split; [intros _; exact Hdry |].
        intros Hok. destruct (N2 Hok) as [N K]. specialize (Hthere (Hok _ _)).
        split.
        { simpl. constructor; [| exact N]. intros Hp. apply K in Hp as [Hp _].
          contradiction. }
        intros p Hp. simpl in Hp. apply elem_of_cons in Hp as [-> | Hp].
        { split; [exact Hnew | now apply M2]. }
        destruct (K p Hp). split; [| assumption]. intros Hq. apply H. now apply M1.
    + split; [exact M1 |].
      destruct F1 as [F1 | (F1 & Hd & Hdry & Hnew & Hthere)].
      * exists []. rewrite app_nil_r. split; [exact F1 |]. split; [constructor |].
        split; [congruence |]. intros _. split; [constructor |].
        intros p Hp. now apply elem_of_nil in Hp.
      * exists [(Parser.f_name f, join dir (Parser.f_name f))].
        split; [exact F1 |].
        split; [constructor; [exists f; repeat split; [left | exact Hd] | constructor] |].
        split; [intros _; exact Hdry |].
        intros Hok. specialize (Hthere (Hok _ _)). split.
        { simpl. constructor; [intros K; now apply elem_of_nil in K | constructor]. }
        intros p Hp. simpl in Hp. apply list_elem_of_singleton in Hp. subst p.
        split; assumption.
Qed.

Lemma download_session_disk (pf : Parser.platform) (ses : Parser.session)
      (sub_dir : string) (dry_run : bool) (d : Parser.disk) :
  (Parser.download_session pf ses sub_dir dry_run d).2
  = match Parser.make_session_label ses with
    | Raise _ => d
    | Ok L => (for_each (file_turn pf (join sub_dir L) dry_run) (session_files ses) d).2
    end.
Proof.
  rewrite download_session_flat. destruct (Parser.make_session_label ses); [| reflexivity].
  unfold file_turn. now destruct (for_each _ (session_files ses) d).
Qed.

(** Importing a session, on any platform and whether or not it ends
    with an exception: no path disappears from the disk, and every call
    of a download operation is for a file of the session that passes the
    filter, with its target in the session directory; a dry run makes
    no such call. *)
Theorem download_session_fetches_only_filtered (pf : Parser.platform)
        (ses : Parser.session) (sub_dir : string) (dry_run : bool) (d : Parser.disk) :
  let d' := (Parser.download_session pf ses sub_dir dry_run d).2 in
  Parser.paths d ⊆ Parser.paths d'
  /\ exists new,
      Parser.fetched d' = (Parser.fetched d ++ new)%list
      /\ (new <> [] -> dry_run = false)
      /\ forall np, np ∈ new ->
           exists L, Parser.make_session_label ses = Ok L
                     /\ fetch_of (join sub_dir L) (session_files ses) np.
Proof.
  cbv zeta. rewrite download_session_disk.
  destruct (Parser.make_session_label ses) as [L|e].
  - destruct (files_pass_effect pf (join sub_dir L) dry_run (session_files ses) d)
      as (M1 & new & E & P & D & _).
    split; [exact M1 |]. exists new. split; [exact E |]. split; [exact D |].
    intros np Hnp. exists L. split; [reflexivity |].
    rewrite Forall_forall in P. now apply P.
  - split; [reflexivity |]. exists []. rewrite app_nil_r. split; [reflexivity |].
    split; [congruence |]. intros np Hnp. now apply elem_of_nil in Hnp.
Qed.

(** When downloads succeed, one import of a session fetches no target
    path twice, fetches no path that was on the disk before, and leaves
    every fetched path on the disk. *)
Theorem download_session_fetches_once (pf : Parser.platform)
        (ses : Parser.session) (sub_dir : string) (dry_run : bool) (d : Parser.disk) :
  (forall f p, Parser.download_error pf f p = None) ->
  let d' := (Parser.download_session pf ses sub_dir dry_run d).2 in
  exists new,
    Parser.fetched d' = (Parser.fetched d ++ new)%list
    /\ NoDup (map snd new)
    /\ forall p, p ∈ map snd new -> (p ∉ Parser.paths d) /\ p ∈ Parser.paths d'.
Proof.
  intros Hok. cbv zeta. rewrite download_session_disk.
  destruct (Parser.make_session_label ses) as [L|e].
  - destruct (files_pass_effect pf (join sub_dir L) dry_run (session_files ses) d)
      as (_ & new & E & _ & _ & N).
    exists new. split; [exact E |]. exact (N Hok).
  - exists []. rewrite app_nil_r. split; [reflexivity |]. split; [constructor |].
    intros p Hp. now apply elem_of_nil in Hp.
Qed.

Lemma download_session_fetches_once_witness :
  let d' := (Parser.download_session quiet_platform two_acquisitions "/w/P01" false
               empty_disk).2 in
  exists new,
    Parser.fetched d' = ([] ++ new)%list
    /\ NoDup (map snd new)
    /\ forall p, p ∈ map snd new -> (p ∉ (∅ : gset string)) /\ p ∈ Parser.paths d'.
Proof.
  exact (download_session_fetches_once quiet_platform two_acquisitions "/w/P01" false
           empty_disk (fun _ _ => eq_refl)).
Defined.

(** The file listed in both acquisitions is fetched once. *)
Example two_acquisitions_one_fetch :
  Parser.fetched
    (Parser.download_session quiet_platform two_acquisitions "/w/P01" false empty_disk).2
  = [("sub-01_T2w_AXI.nii.gz", "/w/P01/Visit/sub-01_T2w_AXI.nii.gz")].
Proof. vm_compute. reflexivity. Qed.

Lemma files_pass_makedirs_fails (pf : Parser.platform) (dir : string) (dry_run : bool)
      (e : exn) (l : list Parser.file) (d : Parser.disk) :
  Parser.makedirs_error pf dir = Some e ->
  for_each (file_turn pf dir dry_run) l d
  = if existsb Parser.do_download l then (Raise e, d) else (Ok tt, d).
Proof.
  intros Hmk. induction l as [|f l IH]; [reflexivity |].
  cbn [for_each existsb]. unfold bindM at 1. unfold file_turn at 1. unfold bindM at 1.
  destruct (Parser.do_download f) eqn:H.
  - rewrite (download_file_pass _ _ _ _ _ H), Hmk. reflexivity.
  - rewrite (download_file_skip _ _ _ _ _ H). exact IH.
Qed.

(** A download that raises does not end the import of a session: with
    a label that is not blank and directories that can be created, the
    import returns, whatever the download operations do. The creation
    of the session directory is outside the [try]: when it fails and
    some file passes the filter, the import raises that exception and
    leaves the disk as it was. *)
Theorem download_failures_are_isolated (pf : Parser.platform) (ses : Parser.session)
        (sub_dir : string) (dry_run : bool) (d : Parser.disk) (L : string) :
  Parser.make_session_label ses = Ok L ->
  ((forall dir, Parser.makedirs_error pf dir = None) ->
   (Parser.download_session pf ses sub_dir dry_run d).1
   = Ok (L, join sub_dir L, Parser.ses_id ses))
  /\ (forall e, Parser.makedirs_error pf (join sub_dir L) = Some e ->
       Parser.download_session pf ses sub_dir dry_run d
       = if existsb Parser.do_download (session_files ses)
         then (Raise e, d) else (Ok (L, join sub_dir L, Parser.ses_id ses), d)).
Proof.
  intros HL. split.
  - intros Hmk. destruct (download_session_ok pf Hmk ses sub_dir dry_run d L HL) as [d' ->].
    reflexivity.
  - intros e Hmk. rewrite download_session_flat, HL.
    fold (file_turn pf (join sub_dir L) dry_run).
    rewrite (files_pass_makedirs_fails pf _ dry_run e _ d Hmk).
    now destruct (existsb _ _).
Qed.

Lemma download_failures_are_isolated_witness :
  (Parser.download_session
     {| Parser.makedirs_error := fun _ => None;
        Parser.download_error := fun _ _ => Some (OSError "connection reset") |}
     (session_named "Visit 1") "/w/P01" false empty_disk).1
  = Ok ("Visit", "/w/P01/Visit", "id:Visit 1").
Proof.
  apply (download_failures_are_isolated _ (session_named "Visit 1") "/w/P01" false
           empty_disk "Visit" eq_refl).
  reflexivity.
Defined.

(** ** The session mapping of a subject *)

Lemma dict_set_new {V} (k : string) (v : V) (d : dict V) :
  dict_in k d = false -> dict_set k v d = (d ++ [(k, v)])%list.
Proof.
  unfold dict_in. induction d as [|[k' v'] d IH]; simpl; [reflexivity |].
  intros H. apply orb_false_iff in H as [H1 H2]. rewrite H1. now rewrite IH.
Qed.

Lemma download_session_result (pf : Parser.platform) (ses : Parser.session)
      (sub_dir : string) (dry_run : bool) (d d' : Parser.disk)
      (L dir id : string) :
  Parser.download_session pf ses sub_dir dry_run d = (Ok (L, dir, id), d') ->
  Parser.make_session_label ses = Ok L /\ dir = join sub_dir L /\ id = Parser.ses_id ses.
Proof.
  rewrite download_session_flat.
  destruct (Parser.make_session_label ses) as [L'|e]; [| discriminate].
  destruct (for_each _ (session_files ses) d) as [[[]|e] d1]; [| discriminate].
  intros H. injection H as -> <- <- _. repeat split.
Qed.

Lemma first_free_candidate (taken : list string) (L k : string) :
  first_free taken (candidates L) = Ok k ->
  (k = L \/ exists c, occurs c Parser.alc /\ k = L +:+ String c "")
  /\ str_in k taken = false.
Proof.
  intros H. split; [| now apply first_free_not_taken in H].
  unfold first_free in H. destruct (find _ (candidates L)) as [x|] eqn:E; [| discriminate].
  apply Ok_inj in H. subst x. apply find_some in E as [E _].
  destruct E as [E | E]; [now left |]. right.
  unfold suffixed in E. apply in_map_iff in E as (c & <- & Hc). now exists c.
Qed.

Lemma subject_step_result (pf : Parser.platform) (sub_dir : string) (dry_run : bool)
      (out out1 : dict (string * string)) (ses : Parser.session) (d d1 : Parser.disk) :
  Parser.subject_step pf sub_dir dry_run out ses d = (Ok out1, d1) ->
  exists kv, entry_of sub_dir ses kv
             /\ dict_in kv.1 out = false
             /\ out1 = (out ++ [kv])%list.
Proof.
  unfold Parser.subject_step, bindM at 1.
  destruct (Parser.download_session pf ses sub_dir dry_run d) as [[[[L dir] id]|e] d0] eqn:E;
    [| discriminate].
  apply download_session_result in E as (HL & -> & ->).
  unfold bindM, lift, ret. rewrite while_taken_first_free. fold (candidates L).
  destruct (first_free (keys out) (candidates L)) as [k|e] eqn:Ek; [| discriminate].
  intros H. injection H as <- _.
  apply first_free_candidate in Ek as [Hk Hfree]. rewrite <- dict_in_keys in Hfree.
  exists (k, (join sub_dir L, Parser.ses_id ses)).
  split; [exists L; repeat split; assumption |].
  split; [exact Hfree | now apply dict_set_new].
Qed.

Lemma subject_loop_entries (pf : Parser.platform) (sub_dir : string) (dry_run : bool)
      (l : list Parser.session) :
  forall out d out' d',
    Parser.subject_loop pf sub_dir dry_run out l d = (Ok out', d') ->
    NoDup (keys out) ->
    exists new, out' = (out ++ new)%list
                /\ NoDup (keys out')
                /\ Forall2 (entry_of sub_dir) l new.
Proof.
  induction l as [|s l IH]; intros out d out' d'; simpl.
  - intros [= <- _] Hnd. exists []. rewrite app_nil_r. repeat split; [exact Hnd | constructor].
  - unfold bindM at 1.
    destruct (Parser.subject_step pf sub_dir dry_run out s d) as [[out1|e] d1] eqn:E;
      [| discriminate].
    apply subject_step_result in E as (kv & Hkv & Hfree & ->).
    intros H Hnd. apply IH in H as (new & -> & Hnd' & Hall).
    + exists (kv :: new). rewrite <- app_assoc in Hnd' |- *.
      split; [reflexivity |]. split; [exact Hnd' | now constructor].
    + unfold keys. rewrite map_app. apply NoDup_app. split; [exact Hnd |].
      split; [| apply NoDup_singleton].
      intros x Hx Hx'. apply list_elem_of_singleton in Hx'. subst x.
      rewrite dict_in_keys in Hfree. apply str_in_elem in Hx. unfold keys in Hfree.
      congruence.
Qed.

(** The mapping that [download_subject] returns has one entry per
    session, in the order of the sessions, under keys that are all
    different; each entry holds the identifier of its session and a
    folder named by the sanitized label without any suffix. *)
Theorem download_subject_entries (pf : Parser.platform) (sub : Parser.subject)
        (proj_dir : string) (dry_run : bool) (d : Parser.disk)
        (label : string) (out : dict (string * string)) :
  (Parser.download_subject pf sub proj_dir dry_run d).1 = Ok (label, out) ->
  label = Parser.make_subject_label sub
  /\ NoDup (keys out)
  /\ Forall2 (entry_of (join proj_dir label)) (Parser.sub_sessions sub) out.
Proof.
  unfold Parser.download_subject, bindM.
  destruct (Parser.subject_loop pf _ dry_run [] (Parser.sub_sessions sub) d)
    as [[out'|e] d'] eqn:E; [| discriminate].
  simpl. intros [= <- <-].
  apply subject_loop_entries in E as (new & -> & Hnd & Hall); [| constructor].
  repeat split; assumption.
Qed.

Lemma download_subject_entries_witness :
  "P01" = Parser.make_subject_label twin_subject
  /\ NoDup ["Visit1"; "Visit1a"; "Visit1b"]
  /\ Forall2 (entry_of (join "/w" "P01")) (Parser.sub_sessions twin_subject)
       [("Visit1", ("/w/P01/Visit1", "id:Visit-1"));
        ("Visit1a", ("/w/P01/Visit1", "id:Visit_1"));
        ("Visit1b", ("/w/P01/Visit1", "id:Visit1 again"))].
Proof.
  apply (download_subject_entries quiet_platform twin_subject "/w" false empty_disk
           "P01" [("Visit1", ("/w/P01/Visit1", "id:Visit-1"));
                  ("Visit1a", ("/w/P01/Visit1", "id:Visit_1"));
                  ("Visit1b", ("/w/P01/Visit1", "id:Visit1 again"))]).
  vm_compute. reflexivity.
Defined.

(** Two sessions of a subject whose labels sanitize identically are
    filed under different keys but in one and the same folder. *)
Theorem colliding_sessions_share_folder (pf : Parser.platform) (sub : Parser.subject)
        (proj_dir : string) (dry_run : bool) (d : Parser.disk)
        (label : string) (out : dict (string * string))
        (i j : nat) (s1 s2 : Parser.session) :
  (Parser.download_subject pf sub proj_dir dry_run d).1 = Ok (label, out) ->
  Parser.sub_sessions sub !! i = Some s1 ->
  Parser.sub_sessions sub !! j = Some s2 ->
  i <> j ->
  Parser.make_session_label s1 = Parser.make_session_label s2 ->
  exists k1 k2 folder,
    out !! i = Some (k1, (folder, Parser.ses_id s1))
    /\ out !! j = Some (k2, (folder, Parser.ses_id s2))
    /\ k1 <> k2.
Proof.
  intros H H1 H2 Hij Hsame.
  unfold Parser.download_subject, bindM in H.
  destruct (Parser.subject_loop pf _ dry_run [] (Parser.sub_sessions sub) d)
    as [[out'|e] d'] eqn:E; [| discriminate].
  simpl in H. injection H as <- <-.
  apply subject_loop_entries in E as (new & -> & Hnd & Hall); [| constructor].
  simpl in *.
  destruct (Forall2_lookup_l _ _ _ _ _ Hall H1) as ([k1 [f1 id1]] & E1 & (L1 & HL1 & _ & V1)).
  destruct (Forall2_lookup_l _ _ _ _ _ Hall H2) as ([k2 [f2 id2]] & E2 & (L2 & HL2 & _ & V2)).
  simpl in V1, V2. injection V1 as -> ->. injection V2 as -> ->.
  assert (L1 = L2) by congruence. subst L2.
  exists k1, k2, (join (join proj_dir (Parser.make_subject_label sub)) L1).
  split; [exact E1 |]. split; [exact E2 |].
  intros ->. apply Hij.
  eapply NoDup_lookup; [exact Hnd | |]; unfold keys; rewrite list_lookup_fmap.
  - rewrite E1. reflexivity.
  - rewrite E2. reflexivity.
Qed.

Lemma colliding_sessions_share_folder_witness :
  exists k1 k2 folder,
    [("Visit1", ("/w/P01/Visit1", "id:Visit-1"));
     ("Visit1a", ("/w/P01/Visit1", "id:Visit_1"));
     ("Visit1b", ("/w/P01/Visit1", "id:Visit1 again"))] !! 0
    = Some (k1, (folder, Parser.ses_id (session_named "Visit-1")))
    /\ [("Visit1", ("/w/P01/Visit1", "id:Visit-1"));
        ("Visit1a", ("/w/P01/Visit1", "id:Visit_1"));
        ("Visit1b", ("/w/P01/Visit1", "id:Visit1 again"))] !! 1
       = Some (k2, (folder, Parser.ses_id (session_named "Visit_1")))
    /\ k1 <> k2.
Proof.
  apply (colliding_sessions_share_folder quiet_platform twin_subject "/w" false
           empty_disk "P01" _ 0 1 (session_named "Visit-1") (session_named "Visit_1")).
  - vm_compute. reflexivity.
  - reflexivity.
  - reflexivity.
  - discriminate.
  - reflexivity.
Defined.

(** ** Projects and the whole dataset *)

Lemma getitem_dict_set_eq {V} (k : string) (v : V) (d : dict V) :
  Options.getitem (dict_set k v d) k = Ok v.
Proof.
  induction d as [|[k' v'] d IH]; simpl.
  - now rewrite String.eqb_refl.
  - destruct (String.eqb k k') eqn:E; simpl; rewrite ?String.eqb_refl, ?E; auto.
Qed.

Lemma getitem_dict_set_ne {V} (k k' : string) (v : V) (d : dict V) :
  k <> k' -> Options.getitem (dict_set k v d) k' = Options.getitem d k'.
Proof.
  intros Hne. induction d as [|[k0 v0] d IH]; simpl.
  - destruct (String.eqb_spec k' k); [congruence | reflexivity].
  - destruct (String.eqb_spec k k0) as [->|H0]; simpl.
    + destruct (String.eqb_spec k' k0); [congruence | reflexivity].
    + destruct (String.eqb_spec k' k0); [reflexivity | exact IH].
Qed.

Lemma keys_dict_set {V} (k : string) (v : V) (d : dict V) :
  keys (dict_set k v d) = if dict_in k d then keys d else (keys d ++ [k])%list.
Proof.
  unfold dict_in, keys. induction d as [|[k' v'] d IH]; simpl; [reflexivity |].
  destruct (String.eqb_spec k k') as [->|Hne]; simpl; [reflexivity |].
  rewrite IH. now destruct (existsb _ d).
Qed.

Lemma elem_of_keys_dict_set {V} (k k' : string) (v : V) (d : dict V) :
  k' ∈ keys (dict_set k v d) <-> k' = k \/ k' ∈ keys d.
Proof.
  rewrite keys_dict_set. destruct (dict_in k d) eqn:E.
  - rewrite dict_in_keys in E. apply str_in_elem in E.
    split; [now right | intros [-> | H]; assumption].
  - rewrite elem_of_app, list_elem_of_singleton. tauto.
Qed.

Lemma NoDup_keys_dict_set {V} (k : string) (v : V) (d : dict V) :
  NoDup (keys d) -> NoDup (keys (dict_set k v d)).
Proof.
  intros H. rewrite keys_dict_set. destruct (dict_in k d) eqn:E; [exact H |].
  apply NoDup_app. split; [exact H |]. split; [| apply NoDup_singleton].
  intros x Hx Hx'. apply list_elem_of_singleton in Hx'. subst x.
  rewrite dict_in_keys in E. apply str_in_elem in Hx. congruence.
Qed.

Lemma download_subject_label (pf : Parser.platform) (sub : Parser.subject)
      (dir : string) (dry_run : bool) (d d' : Parser.disk)
      (lab : string) (v : dict (string * string)) :
  Parser.download_subject pf sub dir dry_run d = (Ok (lab, v), d') ->
  lab = Parser.make_subject_label sub.
Proof.
  unfold Parser.download_subject, bindM.
  destruct (Parser.subject_loop pf _ dry_run [] (Parser.sub_sessions sub) d) as [[o|e] d0];
    [| discriminate].
  now intros [= <- _ _].
Qed.

Lemma project_loop_spec (pf : Parser.platform) (dir : string) (dry_run : bool)
      (l : list Parser.subject) :
  forall out d out' d',
    Dataset.project_loop pf dir dry_run out l d = (Ok out', d') ->
    (forall k, k ∈ keys out' <->
               k ∈ keys out \/ exists s, s ∈ l /\ Parser.make_subject_label s = k)
    /\ (NoDup (keys out) -> NoDup (keys out'))
    /\ (forall k, (forall t, t ∈ l -> Parser.make_subject_label t <> k) ->
                  Options.getitem out' k = Options.getitem out k)
    /\ (forall pre s post,
           l = (pre ++ s :: post)%list ->
           (forall t, t ∈ post -> Parser.make_subject_label t <> Parser.make_subject_label s) ->
           exists d0 v,
             (Parser.download_subject pf s dir dry_run d0).1
             = Ok (Parser.make_subject_label s, v)
             /\ Options.getitem out' (Parser.make_subject_label s) = Ok v).
Proof.
  induction l as [|s0 l IH]; intros out d out' d'; simpl.
  - intros [= <- _]. split; [| split; [| split]].
    + intros k. split; [now left | intros [H | (s & Hs & _)]; [exact H |]].
      now apply elem_of_nil in Hs.
    + auto.
    + reflexivity.
    + intros pre s post H. destruct pre; discriminate.
  - unfold bindM at 1.
    destruct (Parser.download_subject pf s0 dir dry_run d) as [[[lab v]|e] d1] eqn:E;
      [| discriminate].
    pose proof (download_subject_label _ _ _ _ _ _ _ _ E) as ->.
    intros H. apply IH in H as (K1 & K2 & K3 & K4).
    split; [| split; [| split]].
    + intros k. rewrite K1, elem_of_keys_dict_set. split.
      * intros [[-> | H] | (s & Hs & <-)].
        -- right. exists s0. split; [left | reflexivity].
        -- now left.
        -- right. exists s. split; [now right | reflexivity].
      * intros [H | (s & Hs & <-)]; [left; now right |].
        apply elem_of_cons in Hs as [-> | Hs]; [left; now left |].
        right. now exists s.
    + intros Hnd. apply K2. now apply NoDup_keys_dict_set.
    + intros k Hk. rewrite K3 by (intros t Ht; apply Hk; now right).
      apply getitem_dict_set_ne. apply Hk. left.
    + intros pre s post Hl Hpost. destruct pre as [|p0 pre]; simpl in Hl.
      * injection Hl as -> ->. exists d, v. rewrite E. split; [reflexivity |].
        rewrite K3 by exact Hpost. apply getitem_dict_set_eq.
      * injection Hl as -> ->. now apply (K4 pre s post).
Qed.

(** [download_project] does not deduplicate subject labels. The mapping
    it returns has one key per sanitized subject label; when several
    subjects sanitize to one label, the entry holds the sessions of the
    last of them and the sessions of the earlier ones are not in the
    mapping. *)
Theorem download_project_last_wins (pf : Parser.platform) (p : Dataset.project)
        (my_dir : string) (dry_run : bool) (d : Parser.disk)
        (name : string) (out : dict (dict (string * string))) :
  (Dataset.download_project pf p my_dir dry_run d).1 = Ok (name, out) ->
  name = Parser.make_project_label (Dataset.proj_label p)
  /\ NoDup (keys out)
  /\ (forall k, k ∈ keys out <->
                exists s, s ∈ Dataset.proj_subjects p /\ Parser.make_subject_label s = k)
  /\ (forall pre s post,
         Dataset.proj_subjects p = (pre ++ s :: post)%list ->
         (forall t, t ∈ post -> Parser.make_subject_label t <> Parser.make_subject_label s) ->
         exists d0 v,
           (Parser.download_subject pf s (join my_dir name) dry_run d0).1
           = Ok (Parser.make_subject_label s, v)
           /\ Options.getitem out (Parser.make_subject_label s) = Ok v).
Proof.
  unfold Dataset.download_project, bindM.
  destruct (Dataset.project_loop pf _ dry_run [] (Dataset.proj_subjects p) d)
    as [[out'|e] d'] eqn:E; [| discriminate].
  simpl. intros [= <- <-].
  apply project_loop_spec in E as (K1 & K2 & _ & K4).
  split; [reflexivity |]. split; [apply K2; constructor |]. split; [| exact K4].
  intros k. rewrite K1. split; [intros [H | H]; [now apply elem_of_nil in H | exact H] |].
  now right.
Qed.

Lemma download_project_last_wins_witness :
  "My_Study1" = Parser.make_project_label (Dataset.proj_label twin_project)
  /\ NoDup (keys [("P01", [("Followup", ("/w/My_Study1/P01/Followup", "id:Followup"))])])
  /\ (forall k, k ∈ keys [("P01", [("Followup", ("/w/My_Study1/P01/Followup", "id:Followup"))])]
                <-> exists s, s ∈ Dataset.proj_subjects twin_project
                              /\ Parser.make_subject_label s = k)
  /\ (forall pre s post,
         Dataset.proj_subjects twin_project = (pre ++ s :: post)%list ->
         (forall t, t ∈ post -> Parser.make_subject_label t <> Parser.make_subject_label s) ->
         exists d0 v,
           (Parser.download_subject quiet_platform s (join "/w" "My_Study1") false d0).1
           = Ok (Parser.make_subject_label s, v)
           /\ Options.getitem
                [("P01", [("Followup", ("/w/My_Study1/P01/Followup", "id:Followup"))])]
                (Parser.make_subject_label s) = Ok v).
Proof.
  apply (download_project_last_wins quiet_platform twin_project "/w" false empty_disk).
  vm_compute. reflexivity.
Defined.

Lemma getitem_middle {V} (pre suf : dict V) (k : string) (v : V) :
  k ∉ keys pre -> Options.getitem (pre ++ (k, v) :: suf)%list k = Ok v.
Proof.
  induction pre as [|[k' v'] pre IH]; intros H; simpl.
  - now rewrite String.eqb_refl.
  - unfold keys in H. simpl in H. apply not_elem_of_cons in H as [H1 H2].
    destruct (String.eqb_spec k k'); [contradiction | now apply IH].
Qed.

Lemma dict_in_absent {V} (k : string) (d : dict V) : k ∉ keys d -> dict_in k d = false.
Proof.
  intros H. rewrite dict_in_keys. destruct (str_in k (keys d)) eqn:E; [| reflexivity].
  apply str_in_elem in E. contradiction.
Qed.

Lemma dict_set_last {V} (k : string) (v v' : V) (d : dict V) :
  k ∉ keys d -> dict_set k v' (d ++ [(k, v)])%list = (d ++ [(k, v')])%list.
Proof.
  induction d as [|[k0 v0] d IH]; intros H; simpl.
  - now rewrite String.eqb_refl.
  - unfold keys in H. simpl in H. apply not_elem_of_cons in H as [H1 H2].
    destruct (String.eqb_spec k k0); [contradiction | now rewrite IH].
Qed.

Lemma NoDup_keys_split {V} (pre suf : dict V) (k : string) (v : V) :
  NoDup (keys (pre ++ (k, v) :: suf)%list) -> k ∉ keys pre.
Proof.
  unfold keys. rewrite map_app. intros H. apply NoDup_app in H as (_ & H & _).
  intros K. apply (H k K). left.
Qed.

(** The loop over the sessions of one subject, when no import fails. *)
Lemma sessions_loop_spec (tools : Dataset.bids_tools) (sub : string)
      (sessions : dict (string * string)) :
  (forall a b c, Dataset.import_dicom_folder_error tools a b c = None) ->
  NoDup (keys sessions) ->
  forall suf pre inner st,
    sessions = (pre ++ suf)%list ->
    keys inner = keys pre ->
    Dataset.sessions_loop tools sub sessions (keys suf) inner st
    = (Ok (inner ++ session_ids suf)%list,
       {| Dataset.on_disk := Dataset.on_disk st;
          Dataset.imported := (Dataset.imported st ++ import_calls sub suf)%list |}).
Proof.
  intros Hok Hnd. induction suf as [|[k v] suf IH]; intros pre inner st Hs Hk.
  - simpl. rewrite !app_nil_r. now destruct st.
  - cbn [keys map fst Dataset.sessions_loop].
    assert (Hfresh : k ∉ keys pre) by (subst sessions; now apply NoDup_keys_split in Hnd).
    unfold bindM at 1, lift. rewrite Hs, (getitem_middle pre suf k v Hfresh).
    unfold bindM at 1, Dataset.import_dicom_folder. rewrite Hok.
    rewrite dict_set_new by (apply dict_in_absent; now rewrite Hk).
    rewrite <- Hs. rewrite (IH (pre ++ [(k, v)])%list).
    + cbn [Dataset.on_disk Dataset.imported]. unfold session_ids, import_calls.
      cbn [map]. now rewrite <- !app_assoc.
    + now rewrite <- app_assoc.
    + unfold keys. rewrite !map_app. cbn [map fst]. unfold keys in Hk. now rewrite Hk.
Qed.

Lemma download_subject_NoDup (pf : Parser.platform) (sub : Parser.subject)
      (dir : string) (dry_run : bool) (d d' : Parser.disk)
      (lab : string) (v : dict (string * string)) :
  Parser.download_subject pf sub dir dry_run d = (Ok (lab, v), d') -> NoDup (keys v).
Proof.
  unfold Parser.download_subject, bindM.
  destruct (Parser.subject_loop pf _ dry_run [] (Parser.sub_sessions sub) d)
    as [[o|e] d0] eqn:E; [| discriminate].
  intros [= _ <- _].
  apply subject_loop_entries in E as (new & -> & Hnd & _); [exact Hnd | constructor].
Qed.

(** [download_dataset] on a subject, when nothing fails: the subject is
    downloaded below sourcedata/<project label>, [import_dicom_folder]
    is called once per entry of its session mapping, in order, with the
    folder of the entry, and the result maps the subject label to the
    session identifiers under the resolved session labels. *)
Theorem download_dataset_subject (pf : Parser.platform) (tools : Dataset.bids_tools)
        (proj_label : string) (s : Parser.subject) (config : dict string)
        (st : Dataset.site) (work_dir bids_config : string)
        (label : string) (sessions : dict (string * string)) (d2 : Parser.disk) :
  Options.getitem config "work_dir" = Ok work_dir ->
  Options.getitem config "bids_config_file" = Ok bids_config ->
  Dataset.setup_bids_directories_error tools work_dir = None ->
  Parser.makedirs_error pf (join work_dir "sourcedata") = None ->
  (forall a b c, Dataset.import_dicom_folder_error tools a b c = None) ->
  Parser.download_subject pf s (join (join work_dir "sourcedata") proj_label) false
    (prepared pf work_dir st) = (Ok (label, sessions), d2) ->
  Dataset.download_dataset pf tools (Dataset.Subject proj_label s) config st
  = (Ok (Some [(label, session_ids sessions)]),
     {| Dataset.on_disk := d2;
        Dataset.imported := (Dataset.imported st ++ import_calls label sessions)%list |}).
Proof.
  intros Hw Hb Hsetup Hmk Hok Hdl.
  unfold Dataset.download_dataset, bindM at 1, lift. rewrite Hw.
  unfold bindM at 1, Dataset.setup_bids_directories. rewrite Hsetup.
  unfold bindM at 1. rewrite Hb.
  unfold bindM at 1, Dataset.with_disk at 1.
  unfold prepared in Hdl. unfold Parser.makedirs in *. rewrite Hmk in *.
  cbn [snd] in Hdl. unfold bindM at 1, Dataset.with_disk. cbn [Dataset.on_disk].
  rewrite Hdl. unfold bindM.
  rewrite (sessions_loop_spec tools label sessions Hok
             (download_subject_NoDup _ _ _ _ _ _ _ _ Hdl) sessions [] [] _ eq_refl eq_refl).
  unfold ret. cbn [Dataset.on_disk Dataset.imported dict_set].
  now rewrite String.eqb_refl.
Qed.

Lemma download_dataset_subject_witness :
  Dataset.download_dataset quiet_platform quiet_tools
    (Dataset.Subject "My-Study 1" twin_subject) gear_config empty_site
  = (Ok (Some [("P01", session_ids [("Visit1", ("/flywheel/v0/work/sourcedata/My-Study 1/P01/Visit1", "id:Visit-1"));
                                    ("Visit1a", ("/flywheel/v0/work/sourcedata/My-Study 1/P01/Visit1", "id:Visit_1"));
                                    ("Visit1b", ("/flywheel/v0/work/sourcedata/My-Study 1/P01/Visit1", "id:Visit1 again"))])]),
     {| Dataset.on_disk :=
          (Parser.download_subject quiet_platform twin_subject
             (join (join "/flywheel/v0/work/" "sourcedata") "My-Study 1") false
             (prepared quiet_platform "/flywheel/v0/work/" empty_site)).2;
        Dataset.imported :=
          ([] ++ import_calls "P01"
                   [("Visit1", ("/flywheel/v0/work/sourcedata/My-Study 1/P01/Visit1", "id:Visit-1"));
                    ("Visit1a", ("/flywheel/v0/work/sourcedata/My-Study 1/P01/Visit1", "id:Visit_1"));
                    ("Visit1b", ("/flywheel/v0/work/sourcedata/My-Study 1/P01/Visit1", "id:Visit1 again"))])%list |}).
Proof.
  apply (download_dataset_subject quiet_platform quiet_tools "My-Study 1" twin_subject
           gear_config empty_site "/flywheel/v0/work/"
           "/flywheel/v0/utils/dcm2bids_config.json"); reflexivity.
Defined.

(** The three sessions of [twin_subject] collide: the conversion is run
    three times on one folder, once under each resolved label. *)
Example twin_subject_import_calls :
  Dataset.imported
    (Dataset.download_dataset quiet_platform quiet_tools
       (Dataset.Subject "My-Study 1" twin_subject) gear_config empty_site).2
  = [("/flywheel/v0/work/sourcedata/My-Study 1/P01/Visit1", "P01", "Visit1");
     ("/flywheel/v0/work/sourcedata/My-Study 1/P01/Visit1", "P01", "Visit1a");
     ("/flywheel/v0/work/sourcedata/My-Study 1/P01/Visit1", "P01", "Visit1b")].
Proof. vm_compute. reflexivity. Qed.

Lemma Forall_dict_set {V} (P : string * V -> Prop) (k : string) (v : V) (d : dict V) :
  P (k, v) -> Forall P d -> Forall P (dict_set k v d).
Proof.
  intros Hv. induction 1 as [|[k' v'] d Hx Hd IH]; simpl.
  - repeat constructor. exact Hv.
  - destruct (String.eqb k k'); constructor; assumption.
Qed.

Lemma keys_app {V} (a b : dict V) : keys (a ++ b)%list = (keys a ++ keys b)%list.
Proof. unfold keys. induction a as [|x a IH]; simpl; [reflexivity | now rewrite IH]. Qed.

Lemma project_loop_values (pf : Parser.platform) (dir : string) (dry_run : bool)
      (l : list Parser.subject) :
  forall out d out' d',
    Dataset.project_loop pf dir dry_run out l d = (Ok out', d') ->
    Forall (fun sv => NoDup (keys sv.2)) out ->
    Forall (fun sv => NoDup (keys sv.2)) out'.
Proof.
  induction l as [|s0 l IH]; intros out d out' d'; simpl.
  - now intros [= <- _].
  - unfold bindM at 1.
    destruct (Parser.download_subject pf s0 dir dry_run d) as [[[lab v]|e] d1] eqn:E;
      [| discriminate].
    intros H Hall. apply IH in H; [exact H |].
    apply Forall_dict_set; [| exact Hall].
    simpl. eapply download_subject_NoDup. exact E.
Qed.

(** The loop over the subjects of a project, when no import fails. *)
Lemma subjects_loop_spec (tools : Dataset.bids_tools)
      (subjects : dict (dict (string * string))) :
  (forall a b c, Dataset.import_dicom_folder_error tools a b c = None) ->
  NoDup (keys subjects) ->
  Forall (fun sv => NoDup (keys sv.2)) subjects ->
  forall suf pre output st,
    subjects = (pre ++ suf)%list ->
    keys output = keys pre ->
    Dataset.subjects_loop tools subjects (keys suf) output st
    = (Ok (output ++ subject_ids suf)%list,
       {| Dataset.on_disk := Dataset.on_disk st;
          Dataset.imported := (Dataset.imported st ++ project_import_calls suf)%list |}).
Proof.
  intros Hok Hnd Hall. induction suf as [|[k v] suf IH]; intros pre output st Hs Hk.
  - simpl. unfold project_import_calls. simpl. rewrite !app_nil_r. now destruct st.
  - cbn [keys map fst Dataset.subjects_loop].
    assert (Hfresh : k ∉ keys pre) by (subst subjects; now apply NoDup_keys_split in Hnd).
    assert (Hv : NoDup (keys v)).
    { subst subjects. apply Forall_app in Hall as [_ Hall]. now inversion Hall. }
    cbv zeta. unfold bindM at 1, lift. rewrite Hs, (getitem_middle pre suf k v Hfresh).
    unfold bindM at 1.
    rewrite (sessions_loop_spec tools k v Hok Hv v [] [] st eq_refl eq_refl).
    assert (Hout : k ∉ keys output) by now rewrite Hk.
    rewrite (dict_set_new k [] output (dict_in_absent k output Hout)).
    rewrite (dict_set_last k [] _ output Hout).
    rewrite <- Hs. rewrite (IH (pre ++ [(k, v)])%list).
    + cbn [Dataset.on_disk Dataset.imported]. unfold subject_ids, project_import_calls.
      cbn [map concat fst snd]. now rewrite <- !app_assoc.
    + now rewrite <- app_assoc.
    + rewrite !keys_app, Hk. reflexivity.
Qed.

Lemma download_project_shape (pf : Parser.platform) (p : Dataset.project)
      (dir : string) (dry_run : bool) (d d' : Parser.disk)
      (name : string) (out : dict (dict (string * string))) :
  Dataset.download_project pf p dir dry_run d = (Ok (name, out), d') ->
  NoDup (keys out) /\ Forall (fun sv => NoDup (keys sv.2)) out.
Proof.
  unfold Dataset.download_project, bindM.
  destruct (Dataset.project_loop pf _ dry_run [] (Dataset.proj_subjects p) d)
    as [[o|e] d0] eqn:E; [| discriminate].
  intros [= _ <- _]. split.
  - apply project_loop_spec in E as (_ & K & _). apply K. constructor.
  - eapply project_loop_values; [exact E | constructor].
Qed.

(** [download_dataset] on a project, when nothing fails: the project is
    downloaded below sourcedata, [import_dicom_folder] is called once
    per session entry of the mapping that [download_project] returned,
    subject by subject, and the result holds the session identifiers
    under the same subject and session labels. Subjects that
    [download_project] dropped from its mapping are neither converted
    nor returned. *)
Theorem download_dataset_project (pf : Parser.platform) (tools : Dataset.bids_tools)
        (p : Dataset.project) (config : dict string)
        (st : Dataset.site) (work_dir bids_config : string)
        (name : string) (subjects : dict (dict (string * string))) (d2 : Parser.disk) :
  Options.getitem config "work_dir" = Ok work_dir ->
  Options.getitem config "bids_config_file" = Ok bids_config ->
  Dataset.setup_bids_directories_error tools work_dir = None ->
  Parser.makedirs_error pf (join work_dir "sourcedata") = None ->
  (forall a b c, Dataset.import_dicom_folder_error tools a b c = None) ->
  Dataset.download_project pf p (join work_dir "sourcedata") false
    (prepared pf work_dir st) = (Ok (name, subjects), d2) ->
  Dataset.download_dataset pf tools (Dataset.Project p) config st
  = (Ok (Some (subject_ids subjects)),
     {| Dataset.on_disk := d2;
        Dataset.imported := (Dataset.imported st ++ project_import_calls subjects)%list |}).
Proof.
  intros Hw Hb Hsetup Hmk Hok Hdl.
  unfold Dataset.download_dataset, bindM at 1, lift. rewrite Hw.
  unfold bindM at 1, Dataset.setup_bids_directories. rewrite Hsetup.
  unfold bindM at 1. rewrite Hb.
  unfold bindM at 1, Dataset.with_disk at 1.
  unfold prepared in Hdl. unfold Parser.makedirs in *. rewrite Hmk in *.
  cbn [snd] in Hdl. unfold bindM at 1, Dataset.with_disk. cbn [Dataset.on_disk].
  rewrite Hdl. unfold bindM.
  destruct (download_project_shape _ _ _ _ _ _ _ _ Hdl) as [Hnd Hall].
  rewrite (subjects_loop_spec tools subjects Hok Hnd Hall subjects [] [] _ eq_refl eq_refl).
  reflexivity.
Qed.

Lemma download_dataset_project_witness :
  Dataset.download_dataset quiet_platform quiet_tools (Dataset.Project twin_project)
    gear_config empty_site
  = (Ok (Some (subject_ids
                 [("P01", [("Followup",
                            ("/flywheel/v0/work/sourcedata/My_Study1/P01/Followup",
                             "id:Followup"))])])),
     {| Dataset.on_disk :=
          (Dataset.download_project quiet_platform twin_project
             (join "/flywheel/v0/work/" "sourcedata") false
             (prepared quiet_platform "/flywheel/v0/work/" empty_site)).2;
        Dataset.imported :=
          ([] ++ project_import_calls
                   [("P01", [("Followup",
                              ("/flywheel/v0/work/sourcedata/My_Study1/P01/Followup",
                               "id:Followup"))])])%list |}).
Proof.
  apply (download_dataset_project quiet_platform quiet_tools twin_project
           gear_config empty_site "/flywheel/v0/work/"
           "/flywheel/v0/utils/dcm2bids_config.json" "My_Study1"); reflexivity.
Defined.

(** ** The options class *)

Lemma find_none_iff {A} (f : A -> bool) (l : list A) :
  find f l = None <-> forall x, x ∈ l -> f x = false.
Proof.
  induction l as [|a l IH]; simpl.
  - split; [intros _ x H; inversion H | reflexivity].
  - destruct (f a) eqn:E.
    + split; [discriminate |]. intros H. rewrite (H a) in E by left. discriminate.
    + rewrite IH. split.
      * intros H x Hx. apply elem_of_cons in Hx as [-> | Hx]; [exact E | now apply H].
      * intros H x Hx. apply H. now right.
Qed.

Lemma elem_of_keys {V} (k : string) (d : dict V) :
  k ∈ keys d <-> exists v, (k, v) ∈ d.
Proof.
  unfold keys. change (map fst d) with (fst <$> d). rewrite list_elem_of_fmap. split.
  - intros [[k' v] [-> H]]. now exists v.
  - intros [v H]. now exists (k, v).
Qed.

Lemma getitem_present {V} (k : string) (d : dict V) :
  k ∈ keys d -> exists v, Options.getitem d k = Ok v.
Proof.
  induction d as [|[k' v'] d IH]; simpl; intros H.
  - inversion H.
  - destruct (String.eqb_spec k k') as [-> | Hne]; [now exists v' |].
    unfold keys in H. simpl in H. apply elem_of_cons in H as [H | H]; [contradiction |].
    now apply IH.
Qed.

Lemma classic_names (kwargs : dict Options.pyval) :
  names_parameters kwargs \/ ~ names_parameters kwargs.
Proof.
  unfold names_parameters.
  destruct (decide (Forall (fun k => k ∈ Options.init_params) (keys kwargs)
                    /\ Forall (fun k => k ∈ keys kwargs) Options.init_params)) as [[H1 H2]|H].
  - left. intros k. rewrite Forall_forall in H1, H2. split; auto.
  - right. intros K. apply H. split; apply Forall_forall; intros k Hk; now apply K.
Qed.

(** The binding of the keywords succeeds exactly for the calls that
    name the parameters, and returns the keywords as they are. *)
Lemma bind_keywords_ok (fn : string) (kwargs : dict Options.pyval) :
  (names_parameters kwargs
   -> Options.bind_keywords fn Options.init_params kwargs = Ok kwargs)
  /\ (~ names_parameters kwargs
      -> exists msg, Options.bind_keywords fn Options.init_params kwargs
                     = Raise (TypeError msg)).
Proof.
  unfold Options.bind_keywords.
  destruct (find (fun kv => negb (str_in kv.1 Options.init_params)) kwargs)
    as [[k v]|] eqn:E1.
  - split; [| eauto]. intros H. exfalso.
    apply find_some in E1 as [Hin Hk]. cbn [fst] in Hk. apply negb_true_iff in Hk.
    assert (K : k ∈ Options.init_params).
    { apply H, elem_of_keys. exists v. now apply list_elem_of_In. }
    apply str_in_elem in K. congruence.
  - destruct (find (fun p => negb (dict_in p kwargs)) Options.init_params)
      as [p|] eqn:E2.
    + split; [| eauto]. intros H. exfalso.
      apply find_some in E2 as [Hin Hp]. apply negb_true_iff in Hp.
      rewrite dict_in_keys in Hp.
      assert (K : p ∈ keys kwargs) by (apply H; now apply list_elem_of_In).
      apply str_in_elem in K. congruence.
    + split; [reflexivity |]. intros H. exfalso. apply H. intros k. split.
      * intros Hk. apply elem_of_keys in Hk as [v Hv].
        rewrite find_none_iff in E1. specialize (E1 (k, v) Hv). cbn [fst] in E1.
        apply negb_false_iff in E1. now apply str_in_elem.
      * intros Hk. rewrite find_none_iff in E2. specialize (E2 k Hk).
        apply negb_false_iff in E2. rewrite dict_in_keys in E2.
        now apply str_in_elem.
Qed.

(** A call of [TestOptions] with keywords only constructs an instance
    exactly when the keywords are the four parameters of [__init__];
    the instance then holds the four values as passed. Every other call
    raises TypeError, and no call raises anything else. *)
Theorem TestOptions_new_keywords (kwargs : dict Options.pyval) :
  (names_parameters kwargs <->
   exists o, Options.TestOptions_new kwargs = Ok o
             /\ Options.getitem kwargs "which_model" = Ok (Options.which_model o)
             /\ Options.getitem kwargs "config" = Ok (Options.config o)
             /\ Options.getitem kwargs "sub" = Ok (Options.sub o)
             /\ Options.getitem kwargs "ses" = Ok (Options.ses o))
  /\ (forall e, Options.TestOptions_new kwargs = Raise e -> exists msg, e = TypeError msg).
Proof.
  destruct (bind_keywords_ok "TestOptions.__init__()" kwargs) as [Hok Hbad].
  assert (Hyes : names_parameters kwargs ->
                 exists o, Options.TestOptions_new kwargs = Ok o
                           /\ Options.getitem kwargs "which_model" = Ok (Options.which_model o)
                           /\ Options.getitem kwargs "config" = Ok (Options.config o)
                           /\ Options.getitem kwargs "sub" = Ok (Options.sub o)
                           /\ Options.getitem kwargs "ses" = Ok (Options.ses o)).
  { intros H. unfold Options.TestOptions_new. rewrite (Hok H). cbn [bind].
    destruct (getitem_present "which_model" kwargs) as [m Hm];
      [apply H; unfold Options.init_params; set_solver |].
    destruct (getitem_present "config" kwargs) as [c Hc];
      [apply H; unfold Options.init_params; set_solver |].
    destruct (getitem_present "sub" kwargs) as [su Hsu];
      [apply H; unfold Options.init_params; set_solver |].
    destruct (getitem_present "ses" kwargs) as [se Hse];
      [apply H; unfold Options.init_params; set_solver |].
    rewrite Hm, Hc, Hsu, Hse. cbn [bind].
    eexists. split; [reflexivity |]. simpl. auto. }
  split; [split; [exact Hyes |] |].
  - intros (o & H & _). destruct (classic_names kwargs) as [K | K]; [exact K |].
    destruct (Hbad K) as [msg Hmsg]. unfold Options.TestOptions_new in H.
    rewrite Hmsg in H. discriminate.
  - intros e H. destruct (classic_names kwargs) as [K | K].
    + destruct (Hyes K) as (o & Ho & _). congruence.
    + destruct (Hbad K) as [msg Hmsg]. unfold Options.TestOptions_new in H.
      rewrite Hmsg in H. cbn [bind] in H. injection H as <-. now exists msg.
Qed.

(** ** [initialize] *)

(** The normal form of a path is not needed to follow the steps of
    [initialize]. *)
#[local] Opaque Options.Path.

(** Names the two directories of [initialize] in the goal and in the
    hypotheses. *)
Ltac name_anat sub ses :=
  change (Options.Path ("/flywheel/v0/work/rawdata/sub-" +:+ sub +:+ "/ses-" +:+ ses
                        +:+ "/anat"))
    with (rawdata_anat sub ses) in *;
  change (Options.Path ("/flywheel/v0/work/derivatives/sub-" +:+ sub +:+ "/ses-" +:+ ses
                        +:+ "/anat"))
    with (derivatives_anat sub ses) in *.

Lemma Suffix_append (suf u s : string) : Suffix suf s -> Suffix suf (u +:+ s).
Proof. intros [v ->]. exists (u +:+ v). now rewrite append_assoc. Qed.

Lemma Suffix_join (suf a b : string) : Suffix suf b -> Suffix suf (join a b).
Proof.
  intros H. unfold join. destruct (startswith "/" b); [exact H |].
  destruct (_ || _); [now apply Suffix_append |].
  rewrite <- append_assoc. now apply Suffix_append.
Qed.

Example Path_examples :
  Options.Path "/flywheel/v0/work/rawdata/sub-01/ses-1/anat" = anat_dir
  /\ Options.Path "/a//b/./c/" = "/a/b/c"
  /\ Options.Path "/a/../b" = "/a/../b"
  /\ Options.Path "//a" = "//a"
  /\ Options.Path "///a" = "/a"
  /\ Options.Path "" = ".".
Proof. repeat split; vm_compute; reflexivity. Qed.

Example int_of_str_examples :
  Options.int_of_str "32" = Ok 32%Z
  /\ Options.int_of_str " 1_000 " = Ok 1000%Z
  /\ Options.int_of_str "-7" = Ok (-7)%Z
  /\ Options.int_of_str "+007" = Ok 7%Z
  /\ is_ok (Options.int_of_str "abc") = false
  /\ is_ok (Options.int_of_str "") = false
  /\ is_ok (Options.int_of_str "3.5") = false
  /\ is_ok (Options.int_of_str "1__0") = false
  /\ is_ok (Options.int_of_str "_1") = false
  /\ is_ok (Options.int_of_str "1_") = false
  /\ is_ok (Options.int_of_str "+ 1") = false.
Proof. repeat split; vm_compute; reflexivity. Qed.



(** The steps of [initialize] up to the listing, when neither the base
    class nor the creation of the output directory fails. *)
Lemma initialize_listing (env : Options.surroundings) (self : Options.TestOptions)
      (sub ses : string) :
  Options.sub self = Options.PStr sub -> Options.ses self = Options.PStr ses ->
  Options.base_error env = None ->
  Options.mkdir_error env (derivatives_anat sub ses) = None ->
  let gambas := Options.is_str (Options.which_model self) "GAMBAS" in
  let suffix := if gambas then "_gambas.nii.gz" else "_ResCNN.nii.gz" in
  match Options.glob (Options.ls env) (rawdata_anat sub ses) "*.nii.gz" with
  | [] =>
      Options.initialize env self
      = Raise (FileNotFoundError "No NIfTI files found in the anat directory.")
  | first :: _ =>
      exists stem,
        first = stem +:+ ".nii.gz"
        /\ Options.initialize env self
           = bind (Options.config_get (Options.config self) "phase" "test") (fun phase =>
             bind (Options.config_get (Options.config self) "which_epoch" "latest")
                  (fun which_epoch =>
             bind (Options.config_int (Options.config self) "stride_inplane") (fun si =>
             bind (Options.config_int (Options.config self) "stride_layer") (fun sl =>
             Ok {| Options.gpu_ids := if gambas then "0" else "-1";
                   Options.name := if gambas then "gpu" else "cpu";
                   Options.netG := if gambas then "i2i_mamba" else "res_cnn";
                   Options.input_dir := rawdata_anat sub ses;
                   Options.output_dir := derivatives_anat sub ses;
                   Options.image := join (rawdata_anat sub ses) first;
                   Options.reference := "/flywheel/v0/app/TemplateKhula.nii";
                   Options.result_sr :=
                     join (derivatives_anat sub ses)
                          (replace ".nii.gz" suffix stem +:+ suffix);
                   Options.phase := phase; Options.which_epoch := which_epoch;
                   Options.stride_inplane := si; Options.stride_layer := sl;
                   Options.model := "test" |}))))
  end.
Proof.
  intros Hsub Hses Hbase Hmk gambas suffix.
  assert (Hm : String.eqb (Options.fmt (Options.which_model self)) "GAMBAS" = gambas).
  { unfold gambas. destruct (Options.which_model self); reflexivity. }
  unfold Options.initialize, Options.get_gambas_basename.
  rewrite Hsub, Hses, Hbase. cbn [Options.fmt Options.check bind].
  name_anat sub ses. rewrite Hmk.
  cbn [Options.check bind].
  destruct (Options.glob (Options.ls env) (rawdata_anat sub ses) "*.nii.gz")
    as [|first rest] eqn:E; [reflexivity |].
  assert (H : endswith first ".nii.gz" = true).
  { apply (glob_nii_gz (Options.ls env) (rawdata_anat sub ses)). rewrite E. left. }
  rewrite H. apply endswith_spec in H as [stem ->]. exists stem.
  split; [reflexivity |].
  cbn [bind]. rewrite Hm, replace_nii_gz. fold gambas. reflexivity.
Qed.

(** What [initialize] has set when it returns. *)
Lemma initialize_returns (env : Options.surroundings) (m c : Options.pyval)
      (sub ses : string) (d : Options.defaults) :
  Options.initialize env {| Options.which_model := m; Options.config := c;
                            Options.sub := Options.PStr sub;
                            Options.ses := Options.PStr ses |} = Ok d ->
  let gambas := Options.is_str m "GAMBAS" in
  let suffix := if gambas then "_gambas.nii.gz" else "_ResCNN.nii.gz" in
  Options.gpu_ids d = (if gambas then "0" else "-1")
  /\ Options.name d = (if gambas then "gpu" else "cpu")
  /\ Options.netG d = (if gambas then "i2i_mamba" else "res_cnn")
  /\ exists first rest stem,
      Options.glob (Options.ls env) (rawdata_anat sub ses) "*.nii.gz" = first :: rest
      /\ first = stem +:+ ".nii.gz"
      /\ Options.image d = join (rawdata_anat sub ses) first
      /\ Options.result_sr d
         = join (derivatives_anat sub ses) (replace ".nii.gz" suffix stem +:+ suffix).
Proof.
  intros H gambas suffix.
  destruct (Options.base_error env) as [e|] eqn:Hbase.
  { unfold Options.initialize in H. rewrite Hbase in H. discriminate. }
  destruct (Options.mkdir_error env (derivatives_anat sub ses)) as [e|] eqn:Hmk.
  { unfold Options.initialize in H. rewrite Hbase in H.
    cbn [Options.check bind Options.sub Options.ses Options.fmt] in H.
    name_anat sub ses. rewrite Hmk in H. discriminate. }
  pose proof (initialize_listing env
                {| Options.which_model := m; Options.config := c;
                   Options.sub := Options.PStr sub; Options.ses := Options.PStr ses |}
                sub ses eq_refl eq_refl Hbase Hmk) as K.
  cbv zeta in K. cbn [Options.which_model Options.config] in K. fold gambas in K.
  fold suffix in K.
  destruct (Options.glob (Options.ls env) (rawdata_anat sub ses) "*.nii.gz")
    as [|first rest]; [congruence |].
  destruct K as (stem & Hstem & K). rewrite K in H.
  destruct (Options.config_get c "phase" "test") as [ph|]; [| discriminate].
  destruct (Options.config_get c "which_epoch" "latest") as [we|]; [| discriminate].
  destruct (Options.config_int c "stride_inplane") as [si|]; [| discriminate].
  destruct (Options.config_int c "stride_layer") as [sl|]; [| discriminate].
  cbn [bind] in H. injection H as <-. cbn.
  split; [reflexivity |]. split; [reflexivity |]. split; [reflexivity |].
  exists first, rest, stem. auto.
Qed.


#[local] Transparent Options.Path.

(** A stride that is not a number makes [initialize] raise, after the
    listing was found. *)
Example initialize_bad_stride :
  Options.initialize surroundings_A
    {| Options.which_model := Options.PStr "GAMBAS";
       Options.config := Options.PDict [("stride_inplane", "abc")];
       Options.sub := Options.PStr "01"; Options.ses := Options.PStr "1" |}
  = Raise (ValueError "invalid literal for int() with base 10: 'abc'").
Proof. vm_compute. reflexivity. Qed.

(** The device settings follow GPU detection. With the model name that
    [parse_config] derives from the run of nvidia-smi, an instance that
    [initialize] accepts gets the GPU settings and the _gambas suffix
    exactly when nvidia-smi returned 0, and the CPU settings and the
    _ResCNN suffix when it returned another code or was not found. *)
Theorem device_follows_gpu_detection (smi : result Z) (model : string)
        (env : Options.surroundings) (c : Options.pyval) (sub ses : string)
        (d : Options.defaults) :
  Dataset.parse_config_which_model smi = Ok model ->
  Options.initialize env {| Options.which_model := Options.PStr model; Options.config := c;
                            Options.sub := Options.PStr sub; Options.ses := Options.PStr ses |}
  = Ok d ->
  (smi = Ok 0%Z /\ model = "GAMBAS" /\ on_gpu d)
  \/ (((exists code, smi = Ok code /\ code <> 0%Z)
       \/ exists msg, smi = Raise (FileNotFoundError msg))
      /\ model = "ResCNN" /\ on_cpu d).
Proof.
  intros Hmodel Hinit.
  destruct (initialize_returns env (Options.PStr model) c sub ses d Hinit)
    as (G1 & G2 & G3 & first & rest & stem & _ & _ & _ & G4).
  unfold Dataset.parse_config_which_model, Dataset.check_gpu in Hmodel.
  destruct smi as [code | e].
  - cbn [bind] in Hmodel. injection Hmodel as <-.
    destruct (Z.eqb_spec code 0) as [-> | Hne].
    + left. split; [reflexivity |]. split; [reflexivity |].
      unfold on_gpu. rewrite G1, G2, G3, G4. cbn. repeat split.
      apply Suffix_join. now eexists.
    + right. split; [left; eauto |]. split; [reflexivity |].
      unfold on_cpu. rewrite G1, G2, G3, G4. cbn. repeat split.
      apply Suffix_join. now eexists.
  - destruct e; try discriminate. cbn [bind] in Hmodel. injection Hmodel as <-.
    right. split; [right; eauto |]. split; [reflexivity |].
    unfold on_cpu. rewrite G1, G2, G3, G4. cbn. repeat split.
    apply Suffix_join. now eexists.
Qed.

Lemma device_follows_gpu_detection_witness :
  on_gpu {| Options.gpu_ids := "0"; Options.name := "gpu"; Options.netG := "i2i_mamba";
            Options.input_dir := anat_dir;
            Options.output_dir := "/flywheel/v0/work/derivatives/sub-01/ses-1/anat";
            Options.image := raw_A;
            Options.reference := "/flywheel/v0/app/TemplateKhula.nii";
            Options.result_sr := derivative_A;
            Options.phase := "test"; Options.which_epoch := "latest";
            Options.stride_inplane := 32; Options.stride_layer := 32;
            Options.model := "test" |}.
Proof.
  destruct (device_follows_gpu_detection (Ok 0%Z) "GAMBAS" surroundings_A
              (Options.PDict []) "01" "1" _ eq_refl eq_refl)
    as [(_ & _ & H) | (_ & H & _)];
    [exact H | discriminate H].
Defined.

(** ** The unit processor: candidates that run through *)

Lemma process_file_runs (mk : dict Options.pyval -> result Run.opt) (E : Run.collab)
      (sub ses which_model : string) (config : dict string) (f : string)
      (out : option string) (fr : Run.frame) (d : list string) :
  runs mk E sub ses which_model config f out ->
  Run.deriv_fnames fr = Some d ->
  exists x', only_logged (Run.w fr) x'
             /\ Run.process_file mk E sub ses which_model config f fr
                = (Ok tt, {| Run.w := x'; Run.raw_fnames := Run.raw_fnames fr;
                             Run.deriv_fnames := Some (d ++ listed out)%list;
                             Run.logs := Run.logs fr |}).
Proof.
  intros (o & img & model & H1 & H2 & H3 & H4 & H5) Hd.
  unfold Run.process_file, try_except, bindM, Run.gb_logprint, Run.log_as,
    Run.in_world, lift, ret; simpl.
  rewrite H1. simpl. rewrite H2. simpl. rewrite H3. simpl. rewrite H4. simpl.
  rewrite H5. simpl.
  unfold listed, Run.record_outcome, bindM, Run.deriv_append, Run.bind_deriv,
    Run.log_as, Run.in_world.
  destruct (Run.truthy out) eqn:T; simpl; rewrite ?T, ?Hd; simpl; rewrite ?T; simpl.
  - eexists. split; [| rewrite <- app_assoc; reflexivity]. logged.
  - eexists. split; [| rewrite app_nil_r; reflexivity]. logged.
Qed.

(** ** The run supervisor: sessions that are published *)

Lemma getitem_fold_set (l : dict string) :
  forall (d : dict string) (k : string),
    Options.getitem (fold_left (fun d kv => dict_set kv.1 kv.2 d) l d) k
    = match last_value l k with
      | Some v => Ok v
      | None => Options.getitem d k
      end.
Proof.
  induction l as [|[k' v] l IH]; intros d k; simpl; [reflexivity |].
  rewrite IH. destruct (last_value l k); [reflexivity |].
  destruct (String.eqb_spec k k') as [-> | Hne].
  - apply getitem_dict_set_eq.
  - apply getitem_dict_set_ne. congruence.
Qed.

Lemma last_value_app (l1 l2 : dict string) (k : string) :
  last_value (l1 ++ l2)%list k
  = match last_value l2 k with
    | Some v => Some v
    | None => last_value l1 k
    end.
Proof.
  induction l1 as [|[k' v] l1 IH]; simpl.
  - now destruct (last_value l2 k).
  - rewrite IH. now destruct (last_value l2 k).
Qed.

(** The uploads: each file is appended to the files of the analysis,
    which is the last one of the platform. *)
Lemma upload_loop (E : Run.collab) (files : list string) :
  forall (x : Run.world) (pre : list Run.analysis) (a : Run.analysis),
    Run.analyses x = (pre ++ [a])%list ->
    exists x',
      for_each (fun file =>
                  Run.gb_logprint_w E ("Uploading output file: " +:+ basename file);;
                  Run.upload_output (length pre) file) files x
      = (Ok tt, x')
      /\ Run.fs x' = Run.fs x
      /\ Run.analyses x'
         = (pre ++ [{| Run.a_session := Run.a_session a; Run.a_label := Run.a_label a;
                       Run.a_info := Run.a_info a;
                       Run.a_files := (Run.a_files a ++ files)%list |}])%list.
Proof.
  induction files as [|f files IH]; intros x pre a Ha.
  - exists x. split; [reflexivity |]. split; [reflexivity |].
    rewrite Ha, app_nil_r. now destruct a.
  - cbn [for_each]. unfold bindM at 1. unfold bindM at 1.
    destruct (gb_logprint_w_logged E ("Uploading output file: " +:+ basename f) x)
      as [x1 [-> (F1 & _ & A1 & _)]].
    unfold Run.upload_output at 1.
    match goal with |- context [for_each ?b files ?y] =>
      destruct (IH y pre
                  {| Run.a_session := Run.a_session a; Run.a_label := Run.a_label a;
                     Run.a_info := Run.a_info a;
                     Run.a_files := (Run.a_files a ++ [f])%list |})
        as [x2 (-> & F2 & A2)] end.
    + cbn [Run.set_analyses Run.analyses]. rewrite A1, Ha.
      rewrite alter_app_r_alt by lia. rewrite Nat.sub_diag. reflexivity.
    + exists x2. split; [reflexivity |]. split; [now rewrite F2 |].
      rewrite A2. cbn [Run.a_session Run.a_label Run.a_info Run.a_files].
      now rewrite <- app_assoc.
Qed.

(** One turn of the supervisor for a session that the processor
    returns from. An analysis is created exactly when both the
    candidates and the derivatives are non-empty; it is then the record
    of the session with the candidates, the derivatives and the logs as
    its files, and no file of the work directory is touched. The status
    it stores is the one for a success: the value for a failure in the
    same expression cannot be reached, only a key status of the
    configuration replaces it. When either list is empty the platform
    receives nothing, the log of the session included. *)
Theorem session_is_published_when_complete
        (process : string -> string -> M Run.world (list string * list string * list string))
        (E : Run.collab) (config : dict string) (mf : Run.manifest)
        (sub ses session : string) (x : Run.world)
        (raw deriv logs : list string) :
  (process sub ses x).1 = Ok (raw, deriv, logs) ->
  let x1 := (process sub ses x).2 in
  let r := Run.session_turn process E config mf sub ses session x in
  r.1 = Ok tt
  /\ if Run.is_empty raw || Run.is_empty deriv
     then Run.analyses r.2 = Run.analyses x1
     else Run.fs r.2 = Run.fs x1
          /\ exists a, Run.analyses r.2 = (Run.analyses x1 ++ [a])%list
                       /\ records E mf config session (raw ++ deriv ++ logs)%list a.
Proof.
  intros Hr x1 r. subst x1.
  destruct (process sub ses x) as [res x1] eqn:Hp. cbn [fst snd] in *. subst res.
  assert (Hturn : exists x',
             Run.session_turn process E config mf sub ses session x = (Ok tt, x')
             /\ if Run.is_empty raw || Run.is_empty deriv
                then Run.analyses x' = Run.analyses x1
                else Run.fs x' = Run.fs x1
                     /\ exists a, Run.analyses x' = (Run.analyses x1 ++ [a])%list
                                  /\ records E mf config session
                                       (raw ++ deriv ++ logs)%list a).
  { unfold Run.session_turn. unfold bindM at 1. rewrite Hp.
    destruct raw as [|p0 raw].
    { cbn [Run.is_empty orb].
      match goal with |- context [Run.gb_logprint_w E ?m x1] =>
        destruct (gb_logprint_w_logged E m x1) as [x' [-> (_ & _ & A & _)]] end.
      exists x'. split; [reflexivity | exact A]. }
    destruct deriv as [|d0 deriv].
    { cbn [Run.is_empty orb]. unfold bindM at 1.
      match goal with |- context [Run.gb_logprint_w E ?m x1] =>
        destruct (gb_logprint_w_logged E m x1) as [x' [-> (_ & _ & A & _)]] end.
      destruct (remove_raw_loop E (p0 :: raw) x') as [x3 (-> & A3 & _)].
      exists x3. split; [reflexivity | congruence]. }
    cbn [Run.is_empty orb]. cbv zeta.
    unfold bindM at 1, Run.add_analysis at 1. unfold bindM at 1, Run.update_info at 1.
    match goal with |- context [for_each ?b ?l ?y] =>
      destruct (upload_loop E l y (Run.analyses x1)
                  {| Run.a_session := session;
                     Run.a_label := Run.m_name mf +:+ "/" +:+ Run.m_version mf
                                    +:+ " " +:+ Run.now E;
                     Run.a_info :=
                       fold_left (fun d kv => dict_set kv.1 kv.2 d)
                         ([("gear", Run.m_name mf); ("version", Run.m_version mf);
                           ("image", Run.m_image mf); ("Date", Run.now E);
                           ("status", "success"); ("note", "")] ++ config)%list [];
                     Run.a_files := [] |})
        as [x3 (Hx & F3 & A3)] end.
    { cbn [Run.set_analyses Run.analyses].
      rewrite alter_app_r_alt by lia. rewrite Nat.sub_diag. reflexivity. }
    exists x3. split; [exact Hx |]. split; [exact F3 |].
    eexists. split; [exact A3 |].
    unfold records. cbn [Run.a_session Run.a_label Run.a_info Run.a_files app].
    split; [reflexivity |]. split; [reflexivity |]. split; [reflexivity |].
    assert (Hinfo : forall k,
               Options.getitem
                 (fold_left (fun d kv => dict_set kv.1 kv.2 d)
                    ([("gear", Run.m_name mf); ("version", Run.m_version mf);
                      ("image", Run.m_image mf); ("Date", Run.now E);
                      ("status", "success"); ("note", "")] ++ config)%list []) k
               = match last_value config k with
                 | Some v => Ok v
                 | None =>
                     match last_value
                             [("gear", Run.m_name mf); ("version", Run.m_version mf);
                              ("image", Run.m_image mf); ("Date", Run.now E);
                              ("status", "success"); ("note", "")] k with
                     | Some v => Ok v
                     | None => Raise (KeyError k)
                     end
                 end).
    { intros k. rewrite getitem_fold_set, last_value_app.
      destruct (last_value config k); [reflexivity |].
      destruct (last_value _ k); reflexivity. }
    split; [| split; [| split]].
    - intros k v Hk. now rewrite Hinfo, Hk.
    - intros Hk. now rewrite Hinfo, Hk.
    - intros Hk. now rewrite Hinfo, Hk.
    - intros Hk. now rewrite Hinfo, Hk. }
  destruct Hturn as (x' & Hx' & H). subst r. rewrite Hx'. cbn [fst snd].
  split; [reflexivity | exact H].
Qed.

Lemma session_is_published_when_complete_witness :
  let r := Run.session_turn process_A env_A [("status", "draft")] manifest_A
             "01" "1" "session-1" world_A in
  r.1 = Ok tt
  /\ Run.fs r.2 = Run.fs (process_A "01" "1" world_A).2
  /\ exists a, Run.analyses r.2 = [a]
               /\ records env_A manifest_A [("status", "draft")] "session-1"
                    [raw_A; derivative_A; derivative_A; log_A] a.
Proof.
  destruct (session_is_published_when_complete process_A env_A [("status", "draft")]
              manifest_A "01" "1" "session-1" world_A
              [raw_A] [derivative_A; derivative_A] [log_A])
    as (H1 & H2 & a & H3 & H4).
  - vm_compute. reflexivity.
  - split; [exact H1 |]. split; [exact H2 |]. exists a. split; [exact H3 | exact H4].
Defined.

(** ** The whole run, with the processor and the options class of the
    source *)

(** One turn of [main] with the processor of the source. *)
Lemma session_turn_source (E : Run.collab) (which_model : string) (config : dict string)
      (mf : Run.manifest) (sub ses session : string) (x : Run.world) :
  exists r x',
    Run.session_turn (fun sub ses => Run.fw_process_subject E sub ses which_model config)
      E config mf sub ses session x = (r, x')
    /\ Run.analyses x' = Run.analyses x
    /\ match log_failure E (Run.log_filename E sub ses) with
       | Some e => r = Raise e
       | None =>
           map Run.h_id (Run.handlers x') = map Run.h_id (Run.handlers x)
           /\ match Run.parse_input_files E sub ses with
              | Raise _ => r = Raise (UnboundLocalError "raw_fnames")
              | Ok (axi, sag, cor) =>
                  r = Ok tt
                  /\ (forall p, p <> Run.log_filename E sub ses ->
                                p ∈ (axi ++ sag ++ cor)%list ->
                                Run.fs x' !! p = match Run.remove_error E p with
                                                 | None => None
                                                 | Some _ => Run.fs x !! p
                                                 end)
                  /\ (forall p, p <> Run.log_filename E sub ses ->
                                p ∉ (axi ++ sag ++ cor)%list ->
                                Run.fs x' !! p = Run.fs x !! p)
              end
       end.
Proof.
  destruct (fw_process_subject_with_paths (Run.TestOptions_parse E) E sub ses which_model
              config x) as [lines H].
  cbv zeta in H. destruct H as (_ & A & H).
  pose proof (fun axi sag cor =>
                fw_process_subject_no_derivative E sub ses which_model config x axi sag cor)
    as Hnone.
  unfold Run.session_turn. unfold bindM at 1. unfold Run.fw_process_subject in *.
  destruct (Run.fw_process_subject_with (Run.TestOptions_parse E) E sub ses which_model
              config x) as [res x1].
  cbn [fst snd] in *.
  destruct (log_failure E (Run.log_filename E sub ses)) as [e'|].
  { destruct H as (-> & _). exists (Raise e'), x1. auto. }
  destruct H as (F & Hid & Hres).
  destruct (Run.parse_input_files E sub ses) as [[[axi sag] cor]|e].
  - rewrite (Hnone axi sag cor eq_refl).
    destruct (axi ++ sag ++ cor)%list as [|p0 raw] eqn:Hraw.
    + cbn [Run.is_empty].
      match goal with |- context [Run.gb_logprint_w E ?m x1] =>
        destruct (gb_logprint_w_logged E m x1) as [x' [-> (F' & _ & A' & Hid')]] end.
      exists (Ok tt), x'. split; [reflexivity |]. split; [congruence |].
      split; [congruence |]. split; [reflexivity |]. split.
      * intros p _ Hp. now apply elem_of_nil in Hp.
      * intros p Hne _. rewrite F', F. now apply lookup_insert_ne.
    + cbn [Run.is_empty]. unfold bindM at 1.
      match goal with |- context [Run.gb_logprint_w E ?m x1] =>
        destruct (gb_logprint_w_logged E m x1) as [x' [-> (F' & _ & A' & Hid')]] end.
      destruct (remove_raw_loop E (p0 :: raw) x') as [x3 (Hx & A3 & I3 & G1 & G2)].
      rewrite Hx.
      exists (Ok tt), x3. split; [reflexivity |]. split; [congruence |].
      split; [congruence |]. split; [reflexivity |]. split.
      * intros p Hne Hp. rewrite (G1 p Hp), F', F.
        destruct (Run.remove_error E p); [| reflexivity].
        now apply lookup_insert_ne.
      * intros p Hne Hp. rewrite G2 by exact Hp. rewrite F', F.
        now apply lookup_insert_ne.
  - rewrite Hres. exists (Raise (UnboundLocalError "raw_fnames")), x1.
    split; [reflexivity |]. split; [exact A |]. split; [exact Hid | reflexivity].
Qed.

(** The two nested loops run the turns one after the other. *)
Lemma main_with_turns
      (process : string -> string -> M Run.world (list string * list string * list string))
      (E : Run.collab) (config : dict string) (mf : Run.manifest)
      (subses : dict (dict string)) (x : Run.world) :
  Run.main_with process E config mf subses x
  = for_each (fun u : string * string * string =>
                Run.session_turn process E config mf u.1.1 u.1.2 u.2) (turns subses) x.
Proof.
  unfold Run.main_with, turns. revert x.
  induction subses as [|s subses IH]; intros x; [reflexivity |].
  cbn [for_each map concat]. rewrite for_each_app. unfold bindM.
  assert (Hin : forall l y,
             for_each (fun t : string * string =>
                         Run.session_turn process E config mf s.1 t.1 t.2) l y
             = for_each (fun u : string * string * string =>
                           Run.session_turn process E config mf u.1.1 u.1.2 u.2)
                        (map (fun t : string * string => (s.1, t.1, t.2)) l) y).
  { induction l as [|t l IHl]; intros y; [reflexivity |].
    cbn [for_each map fst snd]. unfold bindM.
    destruct (Run.session_turn process E config mf s.1 t.1 t.2 y) as [[[]|e] y1];
      [apply IHl | reflexivity]. }
  rewrite Hin.
  match goal with |- context [for_each ?b (map ?g s.2) x] =>
    destruct (for_each b (map g s.2) x) as [[[]|e] x1] end;
    [apply IH | reflexivity].
Qed.


(** When discovery raises for no session and every session log can be
    written, [main] as the source has it ends normally, creates no
    analysis, and deletes every candidate it discovered, except those
    whose removal raises: at the end a path that is not the log file of
    a session is absent when it was a candidate of some session and its
    removal does not fail, and is as at the start otherwise. *)
Theorem main_deletes_every_candidate (E : Run.collab) (which_model : string)
        (config : dict string) (mf : Run.manifest) (subses : dict (dict string))
        (x : Run.world) :
  all_discovered E subses ->
  all_logged E subses ->
  let r := Run.main E which_model config mf subses x in
  r.1 = Ok tt
  /\ Run.analyses r.2 = Run.analyses x
  /\ forall p, p ∉ session_logs E subses ->
               Run.fs r.2 !! p
               = if decide (p ∈ discovered E subses)
                 then match Run.remove_error E p with
                      | None => None
                      | Some _ => Run.fs x !! p
                      end
                 else Run.fs x !! p.
Proof.
  unfold all_discovered, all_logged, session_logs, discovered. cbv zeta.
  unfold Run.main. rewrite main_with_turns.
  generalize (turns subses) as l. intros l Hall Hlogs. revert x.
  induction Hall as [|u l Hu Hall IH]; intros x.
  - simpl. split; [reflexivity |]. split; [reflexivity |]. intros p _.
    destruct (decide (p ∈ [])) as [H|H]; [now apply elem_of_nil in H | reflexivity].
  - apply Forall_cons in Hlogs as [Hlog Hlogs]. specialize (IH Hlogs).
    cbn [for_each]. unfold bindM.
    destruct (session_turn_source E which_model config mf u.1.1 u.1.2 u.2 x)
      as (r & x1 & -> & A & Hr).
    rewrite Hlog in Hr. destruct Hr as (_ & Hr).
    destruct (Run.parse_input_files E u.1.1 u.1.2) as [[[axi sag] cor]|e] eqn:Hparse;
      [| discriminate].
    assert (Hcand : candidates_of E u = (axi ++ sag ++ cor)%list)
      by (unfold candidates_of; now rewrite Hparse).
    cbn [map concat]. rewrite Hcand.
    destruct Hr as (-> & G1 & G2). destruct (IH x1) as (R' & A' & F').
    split; [exact R' |]. split; [congruence |].
    intros p Hp. apply not_elem_of_cons in Hp as [Hne Hp]. rewrite (F' p Hp).
    destruct (decide (p ∈ concat (map (candidates_of E) l))) as [Hin|Hin].
    + rewrite decide_True by (apply elem_of_app; now right).
      destruct (Run.remove_error E p) eqn:Ep; [| reflexivity].
      destruct (decide (p ∈ (axi ++ sag ++ cor)%list)) as [Hc|Hc].
      * rewrite (G1 p Hne Hc). now rewrite Ep.
      * now apply G2.
    + destruct (decide (p ∈ (axi ++ sag ++ cor)%list)) as [Hc|Hc].
      * rewrite decide_True by (apply elem_of_app; now left). now apply G1.
      * rewrite decide_False by (rewrite elem_of_app; tauto). now apply G2.
Qed.

Lemma main_deletes_every_candidate_witness :
  let r := Run.main env_A "GAMBAS" [] manifest_A [("01", [("1", "session-1")])] world_A in
  r.1 = Ok tt /\ Run.analyses r.2 = [] /\ Run.fs r.2 !! raw_A = None.
Proof.
  destruct (main_deletes_every_candidate env_A "GAMBAS" [] manifest_A
              [("01", [("1", "session-1")])] world_A) as (H1 & H2 & H3).
  - repeat constructor.
  - repeat constructor.
  - split; [exact H1 |]. split; [exact H2 |].
    rewrite H3; [reflexivity |]. vm_compute. intros H.
    apply list_elem_of_singleton in H. discriminate H.
Defined.

(** ** The configuration that [parse_config] returns *)

(** What [parse_config] returns on success: the four paths of the gear
    are in the configuration with their fixed values, whatever
    config.json gave for these keys; every other key reads as in the
    [config] object of config.json, which must also have had an entry
    [inputs]; and the model is GAMBAS exactly when nvidia-smi returned
    0. *)
Theorem parse_config_paths {C Mf : Type} (smi : result Z) (container : result C)
        (config_json : result (dict (dict string))) (manifest_json : result Mf)
        (c : C) (config : dict string) (mf : Mf) (model : string) :
  Dataset.parse_config smi container config_json manifest_json
  = Ok (c, config, mf, model) ->
  (forall k v, Options.getitem gear_paths k = Ok v -> Options.getitem config k = Ok v)
  /\ (exists top user,
         config_json = Ok top
         /\ dict_in "inputs" top = true
         /\ Options.getitem top "config" = Ok user
         /\ forall k, dict_in k gear_paths = false ->
                      Options.getitem config k = Options.getitem user k)
  /\ container = Ok c /\ manifest_json = Ok mf
  /\ (model = "GAMBAS" <-> smi = Ok 0%Z).
Proof.
  unfold Dataset.parse_config. intros H.
  destruct (Dataset.check_gpu smi) as [is_gpu|] eqn:Hgpu; [| discriminate].
  destruct container as [c'|]; [| discriminate].
  destruct config_json as [top|]; [| discriminate].
  destruct manifest_json as [mf'|]; [| discriminate].
  cbn [bind] in H.
  destruct (Options.getitem top "inputs") as [inputs|] eqn:Hin; [| discriminate].
  destruct (Options.getitem top "config") as [user|] eqn:Huser; [| discriminate].
  cbn [bind] in H. cbv zeta in H. injection H as <- <- <- <-.
  split; [| split; [| split; [reflexivity | split; [reflexivity |]]]].
  - intros k v Hk. unfold gear_paths in Hk. cbn [Options.getitem] in Hk.
    repeat match type of Hk with
           | (if String.eqb k ?s then _ else _) = _ =>
               destruct (String.eqb_spec k s) as [-> | ?]
           end; try discriminate; injection Hk as <-;
      repeat first [ apply getitem_dict_set_eq
                   | rewrite getitem_dict_set_ne by discriminate ].
  - exists top, user. split; [reflexivity |]. split.
    + destruct (dict_in "inputs" top) eqn:E; [reflexivity |].
      exfalso. clear -Hin E. induction top as [|[k' v'] top IH]; [discriminate |].
      cbn in Hin, E. apply orb_false_iff in E as [E1 E2].
      rewrite E1 in Hin. now apply IH.
    + split; [exact Huser |]. intros k Hk.
      unfold dict_in, gear_paths in Hk. cbn [existsb fst] in Hk.
      repeat (apply orb_false_iff in Hk as [? Hk]).
      repeat match goal with
             | Hne : String.eqb k _ = false |- _ => apply String.eqb_neq in Hne
             end.
      rewrite !getitem_dict_set_ne by congruence. reflexivity.
  - unfold Dataset.check_gpu in Hgpu. unfold Parser.parse_config_model.
    destruct smi as [code | e].
    + injection Hgpu as <-. destruct (Z.eqb_spec code 0) as [-> | Hne].
      * tauto.
      * split; [discriminate | intros [= ->]; contradiction].
    + destruct e; try discriminate. injection Hgpu as <-.
      split; discriminate.
Qed.

Lemma parse_config_paths_witness :
  Options.getitem
    [("work_dir", "/flywheel/v0/work/"); ("phase", "test");
     ("input_dir", "/flywheel/v0/input/");
     ("output_dir", "/flywheel/v0/output/");
     ("bids_config_file", "/flywheel/v0/utils/dcm2bids_config.json")] "work_dir"
  = Ok "/flywheel/v0/work/".
Proof.
  destruct (parse_config_paths (C := string) (Mf := Run.manifest)
              (Ok 0%Z) (Ok "session-1") (Ok config_json_A) (Ok manifest_A)
              "session-1" _ manifest_A "GAMBAS" eq_refl) as [H _].
  apply (H "work_dir"). reflexivity.
Defined.

(** ** The unit processor: failures of one candidate *)

Lemma process_file_contribution (mk : dict Options.pyval -> result Run.opt)
      (E : Run.collab) (sub ses which_model : string) (config : dict string)
      (f : string) (fr : Run.frame) (d : list string) :
  Run.deriv_fnames fr = Some d ->
  exists x', only_logged (Run.w fr) x'
             /\ Run.process_file mk E sub ses which_model config f fr
                = (Ok tt, {| Run.w := x'; Run.raw_fnames := Run.raw_fnames fr;
                             Run.deriv_fnames :=
                               Some (d ++ contribution mk E sub ses which_model config f)%list;
                             Run.logs := Run.logs fr |}).
Proof.
  intros Hd.
  destruct (mk (Run.options_keywords sub ses which_model config f)) as [o|e1] eqn:H1.
  2: { destruct (process_file_skips mk E sub ses which_model config f fr) as [x' [L ->]];
         [left; eauto |].
       exists x'. split; [exact L |]. unfold contribution. rewrite H1, app_nil_r.
       unfold with_world. now rewrite Hd. }
  destruct (Run.Registration E (Options.image o) (Options.reference o) sub ses)
    as [[img|]|e2] eqn:H2.
  2: { destruct (process_file_skips mk E sub ses which_model config f fr) as [x' [L ->]];
         [right; eauto |].
       exists x'. split; [exact L |]. unfold contribution. rewrite H1, H2, app_nil_r.
       unfold with_world. now rewrite Hd. }
  2: { unfold contribution. rewrite H1, H2, app_nil_r.
       unfold Run.process_file, try_except, bindM, Run.gb_logprint, Run.log_as,
         Run.in_world, lift, ret; simpl.
       rewrite H1. simpl. rewrite H2. simpl. rewrite <- Hd.
       eexists. split; [| reflexivity]. logged. }
  destruct (Run.create_model E o) as [model|e3] eqn:H3.
  2: { unfold contribution. rewrite H1, H2, H3, app_nil_r.
       unfold Run.process_file, try_except, bindM, Run.gb_logprint, Run.log_as,
         Run.in_world, lift, ret; simpl.
       rewrite H1. simpl. rewrite H2. simpl. rewrite H3. simpl. rewrite <- Hd.
       eexists. split; [| reflexivity]. logged. }
  destruct (Run.setup E model o) as [[]|e4] eqn:H4.
  2: { unfold contribution. rewrite H1, H2, H3, H4, app_nil_r.
       unfold Run.process_file, try_except, bindM, Run.gb_logprint, Run.log_as,
         Run.in_world, lift, ret; simpl.
       rewrite H1. simpl. rewrite H2. simpl. rewrite H3. simpl. rewrite H4. simpl.
       rewrite <- Hd. eexists. split; [| reflexivity]. logged. }
  destruct (Run.inference E model img o) as [out|e5] eqn:H5.
  2: { unfold contribution. rewrite H1, H2, H3, H4, H5, app_nil_r.
       unfold Run.process_file, try_except, bindM, Run.gb_logprint, Run.log_as,
         Run.in_world, lift, ret; simpl.
       rewrite H1. simpl. rewrite H2. simpl. rewrite H3. simpl. rewrite H4. simpl.
       rewrite H5. simpl. rewrite <- Hd. eexists. split; [| reflexivity]. logged. }
  destruct (process_file_runs mk E sub ses which_model config f out fr d)
    as [x' [L ->]]; [exists o, img, model; auto | exact Hd |].
  exists x'. split; [exact L |]. unfold contribution. now rewrite H1, H2, H3, H4, H5.
Qed.

Lemma for_each_contribution (mk : dict Options.pyval -> result Run.opt) (E : Run.collab)
      (sub ses which_model : string) (config : dict string) (l : list string) :
  forall fr d,
    Run.deriv_fnames fr = Some d ->
    exists x', only_logged (Run.w fr) x'
               /\ for_each (Run.process_file mk E sub ses which_model config) l fr
                  = (Ok tt, {| Run.w := x'; Run.raw_fnames := Run.raw_fnames fr;
                               Run.deriv_fnames :=
                                 Some (d ++ concat (map (contribution mk E sub ses which_model
                                                           config) l))%list;
                               Run.logs := Run.logs fr |}).
Proof.
  induction l as [|f l IH]; intros fr d Hd.
  - exists (Run.w fr). split; [apply only_logged_refl |].
    simpl. rewrite app_nil_r, <- Hd. now destruct fr.
  - simpl. unfold bindM.
    destruct (process_file_contribution mk E sub ses which_model config f fr d Hd)
      as [x1 [L1 ->]].
    match goal with |- context [for_each _ l ?fr1] =>
      destruct (IH fr1 (d ++ contribution mk E sub ses which_model config f)%list eq_refl)
        as [x2 [L2 ->]] end.
    exists x2. split; [eapply only_logged_trans; eauto |].
    cbn [Run.raw_fnames Run.logs Run.w]. now rewrite <- app_assoc.
Qed.

(** The result of the function once discovery has returned, for any
    options class: each candidate adds its contribution. *)
Lemma fw_process_subject_with_contribution
      (mk : dict Options.pyval -> result Run.opt) (E : Run.collab)
      (sub ses which_model : string) (config : dict string) (x : Run.world)
      (axi sag cor : list string) :
  Run.parse_input_files E sub ses = Ok (axi, sag, cor) ->
  (Run.fw_process_subject_with mk E sub ses which_model config x).1
  = match log_failure E (Run.log_filename E sub ses) with
    | None =>
        Ok ((axi ++ sag ++ cor)%list,
            concat (map (contribution mk E sub ses which_model config)
                        (axi ++ sag ++ cor)%list),
            [Run.log_filename E sub ses])
    | Some e => Raise e
    end.
Proof.
  intros Hp.
  destruct (session_body_discovered mk E sub ses which_model config
              (Run.w (Run.session_frame x).2) axi sag cor Hp) as [x1' [_ Hb]].
  unfold try_except in Hb.
  match type of Hb with context [for_each ?b ?l ?fr] =>
    destruct (for_each_contribution mk E sub ses which_model config l fr [] eq_refl)
      as [x2 [_ Hf]] end.
  rewrite Hf in Hb.
  apply (fw_process_subject_with_result mk E sub ses which_model config x x2).
  unfold Run.session_frame. simpl. exact Hb.
Qed.

(** The failure of one candidate stays with that candidate. Once
    discovery has returned, the function returns, whatever any step of
    the loop body raises: it gives back all candidates, the log file,
    and as derivatives exactly the non-empty outputs of the candidates
    for which every step returned, in the order of the candidates. (The
    one exception that can leave it is that of writing the log
    file.) *)
Theorem candidate_failures_are_isolated
        (mk : dict Options.pyval -> result Run.opt) (E : Run.collab)
        (sub ses which_model : string) (config : dict string) (x : Run.world)
        (axi sag cor : list string) :
  Run.parse_input_files E sub ses = Ok (axi, sag, cor) ->
  exists deriv,
    (Run.fw_process_subject_with mk E sub ses which_model config x).1
    = match log_failure E (Run.log_filename E sub ses) with
      | None => Ok ((axi ++ sag ++ cor)%list, deriv, [Run.log_filename E sub ses])
      | Some e => Raise e
      end
    /\ deriv = concat (map (contribution mk E sub ses which_model config)
                           (axi ++ sag ++ cor)%list)
    /\ forall p, p ∈ deriv <->
                 exists f, f ∈ (axi ++ sag ++ cor)%list
                           /\ p <> ""
                           /\ runs mk E sub ses which_model config f (Some p).
Proof.
  intros Hp. eexists. split; [| split; [reflexivity |]].
  - apply (fw_process_subject_with_contribution mk E sub ses which_model config x
             axi sag cor Hp).
  - intros p. rewrite list_elem_of_In, in_concat. split.
    + intros (c & Hc & Hpc). apply in_map_iff in Hc as (f & <- & Hf).
      exists f. split; [now apply list_elem_of_In |].
      unfold contribution in Hpc. unfold runs.
      destruct (mk _) as [o|] eqn:H1; [| contradiction].
      destruct (Run.Registration E _ _ sub ses) as [[img|]|] eqn:H2; try contradiction.
      destruct (Run.create_model E o) as [model|] eqn:H3; [| contradiction].
      destruct (Run.setup E model o) as [[]|] eqn:H4; [| contradiction].
      destruct (Run.inference E model img o) as [out|] eqn:H5; [| contradiction].
      unfold listed in Hpc. destruct (Run.truthy out) eqn:T; [| contradiction].
      destruct out as [s|]; [| discriminate]. simpl in T, Hpc.
      assert (s = p) as -> by (destruct Hpc as [? | [? | []]]; assumption).
      split.
      * intros ->. discriminate.
      * exists o, img, model. repeat split; assumption.
    + intros (f & Hf & Hne & o & img & model & H1 & H2 & H3 & H4 & H5).
      exists (contribution mk E sub ses which_model config f). split.
      * apply in_map. now apply list_elem_of_In.
      * unfold contribution. rewrite H1, H2, H3, H4, H5. unfold listed. simpl.
        destruct (String.eqb_spec p ""); [contradiction | simpl; auto].
Qed.

Lemma candidate_failures_are_isolated_witness :
  exists deriv,
    (Run.fw_process_subject_with options_B env_B "01" "1" "GAMBAS" []
       world_A).1
    = Ok ([raw_A; raw_B], deriv, [log_A])
    /\ deriv = [derivative_A; derivative_A].
Proof.
  destruct (candidate_failures_are_isolated options_B env_B "01" "1"
              "GAMBAS" [] world_A [raw_A] [raw_B] [] eq_refl) as (deriv & H1 & H2 & _).
  exists deriv. split; [exact H1 |]. rewrite H2. vm_compute. reflexivity.
Defined.

(** ** Registration that gives no image *)




